(** * comic_scraper_api: a shallow embedding of the chapter download pipeline

    The development follows [src/comic_scraper.py], with the two helpers of
    [src/services/cloudinary_service.py] and the [Comic] table of
    [src/models/comic.py].

    Conventions.
    - Python [str] values are [string]s of ASCII characters.
    - A Python [float] is modelled by the exact decimal it was read from
      ([pyfloat], a mantissa and a power of ten).  [float(s)] is the
      binary64 nearest to that decimal; with at most fifteen significant
      digits in [s], as in any chapter number, the decimal is recovered
      from the float, and [repr_float] prints it the way [repr] prints the
      float.  The rounding is monotone, so two floats compare as their
      decimals do, up to ties between decimals that round to one float.
    - External collaborators (the HTTP servers, the Cloudinary service, the
      HTML parser) are inputs: a response oracle, an [AssetStore] interface,
      and already selected page elements. *)

From Stdlib Require Import ZArith List Ascii String Lia Bool.
From Stdlib Require Import Permutation Sorted.
From Stdlib Require DecimalString.
From stdpp Require Import base option list strings gmap.
Import ListNotations.

Local Open Scope string_scope.
Local Open Scope list_scope.

(** ** Python string helpers *)

Definition is_digit (c : ascii) : bool :=
  let n := nat_of_ascii c in (48 <=? n)%nat && (n <=? 57)%nat.

(** [str.isspace] on the ASCII range. *)
Definition is_space (c : ascii) : bool :=
  let n := nat_of_ascii c in
  ((9 <=? n)%nat && (n <=? 13)%nat) || ((28 <=? n)%nat && (n <=? 32)%nat).

Fixpoint all_digits (s : string) : bool :=
  match s with
  | EmptyString => true
  | String c t => is_digit c && all_digits t
  end.

(** The longest run of digits at the head of [s], and what follows it:
    the greedy [\d*]. *)
Fixpoint span_digits (s : string) : string * string :=
  match s with
  | EmptyString => (EmptyString, EmptyString)
  | String c t =>
      if is_digit c
      then let '(d, r) := span_digits t in (String c d, r)
      else (EmptyString, s)
  end.

Fixpoint strip_prefix (p s : string) : option string :=
  match p, s with
  | EmptyString, _ => Some s
  | String a p', String b s' =>
      if Ascii.eqb a b then strip_prefix p' s' else None
  | String _ _, EmptyString => None
  end.

Fixpoint lstrip (s : string) : string :=
  match s with
  | EmptyString => EmptyString
  | String c t => if is_space c then lstrip t else s
  end.

Fixpoint rstrip (s : string) : string :=
  match s with
  | EmptyString => EmptyString
  | String c t =>
      match rstrip t with
      | EmptyString => if is_space c then EmptyString else String c EmptyString
      | t' => String c t'
      end
  end.

(** [s.strip()] *)
Definition strip (s : string) : string := rstrip (lstrip s).

(** [s.replace(a, b)] for one-character [a] and [b]. *)
Fixpoint replace_char (a b : ascii) (s : string) : string :=
  match s with
  | EmptyString => EmptyString
  | String c t => String (if Ascii.eqb c a then b else c) (replace_char a b t)
  end.

Definition newline : ascii := ascii_of_nat 10.
Definition space : ascii := ascii_of_nat 32.

(** [s.split(sep)] for a one-character separator: never empty. *)
Fixpoint split_char (sep : ascii) (s : string) : list string :=
  match s with
  | EmptyString => [EmptyString]
  | String c t =>
      match split_char sep t with
      | [] => [String c EmptyString]
      | w :: ws =>
          if Ascii.eqb c sep then EmptyString :: w :: ws
          else String c w :: ws
      end
  end.

(** ** Regular expressions of the scraper *)

(** [re.search]: the match at the leftmost position where the pattern,
    given as a matcher [m] for the text starting at a position, succeeds. *)
Fixpoint re_search {A} (m : string -> option A) (s : string) : option A :=
  match m s with
  | Some r => Some r
  | None =>
      match s with
      | EmptyString => None
      | String _ t => re_search m t
      end
  end.

(** [\d+] anchored at the head of [s]; the result is the matched text. *)
Definition match_digits (s : string) : option string :=
  let '(d, _) := span_digits s in
  match d with
  | EmptyString => None
  | _ => Some d
  end.

(** [\d+(\.\d+)?] anchored at the head of [s]. *)
Definition match_number (s : string) : option string :=
  let '(n, r) := span_digits s in
  match n with
  | EmptyString => None
  | _ =>
      match r with
      | String "."%char r' =>
          let '(m, _) := span_digits r' in
          match m with
          | EmptyString => Some n
          | _ => Some (n +:+ "." +:+ m)
          end
      | _ => Some n
      end
  end.

(** [lit] followed by [inner]; the result is [inner]'s group. *)
Definition match_lit_then {A} (lit : string) (inner : string -> option A)
    (s : string) : option A :=
  match strip_prefix lit s with
  | Some r => inner r
  | None => None
  end.

(** [re.search(r'Chapter (\d+(\.\d+)?)', text)], group 1. *)
Definition search_chapter_text (text : string) : option string :=
  re_search (match_lit_then "Chapter " match_number) text.

(** [re.search(r'chapter-(\d+)', url)], group 1. *)
Definition search_chapter_url (url : string) : option string :=
  re_search (match_lit_then "chapter-" match_digits) url.

(** ** Python floats, as exact decimals *)

(** The value [mant / 10 ^ scale]. *)
Record pyfloat := PyFloat { mant : Z; scale : nat }.

Definition pow10 (n : nat) : Z := 10 ^ Z.of_nat n.

Definition float_le (a b : pyfloat) : bool :=
  (mant a * pow10 (scale b) <=? mant b * pow10 (scale a))%Z.

Definition float_lt (a b : pyfloat) : bool :=
  (mant a * pow10 (scale b) <? mant b * pow10 (scale a))%Z.

(** [x >= y] *)
Definition float_ge (x y : pyfloat) : bool := float_le y x.

(** Truthiness of a float: [bool(x)] is false exactly for zero. *)
Definition float_truthy (x : pyfloat) : bool := negb (mant x =? 0)%Z.

Definition digit_val (c : ascii) : Z := Z.of_nat (nat_of_ascii c) - 48.

(** The number written by a string of digits, most significant first. *)
Fixpoint digits_val_acc (acc : Z) (s : string) : Z :=
  match s with
  | EmptyString => acc
  | String c t => digits_val_acc (10 * acc + digit_val c) t
  end.

Definition digits_val (s : string) : Z := digits_val_acc 0 s.

(** [float(s)] for the literals [N] and [N.M] (the only ones the chapter
    pattern produces); [None] stands for [ValueError]. *)
Definition py_float (s : string) : option pyfloat :=
  let '(n, r) := span_digits s in
  match n with
  | EmptyString => None
  | _ =>
      match r with
      | EmptyString => Some (PyFloat (digits_val n) 0)
      | String "."%char m =>
          if all_digits m
          then Some (PyFloat (digits_val (n +:+ m)) (String.length m))
          else None
      | _ => None
      end
  end.

(** Decimal digits of a non-negative integer, without leading zeros. *)
Definition digits_of (n : Z) : string :=
  DecimalString.NilZero.string_of_uint (N.to_uint (Z.to_N n)).

Fixpoint zeros (n : nat) : string :=
  match n with
  | O => EmptyString
  | S k => String "0"%char (zeros k)
  end.

Fixpoint rstrip_zeros (s : string) : string :=
  match s with
  | EmptyString => EmptyString
  | String c t =>
      match rstrip_zeros t with
      | EmptyString =>
          if Ascii.eqb c "0"%char then EmptyString else String c EmptyString
      | t' => String c t'
      end
  end.

Fixpoint take_str (n : nat) (s : string) : string :=
  match n, s with
  | S k, String c t => String c (take_str k t)
  | _, _ => EmptyString
  end.

Fixpoint drop_str (n : nat) (s : string) : string :=
  match n, s with
  | S k, String _ t => drop_str k t
  | _, _ => s
  end.

(** The exponent of the scientific notation: a sign and at least two
    digits. *)
Definition repr_exponent (e : Z) : string :=
  let d := digits_of (Z.abs e) in
  (if (e <? 0)%Z then "-" else "+")
  +:+ (if (String.length d <? 2)%nat then "0" +:+ d else d).

(** [repr(x)], which is also [str(x)] and what an f-string prints for [x]:
    fixed notation while the decimal point lies within the digits by at
    most 16 places to the right and 3 zeros to the left, scientific
    notation otherwise. *)
Definition repr_float (x : pyfloat) : string :=
  if (mant x =? 0)%Z then "0.0"
  else
    let d := digits_of (Z.abs (mant x)) in
    let decpt := (Z.of_nat (String.length d) - Z.of_nat (scale x))%Z in
    let d' := rstrip_zeros d in
    let n := Z.of_nat (String.length d') in
    (if (mant x <? 0)%Z then "-" else "")
    +:+ (if ((-4 <? decpt) && (decpt <=? 16))%Z
         then
           if (decpt <=? 0)%Z
           then "0." +:+ zeros (Z.to_nat (- decpt)) +:+ d'
           else if (decpt <? n)%Z
           then take_str (Z.to_nat decpt) d' +:+ "."
                +:+ drop_str (Z.to_nat decpt) d'
           else d' +:+ zeros (Z.to_nat (decpt - n)) +:+ ".0"
         else
           take_str 1 d'
           +:+ (if (1 <? n)%Z then "." +:+ drop_str 1 d' else "")
           +:+ "e" +:+ repr_exponent (decpt - 1)).

(** [int(s)] for an optionally signed run of digits, blanks around it
    ignored; [None] stands for [ValueError] (digit groups separated by
    underscores, which [int] also reads, are not modelled). *)
Definition py_int (s : string) : option Z :=
  match strip s with
  | String "-"%char d =>
      if all_digits d && negb (String.eqb d "") then Some (- digits_val d)%Z
      else None
  | String "+"%char d =>
      if all_digits d && negb (String.eqb d "") then Some (digits_val d)
      else None
  | d =>
      if all_digits d && negb (String.eqb d "") then Some (digits_val d)
      else None
  end.

(** ** Chapters *)

(** An [<a>] element of the chapter list: its text and its [href]
    attribute, which the markup may lack. *)
Record link := Link { text : string; href : option string }.

(** The dict [{'number': ..., 'url': ...}]. *)
Record chapter := Chapter { number : pyfloat; url : string }.

(** [sorted(chapters, key=lambda x: x['number'])].  Python's sort is
    stable; so is this insertion sort, which puts an element before the
    first later element whose key is not smaller. *)
Fixpoint insert_by_number (c : chapter) (l : list chapter) : list chapter :=
  match l with
  | [] => [c]
  | d :: t =>
      if float_le (number c) (number d) then c :: d :: t
      else d :: insert_by_number c t
  end.

Fixpoint sorted_by_number (l : list chapter) : list chapter :=
  match l with
  | [] => []
  | c :: t => insert_by_number c (sorted_by_number t)
  end.

(** [item.text.strip().replace("\n", " ")] *)
Definition chapter_text (item : link) : string :=
  replace_char newline space (strip (text item)).

(** What one link contributes: nothing when the pattern is not found,
    one chapter when it is; the outer [None] is an exception
    ([KeyError] on a missing [href]). *)
Definition chapter_of_link (item : link) : option (option chapter) :=
  match search_chapter_text (chapter_text item) with
  | None => Some None
  | Some g =>
      match py_float g, href item with
      | Some x, Some h => Some (Some (Chapter x h))
      | _, _ => None
      end
  end.

(** The loop of [get_chapter_list]; [None] when an iteration raises. *)
Fixpoint collect_chapters (links : list link) : option (list chapter) :=
  match links with
  | [] => Some []
  | item :: rest =>
      match chapter_of_link item with
      | None => None
      | Some None => collect_chapters rest
      | Some (Some c) =>
          match collect_chapters rest with
          | Some cs => Some (c :: cs)
          | None => None
          end
      end
  end.

(** [get_chapter_list(soup)], on the links the selector returns. *)
Definition get_chapter_list (links : list link) : list chapter :=
  match collect_chapters links with
  | Some chapters => sorted_by_number chapters
  | None => []
  end.

(** ** Effects: the remote services and the event log *)

Definition MAX_CONCURRENT_DOWNLOADS : nat := 3.
Definition MAX_RETRIES : nat := 3.
Definition RETRY_DELAY : Z := 2.

Inductive exn :=
| ClientError        (* aiohttp.ClientError, with ClientResponseError *)
| RequestException   (* requests.RequestException, with HTTPError *)
| ValueError
| KeyError.

Record response := Response {
  status : Z;
  headers : gmap string string;
  body : string
}.

(** What a GET comes back with: a response, or a transport failure. *)
Inductive http_outcome :=
| HttpResponse (r : response)
| HttpFailure.

(** What [cloudinary.api.resources] comes back with: an error, or a dict
    that may hold a ['resources'] list. *)
Inductive api_result :=
| ApiError
| ApiDict (resources : option (list string)).

(** What [cloudinary.uploader.upload] comes back with: an
    [cloudinary.exceptions.Error], or a dict with its ['secure_url']. *)
Inductive upload_result :=
| UploadError
| UploadDict (secure_url : string).

(** The asset host, as the two calls the scraper makes to it. *)
Class AssetStore (S : Type) := {
  api_resources : S -> string -> api_result;
  uploader_upload : S -> string -> string -> string -> upload_result * S
}.

(** Everything observable the scraper does. *)
Inductive event :=
| EvResources (prefix : string)        (* api.resources(prefix=..., max_results=1) *)
| EvUpload (folder filename : string)  (* uploader.upload(..., folder, public_id) *)
| EvRequestsGet (u : string)           (* requests.get(u) *)
| EvSessionGet (u : string)            (* session.get(u, headers=...) *)
| EvSleep (seconds : Z)                (* asyncio.sleep(seconds) *)
| EvSleepUniform (lo hi : Z).          (* asyncio.sleep(random.uniform(lo, hi)) *)

Definition is_fetch (e : event) : bool :=
  match e with EvRequestsGet _ | EvSessionGet _ => true | _ => false end.

Definition is_upload (e : event) : bool :=
  match e with EvUpload _ _ => true | _ => false end.

Definition is_sleep (e : event) : bool :=
  match e with EvSleep _ | EvSleepUniform _ _ => true | _ => false end.

(** A request to the scraped site or an upload: what the skip check is
    there to avoid. *)
Definition is_network (e : event) : bool := is_fetch e || is_upload e.

Inductive outcome (A : Type) :=
| Ok (a : A)
| Raise (e : exn).
Arguments Ok {A} a.
Arguments Raise {A} e.

Section Effects.
Context {S : Type}.

(** The asset store and the number of GETs issued so far, which indexes
    the response oracle. *)
Record world := World { store : S; clock : nat }.

(** A computation: a result or an exception, the world after it, and the
    events it produced, oldest first. *)
Definition M (A : Type) : Type := world -> outcome A * world * list event.

Definition ret {A} (a : A) : M A := fun w => (Ok a, w, []).

Definition raise {A} (e : exn) : M A := fun w => (Raise e, w, []).

Definition bind {A B} (m : M A) (k : A -> M B) : M B :=
  fun w =>
    match m w with
    | (Ok a, w1, t1) => let '(r, w2, t2) := k a w1 in (r, w2, t1 ++ t2)
    | (Raise e, w1, t1) => (Raise e, w1, t1)
    end.

(** [try: m  except <those e with catches e>: h e] *)
Definition try_except {A} (m : M A) (catches : exn -> bool) (h : exn -> M A)
    : M A :=
  fun w =>
    match m w with
    | (Raise e, w1, t1) =>
        if catches e
        then let '(r, w2, t2) := h e w1 in (r, w2, t1 ++ t2)
        else (Raise e, w1, t1)
    | r => r
    end.

Definition emit (e : event) : M unit := fun w => (Ok tt, w, [e]).
End Effects.

Arguments world : clear implicits.
Arguments M : clear implicits.

Notation "'let*' x := m 'in' k" := (bind m (fun x => k))
  (at level 10, x name, m at level 100, k at level 200,
   format "'[v' 'let*'  x  :=  m  'in' '/' k ']'").
Notation "m ;;; k" := (bind m (fun _ => k))
  (at level 100, k at level 200, right associativity).

(** ** The pipeline *)

Section Pipeline.
Context {S : Type} `{AssetStore S}.

(** The sites' answers: what the [n]-th GET of the run, to URL [u],
    comes back with. *)
Variable net : nat -> string -> http_outcome.

(** The [src] attribute, when there is one, of every [<img>] that
    ['#chapter_body > .main-reading-area img'] selects in a page. *)
Variable select_images : string -> list (option string).

(** *** cloudinary_service.py *)

Definition call_api_resources (prefix : string) : M S api_result :=
  fun w => (Ok (api_resources (store w) prefix), w, [EvResources prefix]).

Definition call_uploader_upload (data folder filename : string)
    : M S upload_result :=
  fun w =>
    let '(r, s') := uploader_upload (store w) data folder filename in
    (Ok r, World s' (clock w), [EvUpload folder filename]).

(** ['resources' in result and len(result['resources']) > 0], and
    [False] on any exception. *)
Definition has_resources (r : api_result) : bool :=
  match r with
  | ApiDict (Some l) => (0 <? length l)%nat
  | _ => false
  end.

Definition folder_exists (folder_path : string) : M S bool :=
  let* r := call_api_resources folder_path in
  ret (has_resources r).

Definition file_exists (folder filename : string) : M S bool :=
  let* r := call_api_resources (folder +:+ "/" +:+ filename) in
  ret (has_resources r).

(** The result dict, or [None] after a Cloudinary error. *)
Definition upload_image (data folder filename : string)
    : M S (option string) :=
  let* r := call_uploader_upload data folder filename in
  match r with
  | UploadDict u => ret (Some u)
  | UploadError => ret None
  end.

(** *** HTTP *)

Definition requests_get (u : string) : M S http_outcome :=
  fun w => (Ok (net (clock w) u), World (store w) (1 + clock w),
            [EvRequestsGet u]).

Definition session_get (u : string) : M S http_outcome :=
  fun w => (Ok (net (clock w) u), World (store w) (1 + clock w),
            [EvSessionGet u]).

Definition sleep (seconds : Z) : M S unit := emit (EvSleep seconds).

(** [fetch_data]: one GET, no retry; [requests] raises on a transport
    failure, and [raise_for_status] on a 4xx or 5xx status. *)
Definition fetch_data (u : string) : M S string :=
  let* o := requests_get u in
  match o with
  | HttpFailure => raise RequestException
  | HttpResponse r =>
      if ((400 <=? status r) && (status r <? 600))%Z
      then raise RequestException
      else ret (body r)
  end.

(** One turn of the loop of [fetch_data_with_retry], with [fuel] turns
    of [range(max_retries)] left; falling off the loop returns [None].
    [aiohttp]'s [raise_for_status] raises on every status from 400 up. *)
Fixpoint fetch_retry_loop (u : string) (max_retries : Z) (fuel : nat)
    (attempt : Z) : M S (option string) :=
  match fuel with
  | O => ret None
  | Datatypes.S fuel' =>
      try_except
        (let* o := session_get u in
         match o with
         | HttpFailure => raise ClientError
         | HttpResponse r =>
             if (400 <=? status r)%Z then raise ClientError
             else ret (Some (body r))
         end)
        (fun _ => true)
        (fun e =>
           if (attempt =? max_retries - 1)%Z then raise e
           else
             sleep (RETRY_DELAY * 2 ^ attempt) ;;;
             fetch_retry_loop u max_retries fuel' (attempt + 1)%Z)
  end.

Definition fetch_data_with_retry (u : string) (max_retries : nat)
    : M S (option string) :=
  fetch_retry_loop u (Z.of_nat max_retries) max_retries 0.

(** *** download_image *)

(** [url.split('/')[-1].split('.')[0]] *)
Definition image_filename (u : string) : string :=
  hd "" (split_char "."%char (List.last (split_char "/"%char u) "")).

(** Where an image goes: the folder and the public id, or the
    [ValueError] of the last branch. *)
Definition upload_target (u comic_slug : string) (chapter : option string)
    (is_cover : bool) : option (string * string) :=
  if is_cover then Some (comic_slug, "cover")
  else
    match chapter with
    | Some (String c t) =>
        Some (comic_slug +:+ "/chapter-" +:+ String c t, image_filename u)
    | _ => None
    end.

(** One turn of [for attempt in range(retries)], with [fuel] turns left.
    The 429 branch sleeps and [continue]s, which moves on to the next
    turn of this same loop; falling off the loop returns [None]. *)
Fixpoint download_loop (u comic_slug : string) (chapter : option string)
    (is_cover : bool) (retries : Z) (fuel : nat) (attempt : Z)
    : M S (option string) :=
  match fuel with
  | O => ret None
  | Datatypes.S fuel' =>
      let continue :=
        download_loop u comic_slug chapter is_cover retries fuel'
          (attempt + 1)%Z in
      let* o := session_get u in
      let on_client_error :=
        if (attempt =? retries - 1)%Z then raise ClientError
        else sleep (2 ^ attempt) ;;; continue in
      match o with
      | HttpFailure => on_client_error
      | HttpResponse r =>
          if (status r =? 429)%Z then
            match headers r !! "Retry-After" with
            | None => sleep 60 ;;; continue
            | Some v =>
                match py_int v with
                | Some wait_time => sleep wait_time ;;; continue
                | None => raise ValueError
                end
            end
          else if (400 <=? status r)%Z then on_client_error
          else
            match upload_target u comic_slug chapter is_cover with
            | None => raise ValueError
            | Some (folder, filename) =>
                let* result := upload_image (body r) folder filename in
                match result with
                | Some secure_url => ret (Some secure_url)
                | None => ret (Some "")
                end
            end
      end
  end.

(** The decorator [rate_limited(min_delay, max_delay)]. *)
Definition rate_limited {A} (min_delay max_delay : Z) (func : M S A)
    : M S A :=
  emit (EvSleepUniform min_delay max_delay) ;;; func.

(** [download_image], decorated; [None] is Python's [None], returned
    when the loop runs out. *)
Definition download_image (u comic_slug : string) (chapter : option string)
    (is_cover : bool) (retries : nat) : M S (option string) :=
  rate_limited 2 5
    (download_loop u comic_slug chapter is_cover (Z.of_nat retries)
       retries 0).

(** Truthiness of what [download_image] returns. *)
Definition truthy_url (r : option string) : option string :=
  match r with
  | Some (String c t) => Some (String c t)
  | _ => None
  end.

(** *** handle_cover_image *)

Definition handle_cover_image (cover_image_url comic_slug : string)
    : M S (option string) :=
  let* present := file_exists comic_slug "cover" in
  if present then ret None
  else
    let* cloudinary_url :=
      download_image cover_image_url comic_slug None true 3 in
    ret (truthy_url cloudinary_url).

(** *** scrape_chapter_images *)

(** [[img['src'] for img in ...]]: [None] is the [KeyError] of an
    image without [src]. *)
Fixpoint image_sources (imgs : list (option string)) : option (list string) :=
  match imgs with
  | [] => Some []
  | None :: _ => None
  | Some src :: rest =>
      match image_sources rest with
      | Some l => Some (src :: l)
      | None => None
      end
  end.

Fixpoint download_chapter_images (images : list string)
    (comic_slug chapter_num : string) : M S (list string) :=
  match images with
  | [] => ret []
  | img_url :: rest =>
      let* cloudinary_url :=
        download_image img_url comic_slug (Some chapter_num) false 3 in
      let* urls := download_chapter_images rest comic_slug chapter_num in
      match truthy_url cloudinary_url with
      | Some cu => ret (cu :: urls)
      | None => ret urls
      end
  end.

(** The asset folder of a chapter, from the digits in its URL. *)
Definition chapter_folder (comic_slug chapter_num : string) : string :=
  comic_slug +:+ "/chapter-" +:+ chapter_num.

Definition scrape_chapter_images (u comic_slug : string)
    : M S (list string) :=
  try_except
    (match search_chapter_url u with
     | None => raise ValueError
     | Some chapter_num =>
         let* present :=
           folder_exists (chapter_folder comic_slug chapter_num) in
         if present then ret []
         else
           let* data := fetch_data u in
           match image_sources (select_images data) with
           | None => raise KeyError
           | Some images =>
               download_chapter_images images comic_slug chapter_num
           end
     end)
    (fun _ => true)
    (fun _ => ret []).

(** *** main: which chapters are dispatched *)

(** [[ch for ch in chapters
      if not start_chapter or ch['number'] >= start_chapter]] *)
Definition keeps_from (start_chapter : option pyfloat) (ch : chapter) : bool :=
  match start_chapter with
  | None => true
  | Some s => negb (float_truthy s) || float_ge (number ch) s
  end.

Definition from_start (start_chapter : option pyfloat)
    (chapters : list chapter) : list chapter :=
  List.filter (keeps_from start_chapter) chapters.

(** The folder [main] asks about: the chapter's float in an f-string. *)
Definition main_chapter_folder (title : string) (ch : chapter) : string :=
  title +:+ "/chapter-" +:+ repr_float (number ch).

(** [[chapter for chapter in chapters_to_scrape
      if not folder_exists(f"{title}/chapter-{chapter['number']}")]] *)
Fixpoint not_downloaded (title : string) (chapters : list chapter)
    : M S (list chapter) :=
  match chapters with
  | [] => ret []
  | ch :: rest =>
      let* present := folder_exists (main_chapter_folder title ch) in
      let* kept := not_downloaded title rest in
      ret (if present then kept else ch :: kept)
  end.

Definition chapters_to_scrape (title : string)
    (start_chapter : option pyfloat) (chapters : list chapter)
    : M S (list chapter) :=
  not_downloaded title (from_start start_chapter chapters).
End Pipeline.

(** An asset host for running the pipeline on examples: the public ids
    uploaded so far, newest first; a prefix query lists at most one of the
    ids that start with the prefix, and every upload succeeds. *)
Definition memory_store : Type := list string.

Definition memory_resources (ids : memory_store) (prefix : string)
    : api_result :=
  ApiDict (Some (take 1 (List.filter (String.prefix prefix) ids))).

Definition memory_upload (ids : memory_store) (data folder filename : string)
    : upload_result * memory_store :=
  let public_id := folder +:+ "/" +:+ filename in
  (UploadDict ("https://res.cloudinary.com/demo/" +:+ public_id),
   public_id :: ids).

#[export] Instance memory_assets : AssetStore memory_store := {
  api_resources := memory_resources;
  uploader_upload := memory_upload
}.

(** ** The comics table and save_comic_metadata *)

Module Comic.
(** A row of [comics]; [genres] is the JSON column. *)
Record row := Row {
  id : nat;
  title : string;
  author : string;
  type : string;
  status : string;
  release : string;
  updated_on : Z;
  genres : list string;
  synopsis : string;
  rating : string;
  cover_image_url : string;
  slug : string
}.

Definition touch (now : Z) (c : row) : row :=
  Row (id c) (title c) (author c) (type c) (status c) (release c) now
    (genres c) (synopsis c) (rating c) (cover_image_url c) (slug c).
End Comic.

(** The values of the [comic_meta] dict: strings, and the list of
    genres. *)
Inductive meta_value :=
| MStr (s : string)
| MList (l : list string).

(** [comic_meta[k]] read as a string; [None] is the exception raised when
    the key is missing or holds something else. *)
Definition meta_str (comic_meta : gmap string meta_value) (k : string)
    : option string :=
  match comic_meta !! k with
  | Some (MStr s) => Some s
  | _ => None
  end.

Definition meta_list (comic_meta : gmap string meta_value) (k : string)
    : option (list string) :=
  match comic_meta !! k with
  | Some (MList l) => Some l
  | _ => None
  end.

(** The primary key the table hands out. *)
Definition next_id (db : list Comic.row) : nat :=
  Datatypes.S (foldr Nat.max 0%nat (map Comic.id db)).

(** [Comic(title=comic_meta['title'], ..., slug=comic_slug)] *)
Definition new_comic (key : nat) (now : Z)
    (comic_meta : gmap string meta_value) (comic_slug : string)
    : option Comic.row :=
  t ← meta_str comic_meta "title";
  a ← meta_str comic_meta "author";
  ty ← meta_str comic_meta "type";
  st ← meta_str comic_meta "status";
  rel ← meta_str comic_meta "release";
  g ← meta_list comic_meta "genres";
  syn ← meta_str comic_meta "synopsis";
  rat ← meta_str comic_meta "rating";
  cov ← meta_str comic_meta "cover_image_url";
  Some (Comic.Row key t a ty st rel now g syn rat cov comic_slug).

(** [db.query(Comic).filter(Comic.slug == comic_slug).first()], with the
    position of the row. *)
Fixpoint first_by_slug (comic_slug : string) (db : list Comic.row)
    : option (nat * Comic.row) :=
  match db with
  | [] => None
  | c :: rest =>
      if String.eqb (Comic.slug c) comic_slug then Some (0%nat, c)
      else
        match first_by_slug comic_slug rest with
        | Some (i, r) => Some (Datatypes.S i, r)
        | None => None
        end
  end.

(** [save_comic_metadata]: the table after the call.  [now] is
    [datetime.now()]; [commit_ok] tells whether [db.commit()] goes
    through.  Any exception ends in [db.rollback()]: the table is left as
    it was. *)
Definition save_comic_metadata (now : Z) (commit_ok : bool)
    (comic_meta : gmap string meta_value) (comic_slug : string)
    (db : list Comic.row) : list Comic.row :=
  match first_by_slug comic_slug db with
  | None =>
      match new_comic (next_id db) now comic_meta comic_slug with
      | Some c => if commit_ok then db ++ [c] else db
      | None => db
      end
  | Some (i, existing_comic) =>
      if commit_ok then <[i := Comic.touch now existing_comic]> db else db
  end.

(** ** The scheduler: download_with_progress under the semaphore *)

(** The atomic steps of a task between two suspension points. *)
Inductive action :=
| Acquire               (* entering [async with semaphore] *)
| Act (e : event)       (* a step of [scrape_chapter_images] *)
| ProgressUpdate        (* [progress.update(1)] *)
| Release.              (* leaving [async with semaphore] *)

(** [download_with_progress] for a pipeline run that produces [pipeline];
    [completes] is false when the block is left by an exception, which
    skips the progress update but not the release. *)
Definition download_with_progress (pipeline : list event) (completes : bool)
    : list action :=
  Acquire :: map Act pipeline
  ++ (if completes then [ProgressUpdate; Release] else [Release]).

(** The semaphore's counter, what is left to run of every task, and the
    tasks that are inside their [async with] block. *)
Record sched := Sched {
  sem_value : nat;
  tasks : list (list action);
  holders : gset nat
}.

(** [asyncio.gather] over the tasks of [main], none started. *)
Definition dispatch (runs : list (list event * bool)) : sched :=
  Sched MAX_CONCURRENT_DOWNLOADS
    (map (fun r => download_with_progress (fst r) (snd r)) runs) ∅.

(** Task [i] runs its next step, if it can: acquiring needs a positive
    counter. *)
Definition step_task (i : nat) (s : sched) : option sched :=
  match tasks s !! i with
  | Some (Acquire :: rest) =>
      match sem_value s with
      | O => None
      | Datatypes.S v =>
          Some (Sched v (<[i := rest]> (tasks s)) ({[i]} ∪ holders s))
      end
  | Some (Release :: rest) =>
      Some (Sched (Datatypes.S (sem_value s)) (<[i := rest]> (tasks s))
              (holders s ∖ {[i]}))
  | Some (_ :: rest) =>
      Some (Sched (sem_value s) (<[i := rest]> (tasks s)) (holders s))
  | _ => None
  end.

Definition sched_step (s s' : sched) : Prop := ∃ i, step_task i s = Some s'.

(** The event loop following a schedule, a list of task numbers; a task
    that cannot move is passed over. *)
Fixpoint run_schedule (schedule : list nat) (s : sched) : sched :=
  match schedule with
  | [] => s
  | i :: rest =>
      match step_task i s with
      | Some s' => run_schedule rest s'
      | None => run_schedule rest s
      end
  end.


(** ** Vocabulary of the statements, and example inputs *)

(** Ascending by number. *)
Definition number_le (c d : chapter) : Prop :=
  float_le (number c) (number d) = true.

(** The text holds [Chapter ] followed by a digit somewhere: what the
    chapter pattern looks for. *)
Definition contains_chapter (t : string) : Prop :=
  exists pre d rest,
    t = pre +:+ "Chapter " +:+ String d rest /\ is_digit d = true.

(** The chapters of the links that match, in page order. *)
Definition matching_chapters (links : list link) : list chapter :=
  flat_map (fun item =>
              match chapter_of_link item with
              | Some (Some c) => [c]
              | _ => []
              end) links.

(** A GET that makes [raise_for_status] or the transport raise. *)
Definition fails (o : http_outcome) : bool :=
  match o with
  | HttpFailure => true
  | HttpResponse r => (400 <=? status r)%Z
  end.

(** [k] failed attempts from attempt number [attempt] on, each followed
    by its back-off sleep. *)
Fixpoint backoff_events (u : string) (attempt : Z) (k : nat) : list event :=
  match k with
  | O => []
  | Datatypes.S k' =>
      EvSessionGet u :: EvSleep (RETRY_DELAY * 2 ^ attempt)
      :: backoff_events u (attempt + 1) k'
  end.

(** The world after [n] more GETs. *)
Definition advance {S} (n : nat) (w : world S) : world S :=
  World (store w) (n + clock w).

(** A GET that makes [requests] raise: a transport failure, or a 4xx or
    5xx status at [raise_for_status]. *)
Definition fails_requests (o : http_outcome) : bool :=
  match o with
  | HttpFailure => true
  | HttpResponse r => ((400 <=? status r) && (status r <? 600))%Z
  end.

(** A site whose first answer is a failure and whose later answers are
    pages with one image. *)
Definition fails_once (n : nat) (u : string) : http_outcome :=
  match n with
  | O => HttpFailure
  | _ => HttpResponse (Response 200 ∅ "<html>")
  end.

(** [int(response.headers.get('Retry-After', 60))]; [None] when [int]
    raises. *)
Definition retry_after (r : response) : option Z :=
  match headers r !! "Retry-After" with
  | None => Some 60%Z
  | Some v => py_int v
  end.

(** The answers from GET number [c] on are 429s asking to wait [waits]. *)
Fixpoint throttled (net : nat -> string -> http_outcome) (u : string)
    (c : nat) (waits : list Z) : Prop :=
  match waits with
  | [] => True
  | t :: ts =>
      (exists r, net c u = HttpResponse r
                 /\ status r = 429%Z /\ retry_after r = Some t)
      /\ throttled net u (Datatypes.S c) ts
  end.

Definition rate_limit_events (u : string) (waits : list Z) : list event :=
  flat_map (fun t => [EvSessionGet u; EvSleep t]) waits.

(** A server that answers 429 three times, asking for 5 seconds, for the
    default, then for 7, and would then serve the image. *)
Definition throttles_thrice (n : nat) (u : string) : http_outcome :=
  match n with
  | 0%nat => HttpResponse (Response 429 {["Retry-After" := "5"]} "")
  | 1%nat => HttpResponse (Response 429 ∅ "")
  | 2%nat => HttpResponse (Response 429 {["Retry-After" := "7"]} "")
  | _ => HttpResponse (Response 200 ∅ "image bytes")
  end.

(** The site serves the cover; the asset host is the in-memory one. *)
Definition serves_cover (n : nat) (u : string) : http_outcome :=
  HttpResponse (Response 200 ∅ "cover bytes").

(** Two rows that agree on every column but [updated_on]. *)
Definition same_but_updated_on (c0 c : Comic.row) : Prop :=
  Comic.id c = Comic.id c0
  /\ Comic.title c = Comic.title c0
  /\ Comic.author c = Comic.author c0
  /\ Comic.type c = Comic.type c0
  /\ Comic.status c = Comic.status c0
  /\ Comic.release c = Comic.release c0
  /\ Comic.genres c = Comic.genres c0
  /\ Comic.synopsis c = Comic.synopsis c0
  /\ Comic.rating c = Comic.rating c0
  /\ Comic.cover_image_url c = Comic.cover_image_url c0
  /\ Comic.slug c = Comic.slug c0.

(** The dict [scrape_comic_meta] hands to [main] for a comic whose cover
    was just uploaded. *)
Definition solo_meta : gmap string meta_value :=
  <["title" := MStr "Solo"]>
  (<["author" := MStr "Chugong"]>
  (<["type" := MStr "manhwa"]>
  (<["status" := MStr "completed"]>
  (<["release" := MStr "2018"]>
  (<["genres" := MList ["Action"; "Fantasy"]]>
  (<["synopsis" := MStr "Hunters and gates."]>
  (<["rating" := MStr "9.1"]>
  (<["cover_image_url" := MStr "https://res.cloudinary.com/demo/solo/cover"]>
  (<["slug" := MStr "solo"]> ∅))))))))).

Definition other_row : Comic.row :=
  Comic.Row 1 "Tower" "SIU" "manhwa" "ongoing" "2010" 100 ["Action"]
    "A tower." "8.9" "https://res.cloudinary.com/demo/tower/cover" "tower".

Definition solo_row (updated : Z) : Comic.row :=
  Comic.Row 2 "Solo" "Chugong" "manhwa" "completed" "2018" updated
    ["Action"; "Fantasy"] "Hunters and gates." "9.1"
    "https://res.cloudinary.com/demo/solo/cover" "solo".

(** What is left of a task that is inside its [async with] block: steps
    of the pipeline and the progress update, then the release. *)
Definition inside_block (prog : list action) : Prop :=
  exists acts,
    prog = acts ++ [Release]
    /\ Forall (fun a => a <> Acquire /\ a <> Release) acts.

(** A task is outside the block when it has not started or has finished,
    and inside it otherwise. *)
Definition task_ok (hs : gset nat) (i : nat) (prog : list action) : Prop :=
  ((i ∉ hs) /\ (prog = [] \/ exists p b, prog = download_with_progress p b))
  \/ ((i ∈ hs) /\ inside_block prog).

Definition sched_inv (s : sched) : Prop :=
  sem_value s + size (holders s) = MAX_CONCURRENT_DOWNLOADS
  /\ (forall i prog, tasks s !! i = Some prog -> task_ok (holders s) i prog)
  /\ (forall i, i ∈ holders s -> exists prog, tasks s !! i = Some prog).

(** Five chapters dispatched; tasks 0 to 3 are each given a turn. *)
Definition five_runs : list (list event * bool) :=
  repeat ([EvResources "solo/chapter-1"; EvRequestsGet "https://k/c1"], true) 5.

(** ** The rest of the scraper *)

(** *** sanitize_filename and the string clean-up of the metadata *)

(** The character class of [sanitize_filename], by character codes: the
    angle brackets, the colon, the double quote, the slash, the
    backslash, the bar, the question mark and the star. *)
Definition is_forbidden (c : ascii) : bool :=
  let n := nat_of_ascii c in
  (n =? 60)%nat || (n =? 62)%nat || (n =? 58)%nat || (n =? 34)%nat
  || (n =? 47)%nat || (n =? 92)%nat || (n =? 124)%nat || (n =? 63)%nat
  || (n =? 42)%nat.

(** [re.sub] of a character class by the empty string. *)
Fixpoint remove_chars (p : ascii -> bool) (s : string) : string :=
  match s with
  | EmptyString => EmptyString
  | String c t => if p c then remove_chars p t else String c (remove_chars p t)
  end.

(** [sanitize_filename]; [unicodedata.normalize('NFKD', ...)] leaves
    ASCII text as it is. *)
Definition sanitize_filename (filename : string) : string :=
  strip (remove_chars is_forbidden filename).

Definition lower_char (c : ascii) : ascii :=
  let n := nat_of_ascii c in
  if ((65 <=? n) && (n <=? 90))%nat then ascii_of_nat (n + 32) else c.

(** [s.lower()] *)
Fixpoint lower (s : string) : string :=
  match s with
  | EmptyString => EmptyString
  | String c t => String (lower_char c) (lower t)
  end.

(** [s.replace(old, '')] for a non-empty [old], scanning left to right:
    [skip] counts the characters of an occurrence still to be dropped. *)
Fixpoint remove_sub_from (old : string) (skip : nat) (s : string) : string :=
  match s with
  | EmptyString => EmptyString
  | String c t =>
      match skip with
      | Datatypes.S k => remove_sub_from old k t
      | O =>
          match strip_prefix old s with
          | Some _ => remove_sub_from old (String.length old - 1) t
          | None => String c (remove_sub_from old 0 t)
          end
      end
  end.

Definition remove_sub (old s : string) : string :=
  match old with
  | EmptyString => s
  | _ => remove_sub_from old 0 s
  end.

(** [re.sub(r'\s+Bahasa Indonesia$', '', s, flags=re.IGNORECASE)]: the cut
    is at the first blank from which only blanks and then the words, in
    any case, lead to the end ([$] also matches before a last newline,
    which then stays). *)
Fixpoint sub_bahasa (s : string) : string :=
  match s with
  | EmptyString => EmptyString
  | String c t =>
      if is_space c
      then
        let r := lower (lstrip s) in
        if String.eqb r "bahasa indonesia" then EmptyString
        else if String.eqb r ("bahasa indonesia" +:+ String newline "")
        then String newline ""
        else String c (sub_bahasa t)
      else String c (sub_bahasa t)
  end.

(** [safe_select], on the element the selector finds, if any: its text
    stripped, or the default. *)
Definition safe_select (element : option string) (default : string) : string :=
  match element with
  | Some t => strip t
  | None => default
  end.

(** *** The comic page *)

(** What the selectors of [extract_comic_meta], [scrape_comic_meta] and
    [get_chapter_list] find in a comic page: the text of the first match
    of each [select_one], the texts of the genre links ([None] when the
    selection itself raises), the cover [<img>] with its [src], and the
    chapter links. *)
Record comic_page := ComicPage {
  title_el : option string;
  author_el : option string;
  type_el : option string;
  status_el : option string;
  release_el : option string;
  genre_els : option (list string);
  synopsis_el : option string;
  rating_el : option string;
  thumbnail : option (option string);
  chapter_links : list link
}.

(** [extract_comic_meta]: the dict of eight fields, or [{}] after an
    exception. *)
Definition extract_comic_meta (soup : comic_page) : gmap string meta_value :=
  match genre_els soup with
  | None => ∅
  | Some gs =>
      <["title" :=
          MStr (sub_bahasa (sanitize_filename (safe_select (title_el soup) "N/A")))]>
      (<["author" :=
          MStr (strip (remove_sub "Author:" (safe_select (author_el soup) "N/A")))]>
      (<["type" := MStr (lower (safe_select (type_el soup) "N/A"))]>
      (<["status" :=
          MStr (lower (strip (remove_sub "Status:"
                                (safe_select (status_el soup) "N/A"))))]>
      (<["release" :=
          MStr (strip (remove_sub "Released:"
                         (safe_select (release_el soup) "N/A")))]>
      (<["genres" := MList (map strip gs)]>
      (<["synopsis" := MStr (safe_select (synopsis_el soup) "N/A")]>
      (<["rating" :=
          MStr (strip (remove_sub "Rating "
                         (safe_select (rating_el soup) "N/A")))]> ∅)))))))
  end.

(** The keys [main] prints, with the shapes it needs: a missing one is a
    [KeyError]. *)
Definition printable (comic_meta : gmap string meta_value) : bool :=
  match meta_str comic_meta "title", meta_str comic_meta "author",
        meta_str comic_meta "type", meta_str comic_meta "status",
        meta_str comic_meta "rating", meta_list comic_meta "genres",
        meta_str comic_meta "synopsis" with
  | Some _, Some _, Some _, Some _, Some _, Some _, Some _ => true
  | _, _, _, _, _, _, _ => false
  end.

(** What the prompt for the starting chapter gives: nothing typed, a
    number [float] reads, or text on which [float] raises. *)
Inductive start_input :=
| NoStart
| Start (x : pyfloat)
| BadStart.

Section Orchestrator.
Context {S : Type} `{AssetStore S}.
Variable net : nat -> string -> http_outcome.

(** BeautifulSoup and the selectors, on the text of a comic page. *)
Variable parse_comic : string -> comic_page.

(** [scrape_comic_meta]: the dict, or [None] after any exception (a
    missing cover [<img>] or [src] among them). *)
Definition scrape_comic_meta (u title : string)
    : M S (option (gmap string meta_value)) :=
  try_except
    (let* data := fetch_data net u in
     let soup := parse_comic data in
     let comic_meta := extract_comic_meta soup in
     match thumbnail soup with
     | Some (Some cover_image_url) =>
         let* cover_cloudinary_url :=
           handle_cover_image net cover_image_url title in
         let comic_meta :=
           match cover_cloudinary_url with
           | Some cu => <["cover_image_url" := MStr cu]> comic_meta
           | None => comic_meta
           end in
         ret (Some (<["slug" := MStr title]> comic_meta))
     | _ => raise KeyError
     end)
    (fun _ => true)
    (fun _ => ret None).

(** [main] up to the dispatch: the comics table after the run and the
    chapters handed to [asyncio.gather] (none when [main] returns early
    or logs an exception).  [comic_url] is [urljoin(base_url,
    f'komik/{title}/')], [answer] what the prompt gives, [now] and
    [commit_ok] as in [save_comic_metadata].  A fetcher that hands back
    [None], which three attempts never do, makes BeautifulSoup raise. *)
Definition main (now : Z) (commit_ok : bool) (comic_url title : string)
    (answer : start_input) (db : list Comic.row)
    : M S (list Comic.row * list chapter) :=
  try_except
    (let* data := fetch_data_with_retry net comic_url MAX_RETRIES in
     match data with
     | None => raise ValueError
     | Some data =>
         let soup := parse_comic data in
         let* comic_meta := scrape_comic_meta comic_url title in
         match comic_meta with
         | None => ret (db, [])
         | Some comic_meta =>
             if negb (printable comic_meta) then raise KeyError
             else
               match get_chapter_list (chapter_links soup) with
               | [] => ret (db, [])
               | chapters =>
                   match answer with
                   | BadStart => raise ValueError
                   | _ =>
                       let start_chapter :=
                         match answer with
                         | Start x => Some x
                         | _ => None
                         end in
                       let db' :=
                         save_comic_metadata now commit_ok comic_meta title
                           db in
                       let* to_scrape :=
                         chapters_to_scrape title start_chapter chapters in
                       ret (db', to_scrape)
                   end
               end
         end
     end)
    (fun _ => true)
    (fun _ => ret (db, [])).
End Orchestrator.

(** ** Vocabulary of the further statements *)

(** Every character of [s] passes [p]. *)
Fixpoint all_chars (p : ascii -> bool) (s : string) : bool :=
  match s with
  | EmptyString => true
  | String c t => p c && all_chars p t
  end.

Definition is_not (a : ascii) (c : ascii) : bool := negb (Ascii.eqb c a).

(** [s] does not begin with a digit. *)
Definition no_digit_ahead (s : string) : Prop :=
  match s with
  | String c _ => is_digit c = false
  | EmptyString => True
  end.

(** Two floats with the same value. *)
Definition float_eqb (a b : pyfloat) : bool := float_le a b && float_le b a.

Definition is_uniform (e : event) : bool :=
  match e with EvSleepUniform _ _ => true | _ => false end.

(** A GET that makes the download path take its [except
    aiohttp.ClientError] branch: a transport failure, or a status from 400
    up other than 429. *)
Definition fails_download (o : http_outcome) : bool :=
  match o with
  | HttpFailure => true
  | HttpResponse r => ((400 <=? status r) && negb (status r =? 429))%Z
  end.

(** [k] failed download attempts from attempt number [attempt] on, each
    followed by its back-off sleep. *)
Fixpoint download_backoff (u : string) (attempt : Z) (k : nat) : list event :=
  match k with
  | O => []
  | Datatypes.S k' =>
      EvSessionGet u :: EvSleep (2 ^ attempt)
      :: download_backoff u (attempt + 1) k'
  end.

(** The seconds slept for sure, the random delays left out. *)
Fixpoint total_sleep (t : list event) : Z :=
  match t with
  | [] => 0
  | EvSleep n :: t' => n + total_sleep t'
  | _ :: t' => total_sleep t'
  end.

(** The list a computation hands back, empty when it raises. *)
Definition returned {A} (o : outcome (list A)) : list A :=
  match o with
  | Ok l => l
  | Raise _ => []
  end.

(** The keys [save_comic_metadata] reads from the dict for a new row. *)
Definition required_keys : list string :=
  ["title"; "author"; "type"; "status"; "release"; "genres"; "synopsis";
   "rating"; "cover_image_url"].


(** The chapters a run of [main] hands to the scheduler. *)
Definition dispatched (o : outcome (list Comic.row * list chapter))
    : list chapter :=
  match o with
  | Ok (_, l) => l
  | Raise _ => []
  end.

(** The comics table a run of [main] leaves, given the one it found. *)
Definition table_after (db : list Comic.row)
    (o : outcome (list Comic.row * list chapter)) : list Comic.row :=
  match o with
  | Ok (db', _) => db'
  | Raise _ => db
  end.

(** The start value [main] filters with. *)
Definition start_of (answer : start_input) : option pyfloat :=
  match answer with
  | Start x => Some x
  | _ => None
  end.

(** A comic page with three chapters, for running [main]. *)
Definition solo_page : comic_page :=
  ComicPage (Some "Solo Leveling Bahasa Indonesia") (Some "Author: Chugong")
    (Some "Manhwa") (Some "Status: Completed") (Some "Released: 2018")
    (Some ["Action"; "Fantasy"]) (Some "Hunters and gates.")
    (Some "Rating 9.1") (Some (Some "https://k/cover.jpg"))
    [Link "Chapter 3" (Some "https://k/solo-chapter-3/");
     Link "Chapter 2" (Some "https://k/solo-chapter-2/");
     Link "Chapter 1" (Some "https://k/solo-chapter-1/")].

(** A site that serves every page and image. *)
Definition serves_all (n : nat) (u : string) : http_outcome :=
  HttpResponse (Response 200 ∅ "<html>").

(** * Properties *)

(** ** Strings and digits *)

#[local] Arguments String.append !s1 s2 /.

Lemma append_inv_head (p a b : string) : p +:+ a = p +:+ b -> a = b.
Proof.
  induction p as [|c p IH]; simpl; [tauto|].
  intros Heq. injection Heq as Heq. auto.
Qed.

Lemma append_assoc (a b c : string) : (a +:+ b) +:+ c = a +:+ (b +:+ c).
Proof. induction a as [|x a IH]; simpl; [reflexivity|]. now rewrite IH. Qed.

Lemma all_digits_app (a b : string) :
  all_digits (a +:+ b) = all_digits a && all_digits b.
Proof.
  induction a as [|c a IH]; simpl; [reflexivity|].
  rewrite IH. now rewrite andb_assoc.
Qed.

Lemma span_digits_all (s : string) : all_digits (fst (span_digits s)) = true.
Proof.
  induction s as [|c t IH]; simpl; [reflexivity|].
  destruct (is_digit c) eqn:Hc; [|reflexivity].
  destruct (span_digits t) as [d r]. simpl in *. now rewrite Hc.
Qed.

Lemma span_digits_app (s : string) :
  fst (span_digits s) +:+ snd (span_digits s) = s.
Proof.
  induction s as [|c t IH]; simpl; [reflexivity|].
  destruct (is_digit c); [|reflexivity].
  destruct (span_digits t) as [d r]. simpl in *. now rewrite IH.
Qed.

(** A run of digits followed by something that is not a digit is split
    right there. *)
Lemma span_digits_run (d r : string) :
  all_digits d = true ->
  (match r with String c _ => is_digit c = false | EmptyString => True end) ->
  span_digits (d +:+ r) = (d, r).
Proof.
  intros Hd Hr. induction d as [|c d IH]; simpl in *.
  - destruct r as [|c r]; [reflexivity|]. simpl. now rewrite Hr.
  - apply andb_true_iff in Hd as [Hc Hd]. rewrite Hc, (IH Hd). reflexivity.
Qed.

Lemma append_empty_r (s : string) : s +:+ "" = s.
Proof. induction s as [|c s IH]; simpl; [reflexivity|]. now rewrite IH. Qed.

Lemma re_search_some {A} (m : string -> option A) (s : string) (r : A) :
  re_search m s = Some r -> exists pre post, s = pre +:+ post /\ m post = Some r.
Proof.
  induction s as [|c t IH]; simpl.
  - destruct (m "") eqn:Hm; [|discriminate].
    intros [= ->]. now exists "", "".
  - destruct (m (String c t)) eqn:Hm.
    + intros [= ->]. now exists "", (String c t).
    + intros Hs. destruct (IH Hs) as (pre & post & -> & Hp).
      now exists (String c pre), post.
Qed.

Lemma re_search_none {A} (m : string -> option A) (pre post : string) :
  re_search m (pre +:+ post) = None -> m post = None.
Proof.
  induction pre as [|c pre IH]; simpl.
  - destruct post as [|c t]; simpl; destruct (m _); congruence.
  - destruct (m (String c (pre +:+ post))); [discriminate|]. exact IH.
Qed.


Lemma strip_prefix_app (p s : string) : strip_prefix p (p +:+ s) = Some s.
Proof.
  induction p as [|c p IH]; simpl; [now destruct s|].
  now rewrite Ascii.eqb_refl.
Qed.

Lemma strip_prefix_some (p s r : string) :
  strip_prefix p s = Some r -> s = p +:+ r.
Proof.
  revert s. induction p as [|c p IH]; intros s; simpl.
  - destruct s; now intros [= ->].
  - destruct s as [|b s]; [discriminate|].
    destruct (Ascii.eqb c b) eqn:Hcb; [|discriminate].
    apply Ascii.eqb_eq in Hcb as ->. intros Hs. now rewrite (IH _ Hs).
Qed.

Lemma match_digits_some (s d : string) :
  match_digits s = Some d -> all_digits d = true /\ d <> "".
Proof.
  unfold match_digits. pose proof (span_digits_all s) as Hall.
  destruct (span_digits s) as [n r]. simpl in Hall.
  destruct n; [discriminate|]. intros [= <-]. split; [exact Hall|discriminate].
Qed.

(** Group 1 of [chapter-(\d+)] is a non-empty run of digits. *)
Lemma search_chapter_url_digits (u d : string) :
  search_chapter_url u = Some d -> all_digits d = true /\ d <> "".
Proof.
  unfold search_chapter_url. intros Hs.
  apply re_search_some in Hs as (pre & post & _ & Hm).
  unfold match_lit_then in Hm.
  destruct (strip_prefix "chapter-" post); [|discriminate].
  now apply match_digits_some in Hm.
Qed.

Lemma digit_val_nonneg (c : ascii) : is_digit c = true -> (0 <= digit_val c <= 9)%Z.
Proof.
  unfold is_digit, digit_val. intros Hc.
  apply andb_true_iff in Hc as [H1 H2].
  apply Nat.leb_le in H1, H2. lia.
Qed.

Lemma digits_val_acc_nonneg (s : string) (acc : Z) :
  all_digits s = true -> (0 <= acc)%Z -> (0 <= digits_val_acc acc s)%Z.
Proof.
  revert acc. induction s as [|c s IH]; intros acc Hs Hacc; simpl in *; [lia|].
  apply andb_true_iff in Hs as [Hc Hs].
  apply IH; [exact Hs|]. pose proof (digit_val_nonneg c Hc). lia.
Qed.

Lemma digits_val_acc_app (a b : string) (acc : Z) :
  digits_val_acc acc (a +:+ b) = digits_val_acc (digits_val_acc acc a) b.
Proof. revert acc. induction a as [|c a IH]; intros acc; simpl; auto. Qed.

Lemma digits_val_acc_shift (s : string) (acc : Z) :
  digits_val_acc acc s = (acc * pow10 (String.length s) + digits_val s)%Z.
Proof.
  unfold digits_val. revert acc.
  induction s as [|c s IH]; intros acc; simpl.
  - unfold pow10. simpl. lia.
  - rewrite (IH (10 * acc + digit_val c)%Z), (IH (10 * 0 + digit_val c)%Z).
    unfold pow10. rewrite Nat2Z.inj_succ, Z.pow_succ_r by lia. lia.
Qed.

(** The digits [N] followed by the digits [M] read as [N * 10^|M| + M]. *)
Lemma digits_val_app (n m : string) :
  digits_val (n +:+ m)
  = (digits_val n * pow10 (String.length m) + digits_val m)%Z.
Proof.
  unfold digits_val at 1. rewrite digits_val_acc_app.
  now rewrite digits_val_acc_shift.
Qed.

Lemma pow10_pos (n : nat) : (0 < pow10 n)%Z.
Proof. unfold pow10. apply Z.pow_pos_nonneg; lia. Qed.

(** ** The order on chapter numbers *)

Lemma float_le_total (a b : pyfloat) : float_le a b = false -> float_le b a = true.
Proof.
  unfold float_le. intros Hab.
  apply Z.leb_gt in Hab. apply Z.leb_le. lia.
Qed.

Lemma float_le_trans (a b c : pyfloat) :
  float_le a b = true -> float_le b c = true -> float_le a c = true.
Proof.
  unfold float_le. intros Hab Hbc.
  apply Z.leb_le in Hab, Hbc. apply Z.leb_le.
  pose proof (pow10_pos (scale a)) as Ha.
  pose proof (pow10_pos (scale b)) as Hb.
  pose proof (pow10_pos (scale c)) as Hc.
  apply Z.mul_le_mono_pos_r with (p := pow10 (scale b)); [exact Hb|].
  apply Z.le_trans with (m := (mant b * pow10 (scale a) * pow10 (scale c))%Z).
  - replace (mant a * pow10 (scale c) * pow10 (scale b))%Z
      with (mant a * pow10 (scale b) * pow10 (scale c))%Z by ring.
    apply Z.mul_le_mono_nonneg_r; lia.
  - replace (mant b * pow10 (scale a) * pow10 (scale c))%Z
      with (mant b * pow10 (scale c) * pow10 (scale a))%Z by ring.
    replace (mant c * pow10 (scale a) * pow10 (scale b))%Z
      with (mant c * pow10 (scale b) * pow10 (scale a))%Z by ring.
    apply Z.mul_le_mono_nonneg_r; lia.
Qed.

Lemma insert_by_number_perm (c : chapter) (l : list chapter) :
  Permutation (insert_by_number c l) (c :: l).
Proof.
  induction l as [|d t IH]; simpl; [reflexivity|].
  destruct (float_le (number c) (number d)); [reflexivity|].
  rewrite IH. apply perm_swap.
Qed.

Lemma sorted_by_number_perm (l : list chapter) :
  Permutation (sorted_by_number l) l.
Proof.
  induction l as [|c t IH]; simpl; [reflexivity|].
  rewrite insert_by_number_perm. now rewrite IH.
Qed.

Lemma insert_by_number_sorted (c : chapter) (l : list chapter) :
  StronglySorted number_le l -> StronglySorted number_le (insert_by_number c l).
Proof.
  induction 1 as [|d t Hs IH Hd]; simpl.
  - repeat constructor.
  - destruct (float_le (number c) (number d)) eqn:Hcd.
    + constructor; [now constructor|].
      constructor; [exact Hcd|].
      eapply Forall_impl; [exact Hd|].
      intros e Hde. unfold number_le in *. eapply float_le_trans; eassumption.
    + constructor; [exact IH|].
      apply (Permutation_Forall (Permutation_sym (insert_by_number_perm c t))).
      constructor; [|exact Hd].
      now apply float_le_total.
Qed.

Lemma sorted_by_number_sorted (l : list chapter) :
  StronglySorted number_le (sorted_by_number l).
Proof.
  induction l as [|c t IH]; simpl; [constructor|].
  now apply insert_by_number_sorted.
Qed.

(** ** The chapter pattern *)







Lemma span_digits_only (d : string) : all_digits d = true -> span_digits d = (d, "").
Proof.
  intros Hd. rewrite <- (append_empty_r d) at 1.
  now apply span_digits_run.
Qed.

Lemma span_digits_dot (n m : string) :
  all_digits n = true -> span_digits (n +:+ String "."%char m) = (n, String "."%char m).
Proof. intros Hn. now apply span_digits_run. Qed.



Lemma py_float_int (n : string) :
  all_digits n = true -> n <> "" -> py_float n = Some (PyFloat (digits_val n) 0).
Proof.
  intros Hn Hne. unfold py_float. rewrite span_digits_only by assumption.
  destruct n; [congruence|reflexivity].
Qed.

Lemma py_float_frac (n m : string) :
  all_digits n = true -> n <> "" -> all_digits m = true ->
  py_float (n +:+ "." +:+ m)
  = Some (PyFloat (digits_val n * pow10 (String.length m) + digits_val m)
            (String.length m)).
Proof.
  intros Hn Hne Hm. unfold py_float.
  change (n +:+ "." +:+ m) with (n +:+ String "."%char m).
  rewrite span_digits_dot by assumption.
  destruct n; [congruence|]. rewrite Hm. now rewrite digits_val_app.
Qed.

(** [float] of a group of the chapter pattern is never negative. *)
Lemma py_float_nonneg (g : string) (x : pyfloat) :
  py_float g = Some x -> (0 <= mant x)%Z.
Proof.
  unfold py_float. pose proof (span_digits_all g) as Hall.
  destruct (span_digits g) as [n r]. simpl in Hall.
  destruct n as [|c n]; [discriminate|].
  destruct r as [|d m].
  - intros [= <-]. simpl mant. now apply digits_val_acc_nonneg.
  - destruct (Ascii.eqb d "."%char) eqn:Hd.
    + apply Ascii.eqb_eq in Hd as ->.
      destruct (all_digits m) eqn:Hm; [|discriminate].
      intros [= <-]. cbn [mant]. unfold digits_val.
      apply digits_val_acc_nonneg; [|lia].
      change (all_digits (String c n +:+ m) = true).
      rewrite all_digits_app. now rewrite Hall, Hm.
    + apply Ascii.eqb_neq in Hd.
      destruct d as [[] [] [] [] [] [] [] []]; try discriminate.
      congruence.
Qed.

Lemma match_number_float (s g : string) :
  match_number s = Some g -> exists x, py_float g = Some x.
Proof.
  unfold match_number. pose proof (span_digits_all s) as Hn.
  destruct (span_digits s) as [n r]. simpl in Hn.
  destruct n as [|c n]; [discriminate|].
  assert (Hne : String c n <> "") by discriminate.
  destruct r as [|d r'].
  { intros [= <-]. eexists. now apply py_float_int. }
  destruct (Ascii.eqb d "."%char) eqn:Hd.
  - apply Ascii.eqb_eq in Hd as ->.
    pose proof (span_digits_all r') as Hm.
    destruct (span_digits r') as [m r'']. simpl in Hm.
    destruct m as [|e m].
    + intros [= <-]. eexists. now apply py_float_int.
    + intros [= <-]. eexists.
      now apply (py_float_frac (String c n) (String e m)).
  - apply Ascii.eqb_neq in Hd.
    destruct d as [[] [] [] [] [] [] [] []];
      try (intros [= <-]; eexists; now apply py_float_int).
    congruence.
Qed.

Lemma match_number_head (s : string) :
  match_number s <> None <->
  exists d rest, s = String d rest /\ is_digit d = true.
Proof.
  unfold match_number. destruct s as [|c t]; simpl.
  - split; [congruence|]. intros (d & rest & [=] & _).
  - destruct (is_digit c) eqn:Hc.
    + destruct (span_digits t) as [n r]. split.
      * intros _. now exists c, t.
      * intros _. destruct r as [|x r']; [discriminate|].
        destruct x as [[] [] [] [] [] [] [] []]; try discriminate.
        destruct (span_digits r') as [[|y m] r'']; discriminate.
    + split; [congruence|]. intros (d & rest & [= <- <-] & Hd). congruence.
Qed.

(** The search finds the pattern exactly in the texts that hold
    [Chapter ] followed by a digit. *)
Lemma search_chapter_text_spec (t : string) :
  search_chapter_text t <> None <-> contains_chapter t.
Proof.
  unfold search_chapter_text, contains_chapter. split.
  - destruct (re_search _ t) as [g|] eqn:Hs; [|congruence]. intros _.
    apply re_search_some in Hs as (pre & post & -> & Hm).
    unfold match_lit_then in Hm.
    destruct (strip_prefix "Chapter " post) as [r|] eqn:Hp; [|discriminate].
    apply strip_prefix_some in Hp as ->.
    assert (Hr : match_number r <> None) by congruence.
    apply match_number_head in Hr as (d & rest & -> & Hd).
    now exists pre, d, rest.
  - intros (pre & d & rest & -> & Hd) Hnone.
    apply re_search_none in Hnone. unfold match_lit_then in Hnone.
    rewrite strip_prefix_app in Hnone.
    apply (proj2 (match_number_head (String d rest))); [|exact Hnone].
    now exists d, rest.
Qed.

Lemma search_chapter_text_float (t g : string) :
  search_chapter_text t = Some g -> exists x, py_float g = Some x.
Proof.
  unfold search_chapter_text. intros Hs.
  apply re_search_some in Hs as (pre & post & _ & Hm).
  unfold match_lit_then in Hm.
  destruct (strip_prefix "Chapter " post); [|discriminate].
  now apply match_number_float in Hm.
Qed.

Lemma collect_chapters_matching (links : list link) (cs : list chapter) :
  collect_chapters links = Some cs -> cs = matching_chapters links.
Proof.
  revert cs. induction links as [|item rest IH]; intros cs; simpl.
  - now intros [= <-].
  - destruct (chapter_of_link item) as [[c|]|]; [| |discriminate].
    + destruct (collect_chapters rest) as [cs'|]; [|discriminate].
      intros [= <-]. simpl. now rewrite (IH cs').
    + intros Hc. simpl. now apply IH.
Qed.

Lemma collect_chapters_total (links : list link) :
  (forall item, In item links ->
     search_chapter_text (chapter_text item) <> None -> href item <> None) ->
  collect_chapters links = Some (matching_chapters links).
Proof.
  induction links as [|item rest IH]; intros Hh; [reflexivity|].
  assert (Hrest : collect_chapters rest = Some (matching_chapters rest)).
  { apply IH. intros i Hi. apply Hh. now right. }
  specialize (Hh item (or_introl eq_refl)).
  simpl. unfold chapter_of_link in *.
  destruct (search_chapter_text (chapter_text item)) as [g|] eqn:Hs.
  - destruct (search_chapter_text_float _ _ Hs) as [x ->].
    destruct (href item) as [h|]; [|now destruct Hh].
    now rewrite Hrest.
  - exact Hrest.
Qed.

Lemma matching_chapters_In (links : list link) (c : chapter) :
  In c (matching_chapters links) <->
  exists item, In item links /\ chapter_of_link item = Some (Some c).
Proof.
  unfold matching_chapters. rewrite in_flat_map. split.
  - intros (item & Hi & Hc). exists item. split; [exact Hi|].
    destruct (chapter_of_link item) as [[d|]|]; simpl in Hc; try tauto.
    destruct Hc as [->|[]]. reflexivity.
  - intros (item & Hi & Hc). exists item. split; [exact Hi|].
    rewrite Hc. now left.
Qed.

Lemma chapter_of_link_some (item : link) (c : chapter) :
  chapter_of_link item = Some (Some c) ->
  exists g, search_chapter_text (chapter_text item) = Some g
            /\ py_float g = Some (number c) /\ href item = Some (url c).
Proof.
  unfold chapter_of_link.
  destruct (search_chapter_text (chapter_text item)) as [g|]; [|discriminate].
  destruct (py_float g) as [x|] eqn:Hf; [|discriminate].
  destruct (href item) as [h|]; [|discriminate].
  intros [= <-]. now exists g.
Qed.

Lemma get_chapter_list_In (links : list link) (c : chapter) :
  In c (get_chapter_list links) ->
  exists item, In item links /\ chapter_of_link item = Some (Some c).
Proof.
  unfold get_chapter_list.
  destruct (collect_chapters links) as [cs|] eqn:Hc; [|intros []].
  intros Hin. apply matching_chapters_In.
  rewrite <- (collect_chapters_matching _ _ Hc).
  eapply Permutation_in; [apply sorted_by_number_perm|exact Hin].
Qed.

Lemma get_chapter_list_nonneg (links : list link) (c : chapter) :
  In c (get_chapter_list links) -> (0 <= mant (number c))%Z.
Proof.
  intros Hin. apply get_chapter_list_In in Hin as (item & _ & Hc).
  apply chapter_of_link_some in Hc as (g & _ & Hf & _).
  now apply py_float_nonneg in Hf.
Qed.



(** ** Folder keys *)

Lemma all_digits_app_false_r (a b : string) :
  all_digits b = false -> all_digits (a +:+ b) = false.
Proof. intros Hb. rewrite all_digits_app, Hb. apply andb_false_r. Qed.

(** What [repr] prints for a float is never a bare run of digits: there is
    a point or an exponent in it. *)
Lemma repr_float_not_digits (x : pyfloat) : all_digits (repr_float x) = false.
Proof.
  unfold repr_float.
  destruct (mant x =? 0)%Z; [reflexivity|].
  apply all_digits_app_false_r.
  destruct ((-4 <? _) && (_ <=? 16))%Z.
  - destruct (_ <=? 0)%Z; [reflexivity|].
    destruct (_ <? _)%Z.
    + apply all_digits_app_false_r. reflexivity.
    + apply all_digits_app_false_r, all_digits_app_false_r. reflexivity.
  - apply all_digits_app_false_r, all_digits_app_false_r. reflexivity.
Qed.

Lemma digits_of_nonempty (n : Z) : digits_of n <> "".
Proof.
  unfold digits_of, DecimalString.NilZero.string_of_uint.
  destruct (N.to_uint (Z.to_N n)); discriminate.
Qed.

Lemma rstrip_zeros_pad (d : string) :
  (String.length (rstrip_zeros d) <= String.length d)%nat
  /\ rstrip_zeros d
     +:+ zeros (String.length d - String.length (rstrip_zeros d)) = d.
Proof.
  induction d as [|c t [IHlen IH]]; simpl; [split; [lia|reflexivity]|].
  destruct (rstrip_zeros t) as [|c' t'] eqn:Ht.
  - simpl in IH. rewrite Nat.sub_0_r in IH.
    destruct (Ascii.eqb c "0"%char) eqn:Hc; simpl.
    + apply Ascii.eqb_eq in Hc as ->. split; [lia|]. now rewrite IH.
    + split; [lia|]. now rewrite Nat.sub_0_r, IH.
  - simpl in *. split; [lia|]. now rewrite IH.
Qed.

(** An integer-valued float of at most sixteen digits prints as its digits
    followed by [.0]. *)
Lemma repr_float_integer (n : Z) :
  (0 < n)%Z -> (String.length (digits_of n) <= 16)%nat ->
  repr_float (PyFloat n 0) = digits_of n +:+ ".0".
Proof.
  intros Hpos Hlen. unfold repr_float. cbn [mant scale].
  destruct (Z.eqb_spec n 0) as [->|_]; [lia|].
  destruct (Z.ltb_spec n 0) as [?|_]; [lia|].
  rewrite Z.abs_eq by lia.
  pose proof (digits_of_nonempty n) as Hne.
  destruct (rstrip_zeros_pad (digits_of n)) as [Hle Hpad].
  set (d := digits_of n) in *.
  assert (Hd : (1 <= String.length d)%nat).
  { destruct d; [congruence|simpl; lia]. }
  change (Z.of_nat 0) with 0%Z. rewrite Z.sub_0_r.
  destruct (Z.ltb_spec (-4) (Z.of_nat (String.length d))) as [_|?]; [|lia].
  destruct (Z.leb_spec (Z.of_nat (String.length d)) 16) as [_|?]; [|lia].
  cbn [andb].
  destruct (Z.leb_spec (Z.of_nat (String.length d)) 0) as [?|_]; [lia|].
  destruct (Z.ltb_spec (Z.of_nat (String.length d))
              (Z.of_nat (String.length (rstrip_zeros d)))) as [?|_]; [lia|].
  rewrite <- Nat2Z.inj_sub by exact Hle. rewrite Nat2Z.id.
  cbn [String.append].
  rewrite <- append_assoc, Hpad. reflexivity.
Qed.

(** C6. The folder [main] asks about, built from the chapter's float, is
    never the folder [scrape_chapter_images] checks and uploads to, built
    from the digits [chapter-N] of the URL: the former always has a point
    or an exponent after [chapter-], the latter only digits.  For the
    float [N.0] of an [N] of at most fifteen digits the former is
    [title/chapter-N.0]. *)
Theorem main_chapter_folder_differs (title u chapter_num : string)
    (ch : chapter) :
  search_chapter_url u = Some chapter_num ->
  main_chapter_folder title ch <> chapter_folder title chapter_num
  /\ upload_target u title (Some chapter_num) false
     = Some (chapter_folder title chapter_num, image_filename u)
  /\ ((0 < digits_val chapter_num)%Z ->
      (String.length (digits_of (digits_val chapter_num)) <= 15)%nat ->
      number ch = PyFloat (digits_val chapter_num) 0 ->
      main_chapter_folder title ch
      = title +:+ "/chapter-" +:+ digits_of (digits_val chapter_num) +:+ ".0").
Proof.
  intros Hu. apply search_chapter_url_digits in Hu as [Hd Hne].
  split; [|split].
  - unfold main_chapter_folder, chapter_folder. intros Heq.
    apply append_inv_head in Heq.
    apply (append_inv_head "/chapter-") in Heq.
    pose proof (repr_float_not_digits (number ch)) as Hr.
    rewrite Heq in Hr. congruence.
  - unfold upload_target, chapter_folder.
    destruct chapter_num; [congruence|reflexivity].
  - intros Hpos Hlen Hn. unfold main_chapter_folder.
    rewrite Hn. rewrite repr_float_integer; [reflexivity|exact Hpos|lia].
Qed.

Lemma main_chapter_folder_differs_witness :
  main_chapter_folder "solo" (Chapter (PyFloat 2 0) "https://k/solo-chapter-2/")
  = "solo/chapter-2.0"
  /\ chapter_folder "solo" "2" = "solo/chapter-2"
  /\ main_chapter_folder "solo"
       (Chapter (PyFloat 2 0) "https://k/solo-chapter-2/")
     <> chapter_folder "solo" "2".
Proof.
  destruct (main_chapter_folder_differs "solo" "https://k/solo-chapter-2/" "2"
              (Chapter (PyFloat 2 0) "https://k/solo-chapter-2/") eq_refl)
    as (Hne & _ & Hshape).
  split; [|split].
  - apply Hshape; [reflexivity|vm_compute; lia|reflexivity].
  - reflexivity.
  - exact Hne.
Defined.

(** ** The starting chapter *)

Lemma not_downloaded_none {S} `{AssetStore S} (title : string)
    (chapters : list chapter) (w : world S) :
  (forall p, has_resources (api_resources (store w) p) = false) ->
  not_downloaded title chapters w
  = (Ok chapters, w,
     map (fun ch => EvResources (main_chapter_folder title ch)) chapters).
Proof.
  intros Hnone. induction chapters as [|ch rest IH]; [reflexivity|].
  cbn [not_downloaded]. unfold bind at 1.
  unfold folder_exists, call_api_resources, bind at 1, ret at 1.
  rewrite Hnone. unfold bind at 1. rewrite IH.
  unfold ret. simpl. now rewrite app_nil_r.
Qed.

(** C9. The chapters kept by the starting-chapter test of [main] are
    exactly those of the chapter list whose number is at least the start
    value, in the same order, and all of them when no start value is
    given (a start of zero counts as none in the code, which keeps the
    same chapters since no parsed number is negative); when none of their
    folders exists on the asset host, these are the chapters dispatched.  With chapters 1.0, 2.0, 2.5, 3.0 and start
    2.0, chapters 2.0, 2.5 and 3.0 are kept. *)
Theorem from_start_inclusive (links : list link) (start : pyfloat) :
  from_start (Some start) (get_chapter_list links)
  = List.filter (fun ch => float_ge (number ch) start) (get_chapter_list links)
  /\ from_start None (get_chapter_list links) = get_chapter_list links
  /\ (forall chapters,
        float_truthy start = true ->
        from_start (Some start) chapters
        = List.filter (fun ch => float_ge (number ch) start) chapters)
  /\ (forall S (A : AssetStore S) (title : string) (w : world S)
        (start_chapter : option pyfloat),
        (forall p, has_resources (api_resources (store w) p) = false) ->
        fst (fst (chapters_to_scrape title start_chapter
                    (get_chapter_list links) w))
        = Ok (from_start start_chapter (get_chapter_list links)))
  /\ from_start (Some (PyFloat 20 1))
       [Chapter (PyFloat 1 0) "c1"; Chapter (PyFloat 2 0) "c2";
        Chapter (PyFloat 25 1) "c2.5"; Chapter (PyFloat 3 0) "c3"]
     = [Chapter (PyFloat 2 0) "c2"; Chapter (PyFloat 25 1) "c2.5";
        Chapter (PyFloat 3 0) "c3"].
Proof.
  split; [|split; [|split; [|split]]].
  - unfold from_start. apply filter_ext_in. intros ch Hin.
    unfold keeps_from, float_truthy.
    destruct (Z.eqb_spec (mant start) 0) as [H0|_]; [|reflexivity].
    cbn [negb orb]. symmetry. unfold float_ge, float_le. apply Z.leb_le.
    rewrite H0. pose proof (get_chapter_list_nonneg links ch Hin).
    pose proof (pow10_pos (scale start)). nia.
  - unfold from_start. cbn [keeps_from].
    induction (get_chapter_list links) as [|c l IH]; simpl; congruence.
  - intros chapters Ht. unfold from_start. apply filter_ext.
    intros ch. unfold keeps_from. now rewrite Ht.
  - intros S A title w start_chapter Hnone. unfold chapters_to_scrape.
    now rewrite not_downloaded_none.
  - reflexivity.
Qed.

Lemma from_start_inclusive_witness :
  fst (fst (chapters_to_scrape "alpha" (Some (PyFloat 2 0))
              (get_chapter_list
                 [Link "Chapter 1" (Some "c1"); Link "Chapter 2" (Some "c2");
                  Link "Chapter 2.5" (Some "c2.5");
                  Link "Chapter 3" (Some "c3")])
              (World ([] : memory_store) 0)))
  = Ok [Chapter (PyFloat 2 0) "c2"; Chapter (PyFloat 25 1) "c2.5";
        Chapter (PyFloat 3 0) "c3"].
Proof.
  destruct (from_start_inclusive
              [Link "Chapter 1" (Some "c1"); Link "Chapter 2" (Some "c2");
               Link "Chapter 2.5" (Some "c2.5"); Link "Chapter 3" (Some "c3")]
              (PyFloat 2 0)) as (_ & _ & _ & Hdispatch & _).
  rewrite (Hdispatch memory_store memory_assets "alpha"
             (World ([] : memory_store) 0) (Some (PyFloat 2 0)));
    [reflexivity|].
  intros p. reflexivity.
Defined.

(** ** The chapter pipeline *)

Section PipelineFacts.
Context {S : Type} `{AssetStore S}.
Variable net : nat -> string -> http_outcome.
Variable select_images : string -> list (option string).

Lemma folder_exists_run (p : string) (w : world S) :
  folder_exists p w
  = (Ok (has_resources (api_resources (store w) p)), w, [EvResources p]).
Proof. reflexivity. Qed.

Lemma bind_events {A B} (m : M S A) (k : A -> M S B) (w : world S) :
  exists rest, snd (bind m k w) = snd (m w) ++ rest.
Proof.
  unfold bind. destruct (m w) as [[[a|e] w1] t1]; simpl.
  - destruct (k a w1) as [[r w2] t2]. now exists t2.
  - exists []. now rewrite app_nil_r.
Qed.

Lemma try_except_events {A} (m : M S A) (catches : exn -> bool)
    (h : exn -> M S A) (w : world S) :
  exists rest, snd (try_except m catches h w) = snd (m w) ++ rest.
Proof.
  unfold try_except. destruct (m w) as [[[a|e] w1] t1]; simpl.
  - exists []. now rewrite app_nil_r.
  - destruct (catches e).
    + destruct (h e w1) as [[r w2] t2]. now exists t2.
    + exists []. now rewrite app_nil_r.
Qed.

(** Whatever happens afterwards, a chapter whose URL carries a number
    starts with the existence check of its folder. *)
Lemma scrape_chapter_images_first (u comic_slug chapter_num : string)
    (w : world S) :
  search_chapter_url u = Some chapter_num ->
  exists rest,
    snd (scrape_chapter_images net select_images u comic_slug w)
    = EvResources (chapter_folder comic_slug chapter_num) :: rest.
Proof.
  intros Hu. unfold scrape_chapter_images. rewrite Hu.
  match goal with
  | |- context [try_except ?m ?c ?h w] =>
      destruct (try_except_events m c h w) as [r1 ->]
  end.
  match goal with
  | |- context [bind ?m ?k w] =>
      destruct (bind_events m k w) as [r2 ->]
  end.
  rewrite folder_exists_run. simpl. eexists. reflexivity.
Qed.

Lemma scrape_chapter_images_present (u comic_slug chapter_num : string)
    (w : world S) :
  search_chapter_url u = Some chapter_num ->
  has_resources
    (api_resources (store w) (chapter_folder comic_slug chapter_num)) = true ->
  scrape_chapter_images net select_images u comic_slug w
  = (Ok [], w, [EvResources (chapter_folder comic_slug chapter_num)]).
Proof.
  intros Hu Hp. unfold scrape_chapter_images, try_except. rewrite Hu.
  unfold bind at 1. rewrite folder_exists_run, Hp. reflexivity.
Qed.
End PipelineFacts.

(** C1. When the existence check of a chapter's folder reports content,
    [scrape_chapter_images] returns the empty list having done nothing but
    that check: no GET of the chapter page, no GET of an image, no upload,
    the asset store untouched.  And in every run the existence check is
    the first thing the pipeline does, ahead of any fetch. *)
Theorem scrape_chapter_images_skips_existing :
  forall (S : Type) (A : AssetStore S) (net : nat -> string -> http_outcome)
         (select_images : string -> list (option string))
         (u comic_slug chapter_num : string) (w : world S),
    search_chapter_url u = Some chapter_num ->
    (exists rest,
        snd (scrape_chapter_images net select_images u comic_slug w)
        = EvResources (chapter_folder comic_slug chapter_num) :: rest)
    /\ (has_resources
          (api_resources (store w) (chapter_folder comic_slug chapter_num))
        = true ->
        scrape_chapter_images net select_images u comic_slug w
        = (Ok [], w, [EvResources (chapter_folder comic_slug chapter_num)])
        /\ List.filter is_network
             (snd (scrape_chapter_images net select_images u comic_slug w))
           = []).
Proof.
  intros S A net select_images u comic_slug chapter_num w Hu. split.
  - now apply scrape_chapter_images_first.
  - intros Hp.
    rewrite (scrape_chapter_images_present net select_images u comic_slug
               chapter_num w Hu Hp).
    split; reflexivity.
Qed.

Lemma scrape_chapter_images_skips_existing_witness :
  scrape_chapter_images (fun _ _ => HttpFailure) (fun _ => [])
    "https://k/solo-chapter-02-bahasa/" "solo"
    (World (["solo/chapter-02/001"] : memory_store) 0)
  = (Ok [], World ["solo/chapter-02/001"] 0, [EvResources "solo/chapter-02"]).
Proof.
  destruct (scrape_chapter_images_skips_existing memory_store memory_assets
              (fun _ _ => HttpFailure) (fun _ => [])
              "https://k/solo-chapter-02-bahasa/" "solo" "02"
              (World (["solo/chapter-02/001"] : memory_store) 0) eq_refl)
    as [_ Hskip].
  destruct (Hskip eq_refl) as [Hrun _]. exact Hrun.
Defined.

(** ** The retrying fetcher *)

Section FetcherFacts.
Context {S : Type} `{AssetStore S}.
Variable net : nat -> string -> http_outcome.

Lemma advance_advance (n m : nat) (w : world S) :
  advance n (advance m w) = advance (n + m) w.
Proof. unfold advance. simpl. f_equal. lia. Qed.

(** One turn of the loop, by cases on what the GET comes back with. *)
Lemma fetch_retry_loop_step (u : string) (max_retries : Z) (fuel : nat)
    (attempt : Z) (w : world S) :
  fetch_retry_loop net u max_retries (Datatypes.S fuel) attempt w
  = if fails (net (clock w) u)
    then
      if (attempt =? max_retries - 1)%Z
      then (Raise ClientError, advance 1 w, [EvSessionGet u])
      else
        let '(r, w2, t2) :=
          fetch_retry_loop net u max_retries fuel (attempt + 1) (advance 1 w) in
        (r, w2,
         EvSessionGet u :: EvSleep (RETRY_DELAY * 2 ^ attempt) :: t2)
    else
      match net (clock w) u with
      | HttpResponse r => (Ok (Some (body r)), advance 1 w, [EvSessionGet u])
      | HttpFailure => (Raise ClientError, advance 1 w, [EvSessionGet u])
      end.
Proof.
  cbn [fetch_retry_loop]. unfold try_except, bind at 1, session_get, fails.
  fold (advance 1 w).
  destruct (net (clock w) u) as [r|].
  - destruct (400 <=? status r)%Z; unfold raise, ret; cbn.
    + destruct (attempt =? max_retries - 1)%Z; [reflexivity|].
      unfold bind, sleep, emit.
      now destruct (fetch_retry_loop _ _ _ _ _ _) as [[r' w2] t2].
    + reflexivity.
  - unfold raise; cbn.
    destruct (attempt =? max_retries - 1)%Z; [reflexivity|].
    unfold bind, sleep, emit.
    now destruct (fetch_retry_loop _ _ _ _ _ _) as [[r' w2] t2].
Qed.

(** [k] failures and then a success, with turns to spare: the body comes
    back after [k] back-off sleeps. *)
Lemma fetch_retry_loop_success (u : string) (max_retries : Z) (k : nat) :
  forall (fuel : nat) (attempt : Z) (w : world S) (r : response),
    (k < fuel)%nat ->
    (attempt + Z.of_nat fuel = max_retries)%Z ->
    (forall i, (i < k)%nat -> fails (net (i + clock w) u) = true) ->
    net (k + clock w) u = HttpResponse r ->
    (status r < 400)%Z ->
    fetch_retry_loop net u max_retries fuel attempt w
    = (Ok (Some (body r)), advance (Datatypes.S k) w,
       backoff_events u attempt k ++ [EvSessionGet u]).
Proof.
  induction k as [|k IH]; intros fuel attempt w r Hk Hinv Hfail Hok Hst;
    (destruct fuel as [|fuel]; [lia|]); rewrite fetch_retry_loop_step.
  - simpl in Hok. rewrite Hok. cbn [fails].
    destruct (Z.leb_spec 400 (status r)); [lia|reflexivity].
  - pose proof (Hfail 0%nat ltac:(lia)) as H0. simpl in H0. rewrite H0.
    destruct (Z.eqb_spec attempt (max_retries - 1)); [lia|].
    rewrite (IH fuel (attempt + 1)%Z (advance 1 w) r).
    + rewrite advance_advance.
      replace (Datatypes.S k + 1)%nat with (Datatypes.S (Datatypes.S k)) by lia.
      reflexivity.
    + lia.
    + lia.
    + intros i Hi. simpl.
      replace (i + Datatypes.S (clock w))%nat
        with (Datatypes.S i + clock w)%nat by lia.
      apply Hfail. lia.
    + simpl. replace (k + Datatypes.S (clock w))%nat
        with (Datatypes.S k + clock w)%nat by lia.
      exact Hok.
    + exact Hst.
Qed.

(** Every turn fails: the last error is raised, after a sleep between
    consecutive attempts and none after the last. *)
Lemma fetch_retry_loop_exhausted (u : string) (max_retries : Z) :
  forall (fuel : nat) (attempt : Z) (w : world S),
    (attempt + Z.of_nat (Datatypes.S fuel) = max_retries)%Z ->
    (forall i, (i <= fuel)%nat -> fails (net (i + clock w) u) = true) ->
    fetch_retry_loop net u max_retries (Datatypes.S fuel) attempt w
    = (Raise ClientError, advance (Datatypes.S fuel) w,
       backoff_events u attempt fuel ++ [EvSessionGet u]).
Proof.
  induction fuel as [|fuel IH]; intros attempt w Hinv Hfail;
    rewrite fetch_retry_loop_step;
    pose proof (Hfail 0%nat ltac:(lia)) as H0; simpl in H0; rewrite H0.
  - destruct (Z.eqb_spec attempt (max_retries - 1)); [reflexivity|lia].
  - destruct (Z.eqb_spec attempt (max_retries - 1)); [lia|].
    rewrite (IH (attempt + 1)%Z (advance 1 w)).
    + rewrite advance_advance.
      replace (Datatypes.S fuel + 1)%nat
        with (Datatypes.S (Datatypes.S fuel)) by lia.
      reflexivity.
    + lia.
    + intros i Hi. simpl.
      replace (i + Datatypes.S (clock w))%nat
        with (Datatypes.S i + clock w)%nat by lia.
      apply Hfail. lia.
Qed.

(** No more GETs than turns. *)
Lemma fetch_retry_loop_bound (u : string) (max_retries : Z) :
  forall (fuel : nat) (attempt : Z) (w : world S),
    (length (List.filter is_fetch
               (snd (fetch_retry_loop net u max_retries fuel attempt w)))
     <= fuel)%nat.
Proof.
  induction fuel as [|fuel IH]; intros attempt w; [simpl; lia|].
  rewrite fetch_retry_loop_step.
  destruct (fails (net (clock w) u)).
  - destruct (attempt =? max_retries - 1)%Z; [simpl; lia|].
    specialize (IH (attempt + 1)%Z (advance 1 w)).
    destruct (fetch_retry_loop _ _ _ _ _ _) as [[r' w2] t2].
    simpl in *. lia.
  - destruct (net (clock w) u); simpl; lia.
Qed.
End FetcherFacts.

(** C4. [fetch_data_with_retry] with its default of three attempts issues
    at most three GETs; after [k < 3] failed attempts followed by a
    success it returns the body, having slept [2 * 2^i] seconds after the
    failed attempt number [i] (so [2 * 2^0] then [2 * 2^1] when the third
    attempt is the one that succeeds); and when the third attempt fails
    too, the error is raised to the caller, with no sleep after it. *)
Theorem fetch_data_with_retry_backoff :
  forall (S : Type) (A : AssetStore S) (net : nat -> string -> http_outcome)
         (u : string) (w : world S),
    (length (List.filter is_fetch
               (snd (fetch_data_with_retry net u MAX_RETRIES w))) <= 3)%nat
    /\ (forall (k : nat) (r : response),
          (k < 3)%nat ->
          (forall i, (i < k)%nat -> fails (net (i + clock w) u) = true) ->
          net (k + clock w) u = HttpResponse r ->
          (status r < 400)%Z ->
          fetch_data_with_retry net u MAX_RETRIES w
          = (Ok (Some (body r)), advance (Datatypes.S k) w,
             backoff_events u 0 k ++ [EvSessionGet u]))
    /\ (forall r : response,
          fails (net (clock w) u) = true ->
          fails (net (1 + clock w) u) = true ->
          net (2 + clock w) u = HttpResponse r ->
          (status r < 400)%Z ->
          fetch_data_with_retry net u MAX_RETRIES w
          = (Ok (Some (body r)), advance 3 w,
             [EvSessionGet u; EvSleep (RETRY_DELAY * 2 ^ 0);
              EvSessionGet u; EvSleep (RETRY_DELAY * 2 ^ 1);
              EvSessionGet u]))
    /\ ((forall i, (i < 3)%nat -> fails (net (i + clock w) u) = true) ->
        fetch_data_with_retry net u MAX_RETRIES w
        = (Raise ClientError, advance 3 w,
           [EvSessionGet u; EvSleep (RETRY_DELAY * 2 ^ 0);
            EvSessionGet u; EvSleep (RETRY_DELAY * 2 ^ 1);
            EvSessionGet u])).
Proof.
  intros S A net u w. unfold fetch_data_with_retry, MAX_RETRIES.
  change (Z.of_nat 3) with 3%Z.
  split; [|split; [|split]].
  - apply fetch_retry_loop_bound.
  - intros k r Hk Hfail Hok Hst.
    apply fetch_retry_loop_success; try assumption; lia.
  - intros r H0 H1 Hok Hst.
    rewrite (fetch_retry_loop_success net u 3 2 3 0 w r); try assumption;
      try lia; [reflexivity|].
    intros [|[|i]] Hi; [exact H0|exact H1|lia].
  - intros Hfail.
    rewrite (fetch_retry_loop_exhausted net u 3 2 0 w); [reflexivity|lia|].
    intros i Hi. apply Hfail. lia.
Qed.

Lemma fetch_data_with_retry_backoff_witness :
  fetch_data_with_retry
    (fun n _ =>
       match n with
       | 0%nat => HttpFailure
       | 1%nat => HttpResponse (Response 503 ∅ "")
       | _ => HttpResponse (Response 200 ∅ "<html>")
       end)
    "https://komikcast.cz/komik/solo/" MAX_RETRIES
    (World ([] : memory_store) 0)
  = (Ok (Some "<html>"), World [] 3,
     [EvSessionGet "https://komikcast.cz/komik/solo/"; EvSleep 2;
      EvSessionGet "https://komikcast.cz/komik/solo/"; EvSleep 4;
      EvSessionGet "https://komikcast.cz/komik/solo/"])
  /\ fetch_data_with_retry (fun _ _ => HttpFailure)
       "https://komikcast.cz/komik/solo/" MAX_RETRIES
       (World ([] : memory_store) 0)
     = (Raise ClientError, World [] 3,
        [EvSessionGet "https://komikcast.cz/komik/solo/"; EvSleep 2;
         EvSessionGet "https://komikcast.cz/komik/solo/"; EvSleep 4;
         EvSessionGet "https://komikcast.cz/komik/solo/"]).
Proof.
  split.
  - destruct (fetch_data_with_retry_backoff memory_store memory_assets
                (fun n _ =>
                   match n with
                   | 0%nat => HttpFailure
                   | 1%nat => HttpResponse (Response 503 ∅ "")
                   | _ => HttpResponse (Response 200 ∅ "<html>")
                   end)
                "https://komikcast.cz/komik/solo/"
                (World ([] : memory_store) 0)) as (_ & _ & Hthird & _).
    apply (Hthird (Response 200 ∅ "<html>")); try reflexivity.
  - destruct (fetch_data_with_retry_backoff memory_store memory_assets
                (fun _ _ => HttpFailure)
                "https://komikcast.cz/komik/solo/"
                (World ([] : memory_store) 0)) as (_ & _ & _ & Hall).
    apply Hall. intros i Hi. reflexivity.
Defined.

(** ** The chapter page fetch *)

Lemma fetch_data_fails {S} (net : nat -> string -> http_outcome) (u : string)
    (w : world S) :
  fails_requests (net (clock w) u) = true ->
  fetch_data net u w = (Raise RequestException, advance 1 w, [EvRequestsGet u]).
Proof.
  intros Hf. unfold fetch_data, bind, requests_get.
  destruct (net (clock w) u) as [r|]; simpl in Hf.
  - rewrite Hf. reflexivity.
  - reflexivity.
Qed.

(** C3, as the code has it.  The chapter page is fetched with
    [fetch_data], one GET without retry: when that GET fails, on the
    transport or on a 4xx or 5xx status, [scrape_chapter_images] gives the
    chapter up at once and returns the empty list, after the existence
    check and that single request, with no back-off sleep and no second
    attempt. *)
Theorem scrape_chapter_images_single_fetch :
  forall (S : Type) (A : AssetStore S) (net : nat -> string -> http_outcome)
         (select_images : string -> list (option string))
         (u comic_slug chapter_num : string) (w : world S),
    search_chapter_url u = Some chapter_num ->
    has_resources
      (api_resources (store w) (chapter_folder comic_slug chapter_num))
    = false ->
    fails_requests (net (clock w) u) = true ->
    scrape_chapter_images net select_images u comic_slug w
    = (Ok [], advance 1 w,
       [EvResources (chapter_folder comic_slug chapter_num);
        EvRequestsGet u]).
Proof.
  intros S A net select_images u comic_slug chapter_num w Hu Hp Hf.
  unfold scrape_chapter_images, try_except. rewrite Hu.
  unfold bind at 1. rewrite folder_exists_run, Hp.
  unfold bind at 1. rewrite (fetch_data_fails net u w Hf). reflexivity.
Qed.

Lemma scrape_chapter_images_single_fetch_witness :
  scrape_chapter_images fails_once (fun _ => [Some "https://i/001.jpg"])
    "https://k/solo-chapter-2/" "solo" (World ([] : memory_store) 0)
  = (Ok [], World [] 1,
     [EvResources "solo/chapter-2"; EvRequestsGet "https://k/solo-chapter-2/"]).
Proof.
  apply (scrape_chapter_images_single_fetch memory_store memory_assets
           fails_once (fun _ => [Some "https://i/001.jpg"])
           "https://k/solo-chapter-2/" "solo" "2"
           (World ([] : memory_store) 0));
    reflexivity.
Defined.

(** C3 as stated would have the failed page fetch attempted again (up to
    three attempts): it is not, even when the second answer would have
    been the page. *)
Lemma chapter_page_fetch_retried_counterexample :
  ~ (forall (net : nat -> string -> http_outcome)
            (select_images : string -> list (option string))
            (u comic_slug chapter_num : string) (w : world memory_store),
        search_chapter_url u = Some chapter_num ->
        has_resources
          (api_resources (store w) (chapter_folder comic_slug chapter_num))
        = false ->
        fails_requests (net (clock w) u) = true ->
        fails_requests (net (1 + clock w) u) = false ->
        (2 <= length
                (List.filter is_fetch
                   (snd (scrape_chapter_images net select_images u
                           comic_slug w))))%nat).
Proof.
  intros Hclaim.
  specialize (Hclaim fails_once (fun _ => [Some "https://i/001.jpg"])
                "https://k/solo-chapter-2/" "solo" "2"
                (World ([] : memory_store) 0)
                eq_refl eq_refl eq_refl eq_refl).
  vm_compute in Hclaim. lia.
Qed.

(** ** download_image and HTTP 429 *)

Section DownloadFacts.
Context {S : Type} `{AssetStore S}.
Variable net : nat -> string -> http_outcome.

(** One turn of the loop, by cases on what the GET comes back with. *)
Lemma download_loop_step (u comic_slug : string) (chapter : option string)
    (is_cover : bool) (retries : Z) (fuel : nat) (attempt : Z) (w : world S) :
  download_loop net u comic_slug chapter is_cover retries (Datatypes.S fuel)
    attempt w
  = let continue t :=
      let '(res, w2, t2) :=
        download_loop net u comic_slug chapter is_cover retries fuel
          (attempt + 1) (advance 1 w) in
      (res, w2, EvSessionGet u :: EvSleep t :: t2) in
    let on_client_error :=
      if (attempt =? retries - 1)%Z
      then (Raise ClientError, advance 1 w, [EvSessionGet u])
      else continue (2 ^ attempt)%Z in
    match net (clock w) u with
    | HttpFailure => on_client_error
    | HttpResponse r =>
        if (status r =? 429)%Z then
          match retry_after r with
          | Some t => continue t
          | None => (Raise ValueError, advance 1 w, [EvSessionGet u])
          end
        else if (400 <=? status r)%Z then on_client_error
        else
          match upload_target u comic_slug chapter is_cover with
          | None => (Raise ValueError, advance 1 w, [EvSessionGet u])
          | Some (folder, filename) =>
              let '(ur, s') :=
                uploader_upload (store w) (body r) folder filename in
              (Ok (Some (match ur with
                         | UploadDict secure_url => secure_url
                         | UploadError => ""
                         end)),
               World s' (1 + clock w),
               [EvSessionGet u; EvUpload folder filename])
          end
    end.
Proof.
  cbn [download_loop]. unfold bind at 1, session_get. fold (advance 1 w).
  cbv zeta.
  assert (Hcont : forall t,
             (let '(r, w2, t2) :=
                (sleep t ;;;
                 download_loop net u comic_slug chapter is_cover retries fuel
                   (attempt + 1)) (advance 1 w) in
              (r, w2, [EvSessionGet u] ++ t2))
             = (let '(res, w2, t2) :=
                  download_loop net u comic_slug chapter is_cover retries fuel
                    (attempt + 1) (advance 1 w) in
                (res, w2, EvSessionGet u :: EvSleep t :: t2))).
  { intros t. unfold bind, sleep, emit.
    now destruct (download_loop _ _ _ _ _ _ _ _ _) as [[res w2] t2]. }
  destruct (net (clock w) u) as [r|].
  - destruct (status r =? 429)%Z.
    + unfold retry_after.
      destruct (headers r !! "Retry-After") as [v|]; [|apply Hcont].
      destruct (py_int v); [apply Hcont|reflexivity].
    + destruct (400 <=? status r)%Z.
      * destruct (attempt =? retries - 1)%Z; [reflexivity|apply Hcont].
      * destruct (upload_target u comic_slug chapter is_cover) as [[fo fi]|];
          [|reflexivity].
        cbv [bind upload_image call_uploader_upload ret advance store clock].
        destruct (uploader_upload _ _ _ _) as [[|su] s']; reflexivity.
  - destruct (attempt =? retries - 1)%Z; [reflexivity|apply Hcont].
Qed.

(** A 429 takes the turn it came in: after the sleep the loop goes on
    with one turn less and the next attempt number. *)
Lemma download_loop_429 (u comic_slug : string) (chapter : option string)
    (is_cover : bool) (retries : Z) (fuel : nat) (attempt : Z) (w : world S)
    (r : response) (t : Z) :
  net (clock w) u = HttpResponse r ->
  status r = 429%Z ->
  retry_after r = Some t ->
  download_loop net u comic_slug chapter is_cover retries (Datatypes.S fuel)
    attempt w
  = let '(res, w2, t2) :=
      download_loop net u comic_slug chapter is_cover retries fuel
        (attempt + 1) (advance 1 w) in
    (res, w2, EvSessionGet u :: EvSleep t :: t2).
Proof.
  intros Hnet Hst Hra. rewrite download_loop_step. cbv zeta.
  rewrite Hnet, Hst, Hra. reflexivity.
Qed.

Lemma download_loop_throttled (u comic_slug : string) (chapter : option string)
    (is_cover : bool) (retries : Z) (waits : list Z) :
  forall (fuel : nat) (attempt : Z) (w : world S),
    throttled net u (clock w) waits ->
    (length waits <= fuel)%nat ->
    download_loop net u comic_slug chapter is_cover retries fuel attempt w
    = let '(res, w2, t2) :=
        download_loop net u comic_slug chapter is_cover retries
          (fuel - length waits) (attempt + Z.of_nat (length waits))
          (advance (length waits) w) in
      (res, w2, rate_limit_events u waits ++ t2).
Proof.
  induction waits as [|t ts IH]; intros fuel attempt w Hth Hlen.
  - simpl. rewrite Nat.sub_0_r, Z.add_0_r.
    replace (advance 0 w) with w by now destruct w.
    now destruct (download_loop _ _ _ _ _ _ _ _ _) as [[res w2] t2].
  - destruct fuel as [|fuel]; [simpl in Hlen; lia|].
    destruct Hth as [(r & Hnet & Hst & Hra) Hth].
    rewrite (download_loop_429 _ _ _ _ _ _ _ _ r t Hnet Hst Hra).
    rewrite (IH fuel (attempt + 1)%Z (advance 1 w));
      [|exact Hth|simpl in Hlen; lia].
    rewrite advance_advance. cbn [length].
    replace (length ts + 1)%nat with (Datatypes.S (length ts)) by lia.
    replace (attempt + 1 + Z.of_nat (length ts))%Z
      with (attempt + Z.of_nat (Datatypes.S (length ts)))%Z by lia.
    cbn [Nat.sub].
    now destruct (download_loop _ _ _ _ _ _ _ _ _) as [[res w2] t2].
Qed.

Lemma throttled_take (u : string) (n : nat) (waits : list Z) :
  forall c, throttled net u c waits -> throttled net u c (take n waits).
Proof.
  revert n. induction waits as [|t ts IH]; intros n c Hth.
  - now destruct n.
  - destruct n as [|n]; [exact I|].
    destruct Hth as [Hr Hth]. split; [exact Hr|]. now apply IH.
Qed.

(** No more GETs than turns, whatever the answers. *)
Lemma download_loop_bound (u comic_slug : string) (chapter : option string)
    (is_cover : bool) (retries : Z) :
  forall (fuel : nat) (attempt : Z) (w : world S),
    (length (List.filter is_fetch
               (snd (download_loop net u comic_slug chapter is_cover retries
                       fuel attempt w)))
     <= fuel)%nat.
Proof.
  induction fuel as [|fuel IH]; intros attempt w; [simpl; lia|].
  rewrite download_loop_step. cbv zeta.
  specialize (IH (attempt + 1)%Z (advance 1 w)).
  destruct (download_loop net u comic_slug chapter is_cover retries fuel
              (attempt + 1) (advance 1 w)) as [[res w2] t2].
  simpl in IH.
  destruct (net (clock w) u) as [r|].
  - destruct (status r =? 429)%Z.
    + destruct (retry_after r); simpl; lia.
    + destruct (400 <=? status r)%Z.
      * destruct (attempt =? retries - 1)%Z; simpl; lia.
      * destruct (upload_target u comic_slug chapter is_cover) as [[fo fi]|];
          [|simpl; lia].
        destruct (uploader_upload _ _ _ _) as [ur s']. simpl. lia.
  - destruct (attempt =? retries - 1)%Z; simpl; lia.
Qed.
End DownloadFacts.

(** C2, as the code has it.  On a 429 [download_image] sleeps for the
    [Retry-After] seconds (60 without the header) and then goes on with
    the next turn of the same [for attempt in range(retries)] loop, so a
    429 uses up one of the three attempts: [download_image] never issues
    more than three GETs; after fewer than three 429s in a row the request
    is made again with the turns that are left; after three 429s in a row
    it returns [None] without another request. *)
Theorem download_image_429_uses_attempt :
  forall (S : Type) (A : AssetStore S) (net : nat -> string -> http_outcome)
         (u comic_slug : string) (chapter : option string) (is_cover : bool)
         (w : world S) (waits : list Z),
    throttled net u (clock w) waits ->
    (length (List.filter is_fetch
               (snd (download_image net u comic_slug chapter is_cover 3 w)))
     <= 3)%nat
    /\ ((length waits <= 3)%nat ->
        download_image net u comic_slug chapter is_cover 3 w
        = let '(res, w2, t2) :=
            download_loop net u comic_slug chapter is_cover 3
              (3 - length waits) (Z.of_nat (length waits))
              (advance (length waits) w) in
          (res, w2, EvSleepUniform 2 5 :: rate_limit_events u waits ++ t2))
    /\ ((3 <= length waits)%nat ->
        download_image net u comic_slug chapter is_cover 3 w
        = (Ok None, advance 3 w,
           EvSleepUniform 2 5 :: rate_limit_events u (take 3 waits))).
Proof.
  intros S A net u comic_slug chapter is_cover w waits Hth.
  unfold download_image, rate_limited, bind, emit.
  change (Z.of_nat 3) with 3%Z.
  split; [|split].
  - pose proof (download_loop_bound net u comic_slug chapter is_cover 3 3 0 w)
      as Hb.
    destruct (download_loop _ _ _ _ _ _ _ _ _) as [[res w2] t2].
    simpl in *. lia.
  - intros Hlen.
    rewrite (download_loop_throttled net u comic_slug chapter is_cover 3
               waits 3 0 w Hth Hlen).
    rewrite Z.add_0_l.
    now destruct (download_loop _ _ _ _ _ _ _ _ _) as [[res w2] t2].
  - intros Hlen.
    assert (Hl : length (take 3 waits) = 3%nat)
      by (rewrite length_take; lia).
    rewrite (download_loop_throttled net u comic_slug chapter is_cover 3
               (take 3 waits) 3 0 w);
      [|now apply throttled_take|lia].
    rewrite Hl. cbn [Nat.sub download_loop]. unfold ret.
    now rewrite app_nil_r.
Qed.

Lemma download_image_429_uses_attempt_witness :
  download_image throttles_thrice "https://i/001.jpg" "solo" (Some "2") false 3
    (World ([] : memory_store) 0)
  = (Ok None, World [] 3,
     [EvSleepUniform 2 5;
      EvSessionGet "https://i/001.jpg"; EvSleep 5;
      EvSessionGet "https://i/001.jpg"; EvSleep 60;
      EvSessionGet "https://i/001.jpg"; EvSleep 7]).
Proof.
  assert (Hth : throttled throttles_thrice "https://i/001.jpg" 0 [5; 60; 7]%Z).
  { repeat split; eexists; repeat split; reflexivity. }
  destruct (download_image_429_uses_attempt memory_store memory_assets
              throttles_thrice "https://i/001.jpg" "solo" (Some "2") false
              (World ([] : memory_store) 0) [5; 60; 7]%Z Hth)
    as (_ & _ & Hthree).
  apply Hthree. simpl. lia.
Defined.

(** C2 as stated would have the request made again after any number of
    429s in a row: after three of them it is not, though the fourth answer
    would have been the image. *)
Lemma download_image_429_unbounded_counterexample :
  ~ (forall (net : nat -> string -> http_outcome) (u comic_slug : string)
            (chapter : option string) (is_cover : bool)
            (w : world memory_store) (waits : list Z),
        throttled net u (clock w) waits ->
        (length waits
         < length (List.filter is_fetch
                     (snd (download_image net u comic_slug chapter is_cover 3
                             w))))%nat).
Proof.
  intros Hclaim.
  assert (Hth : throttled throttles_thrice "https://i/001.jpg" 0 [5; 60; 7]%Z).
  { repeat split; eexists; repeat split; reflexivity. }
  specialize (Hclaim throttles_thrice "https://i/001.jpg" "solo" (Some "2")
                false (World ([] : memory_store) 0) [5; 60; 7]%Z Hth).
  vm_compute in Hclaim. lia.
Qed.

(** ** The cover image *)

Section CoverFacts.
Context {S : Type} `{AssetStore S}.
Variable net : nat -> string -> http_outcome.

Lemma file_exists_run (folder filename : string) (w : world S) :
  file_exists folder filename w
  = (Ok (has_resources
           (api_resources (store w) (folder +:+ "/" +:+ filename))),
     w, [EvResources (folder +:+ "/" +:+ filename)]).
Proof. reflexivity. Qed.

(** A call of the download loop uploads at most once, and when it returns
    a non-empty URL, that URL is what one successful upload to the target
    gave back, and the store is the one that upload left. *)
Lemma download_loop_upload (u comic_slug : string) (chapter : option string)
    (is_cover : bool) (retries : Z) :
  forall (fuel : nat) (attempt : Z) (w : world S) res w2 t2,
    download_loop net u comic_slug chapter is_cover retries fuel attempt w
    = (res, w2, t2) ->
    (length (List.filter is_upload t2) <= 1)%nat
    /\ (forall c su, res = Ok (Some (String c su)) ->
          length (List.filter is_upload t2) = 1%nat
          /\ exists s0 data folder filename,
               upload_target u comic_slug chapter is_cover
               = Some (folder, filename)
               /\ uploader_upload s0 data folder filename
                  = (UploadDict (String c su), store w2)).
Proof.
  induction fuel as [|fuel IH]; intros attempt w res w2 t2.
  { simpl. unfold ret. intros [= <- <- <-]. split; [simpl; lia|].
    intros c su [=]. }
  rewrite download_loop_step. cbv zeta.
  specialize (IH (attempt + 1)%Z (advance 1 w)).
  destruct (download_loop net u comic_slug chapter is_cover retries fuel
              (attempt + 1) (advance 1 w)) as [[res' w2'] t2'].
  specialize (IH res' w2' t2' eq_refl).
  assert (Hcont : forall t,
             (res', w2', EvSessionGet u :: EvSleep t :: t2') = (res, w2, t2) ->
             (length (List.filter is_upload t2) <= 1)%nat
             /\ (forall c su, res = Ok (Some (String c su)) ->
                   length (List.filter is_upload t2) = 1%nat
                   /\ exists s0 data folder filename,
                        upload_target u comic_slug chapter is_cover
                        = Some (folder, filename)
                        /\ uploader_upload s0 data folder filename
                           = (UploadDict (String c su), store w2))).
  { intros t [= <- <- <-]. exact IH. }
  assert (Hraise : forall e,
             (Raise e, advance 1 w, [EvSessionGet u])
             = (res, w2, t2) ->
             (length (List.filter is_upload t2) <= 1)%nat
             /\ (forall c su, res = Ok (Some (String c su)) ->
                   length (List.filter is_upload t2) = 1%nat
                   /\ exists s0 data folder filename,
                        upload_target u comic_slug chapter is_cover
                        = Some (folder, filename)
                        /\ uploader_upload s0 data folder filename
                           = (UploadDict (String c su), store w2))).
  { intros e [= <- <- <-]. split; [simpl; lia|]. intros c su [=]. }
  destruct (net (clock w) u) as [r|].
  - destruct (status r =? 429)%Z.
    + destruct (retry_after r); [apply Hcont|apply Hraise].
    + destruct (400 <=? status r)%Z.
      * destruct (attempt =? retries - 1)%Z; [apply Hraise|apply Hcont].
      * destruct (upload_target u comic_slug chapter is_cover)
          as [[fo fi]|] eqn:Ht; [|apply Hraise].
        destruct (uploader_upload (store w) (body r) fo fi) as [ur s'] eqn:Hup.
        intros [= <- <- <-]. split; [simpl; lia|].
        intros c su [= Hsu]. split; [reflexivity|].
        exists (store w), (body r), fo, fi. split; [reflexivity|].
        destruct ur as [|su']; [discriminate|]. simpl in *. now subst su'.
  - destruct (attempt =? retries - 1)%Z; [apply Hraise|apply Hcont].
Qed.

Lemma handle_cover_image_uploads_once (cover_image_url comic_slug : string)
    (w : world S) :
  (length (List.filter is_upload
             (snd (handle_cover_image net cover_image_url comic_slug w)))
   <= 1)%nat.
Proof.
  unfold handle_cover_image, bind at 1. rewrite file_exists_run.
  destruct (has_resources _); [simpl; lia|].
  unfold bind, download_image, rate_limited, bind, emit.
  destruct (download_loop net cover_image_url comic_slug None true
              (Z.of_nat 3) 3 0 w) as [[res w2] t2] eqn:Hl.
  apply download_loop_upload in Hl as [Hle _].
  destruct res; simpl; rewrite ?app_nil_r; exact Hle.
Qed.

(** A call that hands back a URL has made exactly one upload, a
    successful one, of [cover] into the comic's folder. *)
Lemma handle_cover_image_published (cover_image_url comic_slug : string)
    (w w1 : world S) (cu : string) (t1 : list event) :
  handle_cover_image net cover_image_url comic_slug w = (Ok (Some cu), w1, t1) ->
  length (List.filter is_upload t1) = 1%nat
  /\ exists s0 data,
       uploader_upload s0 data comic_slug "cover" = (UploadDict cu, store w1).
Proof.
  unfold handle_cover_image, bind at 1. rewrite file_exists_run.
  destruct (has_resources _); [intros [=]|].
  unfold bind, download_image, rate_limited, bind, emit.
  destruct (download_loop net cover_image_url comic_slug None true
              (Z.of_nat 3) 3 0 w) as [[res w2] t2] eqn:Hl.
  apply download_loop_upload in Hl as [_ Hsome].
  destruct res as [[[|c su]|]|e]; unfold ret; simpl;
    try (intros [=]; fail).
  intros [= <- <- <-].
  destruct (Hsome c su eq_refl) as [Hone (s0 & data & fo & fi & Ht & Hup)].
  rewrite app_nil_r. split; [exact Hone|].
  injection Ht as <- <-. now exists s0, data.
Qed.
End CoverFacts.

(** C8. Let the asset host be such that after a successful upload of
    [cover] into a comic's folder the existence query for [slug/cover]
    reports it.  If a first [handle_cover_image] publishes the cover, a
    second one for the same slug only makes the existence query and
    returns [None]: no download, no upload, the store as the first call
    left it; over the two calls there is one upload. *)
Theorem handle_cover_image_idempotent :
  forall (S : Type) (A : AssetStore S) (net : nat -> string -> http_outcome)
         (cover_image_url comic_slug : string) (w w1 : world S)
         (cu : string) (t1 : list event),
    (forall s data secure_url s',
        uploader_upload s data comic_slug "cover"
        = (UploadDict secure_url, s') ->
        has_resources (api_resources s' (comic_slug +:+ "/" +:+ "cover"))
        = true) ->
    handle_cover_image net cover_image_url comic_slug w
    = (Ok (Some cu), w1, t1) ->
    handle_cover_image net cover_image_url comic_slug w1
    = (Ok None, w1, [EvResources (comic_slug +:+ "/" +:+ "cover")])
    /\ length
         (List.filter is_upload
            (t1 ++ snd (handle_cover_image net cover_image_url comic_slug w1)))
       = 1%nat
    /\ List.filter is_network
         (snd (handle_cover_image net cover_image_url comic_slug w1))
       = [].
Proof.
  intros S A net cover_image_url comic_slug w w1 cu t1 Hlaw Hfirst.
  apply handle_cover_image_published in Hfirst as [Hone (s0 & data & Hup)].
  apply Hlaw in Hup.
  assert (Hsecond :
            handle_cover_image net cover_image_url comic_slug w1
            = (Ok None, w1, [EvResources (comic_slug +:+ "/" +:+ "cover")])).
  { unfold handle_cover_image, bind at 1. rewrite file_exists_run, Hup.
    reflexivity. }
  rewrite Hsecond. split; [reflexivity|]. split; [|reflexivity].
  rewrite List.filter_app, List.length_app, Hone. reflexivity.
Qed.

Lemma handle_cover_image_idempotent_witness :
  handle_cover_image serves_cover "https://k/cover.jpg" "solo"
    (World ([] : memory_store) 0)
  = (Ok (Some "https://res.cloudinary.com/demo/solo/cover"),
     World ["solo/cover"] 1,
     [EvResources "solo/cover"; EvSleepUniform 2 5;
      EvSessionGet "https://k/cover.jpg"; EvUpload "solo" "cover"])
  /\ handle_cover_image serves_cover "https://k/cover.jpg" "solo"
       (World (["solo/cover"] : memory_store) 1)
     = (Ok None, World ["solo/cover"] 1, [EvResources "solo/cover"]).
Proof.
  assert (Hfirst :
            handle_cover_image serves_cover "https://k/cover.jpg" "solo"
              (World ([] : memory_store) 0)
            = (Ok (Some "https://res.cloudinary.com/demo/solo/cover"),
               World ["solo/cover"] 1,
               [EvResources "solo/cover"; EvSleepUniform 2 5;
                EvSessionGet "https://k/cover.jpg"; EvUpload "solo" "cover"]))
    by reflexivity.
  split; [exact Hfirst|].
  refine (proj1 (handle_cover_image_idempotent memory_store memory_assets
                   serves_cover "https://k/cover.jpg" "solo"
                   (World ([] : memory_store) 0) _ _ _ _ Hfirst)).
  intros s data secure_url s' Hup. cbn in Hup. injection Hup as _ <-.
  reflexivity.
Defined.

(** ** The comics table *)

Lemma same_but_updated_on_refl (c : Comic.row) : same_but_updated_on c c.
Proof. repeat split. Qed.

Lemma same_but_updated_on_touch (now : Z) (c : Comic.row) :
  same_but_updated_on c (Comic.touch now c).
Proof. repeat split. Qed.

Lemma first_by_slug_some (comic_slug : string) (db : list Comic.row)
    (i : nat) (c : Comic.row) :
  first_by_slug comic_slug db = Some (i, c) ->
  db !! i = Some c /\ Comic.slug c = comic_slug.
Proof.
  revert i. induction db as [|d rest IH]; intros i; simpl; [discriminate|].
  destruct (String.eqb_spec (Comic.slug d) comic_slug) as [Heq|_].
  - intros [= <- <-]. now split.
  - destruct (first_by_slug comic_slug rest) as [[j r]|]; [|discriminate].
    intros [= <- <-]. now apply IH.
Qed.

Lemma first_by_slug_none (comic_slug : string) (db : list Comic.row) :
  first_by_slug comic_slug db = None ->
  forall c, In c db -> Comic.slug c <> comic_slug.
Proof.
  induction db as [|d rest IH]; simpl; [intros _ c []|].
  destruct (String.eqb_spec (Comic.slug d) comic_slug) as [|Hne];
    [discriminate|].
  destruct (first_by_slug comic_slug rest) as [[j r]|] eqn:Hr; [discriminate|].
  intros _ c [<-|Hin]; [exact Hne|now apply IH].
Qed.

(** C7. [save_comic_metadata] on a table without the slug, given a dict
    with all the fields and a commit that goes through, appends one row
    holding those fields, the slug and the current time.  On a table that
    has the slug it writes nothing but [updated_on] of the first row with
    that slug, which becomes the current time when the commit goes
    through: the table keeps its length, and at every position the row
    agrees with the old one on [id], [title], [author], [type], [status],
    [release], [genres], [synopsis], [rating], [cover_image_url] and
    [slug]. *)
Theorem save_comic_metadata_upsert (now : Z) (commit_ok : bool)
    (comic_meta : gmap string meta_value) (comic_slug : string)
    (db : list Comic.row) :
  (first_by_slug comic_slug db = None ->
   (forall c, In c db -> Comic.slug c <> comic_slug)
   /\ forall t a ty st rel g syn rat cov,
       comic_meta !! "title" = Some (MStr t) ->
       comic_meta !! "author" = Some (MStr a) ->
       comic_meta !! "type" = Some (MStr ty) ->
       comic_meta !! "status" = Some (MStr st) ->
       comic_meta !! "release" = Some (MStr rel) ->
       comic_meta !! "genres" = Some (MList g) ->
       comic_meta !! "synopsis" = Some (MStr syn) ->
       comic_meta !! "rating" = Some (MStr rat) ->
       comic_meta !! "cover_image_url" = Some (MStr cov) ->
       commit_ok = true ->
       save_comic_metadata now commit_ok comic_meta comic_slug db
       = db ++ [Comic.Row (next_id db) t a ty st rel now g syn rat cov
                  comic_slug])
  /\ (forall i existing,
        first_by_slug comic_slug db = Some (i, existing) ->
        db !! i = Some existing
        /\ Comic.slug existing = comic_slug
        /\ save_comic_metadata now commit_ok comic_meta comic_slug db
           = (if commit_ok then <[i := Comic.touch now existing]> db else db)
        /\ (commit_ok = true ->
            exists c,
              save_comic_metadata now commit_ok comic_meta comic_slug db !! i
              = Some c
              /\ Comic.updated_on c = now)
        /\ length (save_comic_metadata now commit_ok comic_meta comic_slug db)
           = length db
        /\ (forall j c,
              save_comic_metadata now commit_ok comic_meta comic_slug db !! j
              = Some c ->
              exists c0, db !! j = Some c0 /\ same_but_updated_on c0 c
                         /\ (j <> i -> c = c0))).
Proof.
  split.
  - intros Hnone. split; [now apply first_by_slug_none|].
    intros t a ty st rel g syn rat cov Ht Ha Hty Hst Hrel Hg Hsyn Hrat Hcov ->.
    unfold save_comic_metadata. rewrite Hnone.
    unfold new_comic, meta_str, meta_list.
    rewrite Ht, Ha, Hty, Hst, Hrel, Hg, Hsyn, Hrat, Hcov. reflexivity.
  - intros i existing Hfirst.
    destruct (first_by_slug_some _ _ _ _ Hfirst) as [Hi Hslug].
    unfold save_comic_metadata. rewrite Hfirst.
    assert (Hlt : (i < length db)%nat) by (eapply lookup_lt_Some; exact Hi).
    split; [exact Hi|]. split; [exact Hslug|]. split; [reflexivity|].
    destruct commit_ok.
    + split; [|split].
      * intros _. exists (Comic.touch now existing).
        split; [now apply list_lookup_insert_eq|reflexivity].
      * apply length_insert.
      * intros j c Hj. destruct (decide (i = j)) as [<-|Hne].
        -- rewrite list_lookup_insert_eq in Hj by exact Hlt.
           injection Hj as <-. exists existing.
           split; [exact Hi|]. split; [apply same_but_updated_on_touch|].
           congruence.
        -- rewrite list_lookup_insert_ne in Hj by exact Hne.
           exists c. split; [exact Hj|].
           split; [apply same_but_updated_on_refl|reflexivity].
    + split; [intros [=]|]. split; [reflexivity|].
      intros j c Hj. exists c. split; [exact Hj|].
      split; [apply same_but_updated_on_refl|reflexivity].
Qed.

Lemma save_comic_metadata_upsert_witness :
  save_comic_metadata 500 true solo_meta "solo" [other_row]
  = [other_row; solo_row 500]
  /\ save_comic_metadata 900 true (<["title" := MStr "Solo Leveling"]> solo_meta)
       "solo" [other_row; solo_row 500]
     = [other_row; solo_row 900].
Proof.
  split.
  - destruct (save_comic_metadata_upsert 500 true solo_meta "solo" [other_row])
      as [Hnew _].
    destruct (Hnew eq_refl) as [_ Hrow].
    apply (Hrow "Solo" "Chugong" "manhwa" "completed" "2018"
             ["Action"; "Fantasy"] "Hunters and gates." "9.1"
             "https://res.cloudinary.com/demo/solo/cover");
      reflexivity.
  - destruct (save_comic_metadata_upsert 900 true
                (<["title" := MStr "Solo Leveling"]> solo_meta) "solo"
                [other_row; solo_row 500]) as [_ Hold].
    destruct (Hold 1%nat (solo_row 500) eq_refl) as (_ & _ & Hsave & _).
    exact Hsave.
Defined.

(** ** The admission gate *)

Lemma download_with_progress_inside (p : list event) (b : bool) :
  exists rest,
    download_with_progress p b = Acquire :: rest /\ inside_block rest.
Proof.
  unfold download_with_progress. eexists. split; [reflexivity|].
  exists (map Act p ++ (if b then [ProgressUpdate] else [])). split.
  - rewrite <- app_assoc. now destruct b.
  - apply Forall_app. split.
    + apply Forall_forall. intros a Ha. apply list_elem_of_In in Ha.
      apply in_map_iff in Ha as (e & <- & _).
      split; discriminate.
    + destruct b; repeat constructor; discriminate.
Qed.

Lemma inside_block_cons (a : action) (rest : list action) :
  inside_block (a :: rest) ->
  a <> Acquire
  /\ ((a = Release /\ rest = []) \/ (a <> Release /\ inside_block rest)).
Proof.
  intros ([|a' acts] & Heq & Hall); simpl in Heq.
  - injection Heq as -> <-. split; [discriminate|]. now left.
  - injection Heq as <- ->. apply Forall_cons in Hall as [[Ha Hr] Hall].
    split; [exact Ha|]. right. split; [exact Hr|]. now exists acts.
Qed.

Lemma map_lookup_some {A B} (f : A -> B) (l : list A) (i : nat) (y : B) :
  map f l !! i = Some y -> exists x, y = f x.
Proof.
  revert i. induction l as [|x l IH]; intros [|i]; simpl; try discriminate.
  - intros [= <-]. now exists x.
  - apply IH.
Qed.

Lemma sched_inv_dispatch (runs : list (list event * bool)) :
  sched_inv (dispatch runs).
Proof.
  unfold sched_inv, dispatch. cbn [sem_value tasks holders].
  split; [|split].
  - rewrite size_empty. lia.
  - intros i prog Hi. apply map_lookup_some in Hi as [[p b] ->].
    left. split; [set_solver|]. right. now exists p, b.
  - intros i Hi. set_solver.
Qed.

Lemma sched_inv_step (s s' : sched) :
  sched_inv s -> sched_step s s' -> sched_inv s'.
Proof.
  intros (Hsem & Htasks & Hhold) [i Hstep]. unfold step_task in Hstep.
  destruct (tasks s !! i) as [[|a rest]|] eqn:Hi; try discriminate.
  assert (Hlt : i < length (tasks s)) by (eapply lookup_lt_Some; exact Hi).
  pose proof (Htasks i _ Hi) as Hok.
  assert (Hother : forall (hs' : gset nat),
             (forall j, j <> i -> (j ∈ hs' <-> j ∈ holders s)) ->
             forall j prog, j <> i ->
               <[i := rest]> (tasks s) !! j = Some prog ->
               task_ok hs' j prog).
  { intros hs' Hsame j prog Hne Hj.
    rewrite list_lookup_insert_ne in Hj by congruence.
    destruct (Htasks j prog Hj) as [[Hout Hp]|[Hin Hp]].
    - left. split; [|exact Hp]. rewrite Hsame by exact Hne. exact Hout.
    - right. split; [|exact Hp]. rewrite Hsame by exact Hne. exact Hin. }
  destruct a.
  - (* Acquire *)
    destruct (sem_value s) as [|v] eqn:Hv; [discriminate|].
    injection Hstep as <-.
    destruct Hok as [[Hout [Hnil|(p & b & Hfresh)]]|[_ Hin]].
    + discriminate.
    + destruct (download_with_progress_inside p b) as (rest' & Heq & Hins).
      rewrite Heq in Hfresh. injection Hfresh as ->.
      unfold sched_inv. cbn [sem_value tasks holders]. split; [|split].
      * rewrite size_union by set_solver. rewrite size_singleton.
        unfold MAX_CONCURRENT_DOWNLOADS in *. lia.
      * intros j prog Hj. destruct (decide (j = i)) as [->|Hne].
        -- rewrite list_lookup_insert_eq in Hj by exact Hlt.
           injection Hj as <-. right. split; [set_solver|exact Hins].
        -- apply (Hother ({[i]} ∪ holders s)); [|exact Hne|exact Hj].
           intros k Hk. rewrite elem_of_union, elem_of_singleton. tauto.
      * intros j Hj. destruct (decide (j = i)) as [->|Hne].
        -- exists rest'. now apply list_lookup_insert_eq.
        -- rewrite list_lookup_insert_ne by congruence.
           apply Hhold. apply elem_of_union in Hj as [Hj|Hj]; [|exact Hj].
           apply elem_of_singleton in Hj. congruence.
    + apply inside_block_cons in Hin as [Hne _]. congruence.
  - (* a step of the pipeline *)
    injection Hstep as <-.
    destruct Hok as [[_ [Hnil|(p & b & Hfresh)]]|[Hin Hins]];
      [discriminate|discriminate|].
    apply inside_block_cons in Hins as [_ [[Hr _]|[_ Hins]]]; [discriminate|].
    unfold sched_inv. cbn [sem_value tasks holders]. split; [|split].
    + exact Hsem.
    + intros j prog Hj. destruct (decide (j = i)) as [->|Hne].
      * rewrite list_lookup_insert_eq in Hj by exact Hlt.
        injection Hj as <-. right. now split.
      * apply (Hother (holders s)); [tauto|exact Hne|exact Hj].
    + intros j Hj. destruct (decide (j = i)) as [->|Hne].
      * exists rest. now apply list_lookup_insert_eq.
      * rewrite list_lookup_insert_ne by congruence. now apply Hhold.
  - (* the progress update *)
    injection Hstep as <-.
    destruct Hok as [[_ [Hnil|(p & b & Hfresh)]]|[Hin Hins]];
      [discriminate|discriminate|].
    apply inside_block_cons in Hins as [_ [[Hr _]|[_ Hins]]]; [discriminate|].
    unfold sched_inv. cbn [sem_value tasks holders]. split; [|split].
    + exact Hsem.
    + intros j prog Hj. destruct (decide (j = i)) as [->|Hne].
      * rewrite list_lookup_insert_eq in Hj by exact Hlt.
        injection Hj as <-. right. now split.
      * apply (Hother (holders s)); [tauto|exact Hne|exact Hj].
    + intros j Hj. destruct (decide (j = i)) as [->|Hne].
      * exists rest. now apply list_lookup_insert_eq.
      * rewrite list_lookup_insert_ne by congruence. now apply Hhold.
  - (* Release *)
    injection Hstep as <-.
    destruct Hok as [[_ [Hnil|(p & b & Hfresh)]]|[Hin Hins]];
      [discriminate|discriminate|].
    apply inside_block_cons in Hins as [_ [[_ ->]|[Hr _]]]; [|congruence].
    unfold sched_inv. cbn [sem_value tasks holders]. split; [|split].
    + rewrite size_difference by set_solver. rewrite size_singleton.
      assert (size ({[i]} : gset nat) <= size (holders s))
        by (apply subseteq_size; set_solver).
      rewrite size_singleton in *.
      unfold MAX_CONCURRENT_DOWNLOADS in *. lia.
    + intros j prog Hj. destruct (decide (j = i)) as [->|Hne].
      * rewrite list_lookup_insert_eq in Hj by exact Hlt.
        injection Hj as <-. left. split; [|now left].
        rewrite elem_of_difference, elem_of_singleton. tauto.
      * apply (Hother (holders s ∖ {[i]})); [|exact Hne|exact Hj].
        intros k Hk. rewrite elem_of_difference, elem_of_singleton. tauto.
    + intros j Hj. destruct (decide (j = i)) as [->|Hne].
      * apply elem_of_difference in Hj as [_ Hj]. destruct Hj.
        now apply elem_of_singleton.
      * rewrite list_lookup_insert_ne by congruence.
        apply Hhold. now apply elem_of_difference in Hj as [Hj _].
Qed.

Lemma run_schedule_reachable (schedule : list nat) (s : sched) :
  rtc sched_step s (run_schedule schedule s).
Proof.
  revert s. induction schedule as [|i rest IH]; intros s; simpl.
  - apply rtc_refl.
  - destruct (step_task i s) as [s'|] eqn:Hs; [|apply IH].
    eapply rtc_l; [exists i; exact Hs|apply IH].
Qed.



(** * Further properties of the code *)

(** ** sanitize_filename *)

Lemma all_chars_lstrip (p : ascii -> bool) (s : string) :
  all_chars p s = true -> all_chars p (lstrip s) = true.
Proof.
  induction s as [|c t IH]; simpl; [reflexivity|]. intros Hs.
  destruct (is_space c); [|exact Hs].
  apply andb_true_iff in Hs as [_ Ht]. now apply IH.
Qed.

Lemma all_chars_rstrip (p : ascii -> bool) (s : string) :
  all_chars p s = true -> all_chars p (rstrip s) = true.
Proof.
  induction s as [|c t IH]; simpl; [reflexivity|]. intros Hs.
  apply andb_true_iff in Hs as [Hc Ht]. specialize (IH Ht).
  destruct (rstrip t) as [|c' t'].
  - destruct (is_space c); simpl; [reflexivity|]. now rewrite Hc.
  - simpl in *. now rewrite Hc, IH.
Qed.

Lemma all_chars_remove (p : ascii -> bool) (s : string) :
  all_chars (fun c => negb (p c)) (remove_chars p s) = true.
Proof.
  induction s as [|c t IH]; simpl; [reflexivity|].
  destruct (p c) eqn:Hc; [exact IH|]. simpl. now rewrite Hc, IH.
Qed.

Lemma remove_chars_clean (p : ascii -> bool) (s : string) :
  all_chars (fun c => negb (p c)) s = true -> remove_chars p s = s.
Proof.
  induction s as [|c t IH]; simpl; [reflexivity|]. intros Hs.
  apply andb_true_iff in Hs as [Hc Ht].
  apply negb_true_iff in Hc. now rewrite Hc, IH.
Qed.

Lemma rstrip_idem (s : string) : rstrip (rstrip s) = rstrip s.
Proof.
  induction s as [|c t IH]; simpl; [reflexivity|].
  destruct (rstrip t) as [|c' t'] eqn:Ht.
  - destruct (is_space c) eqn:Hc; simpl; [reflexivity|]. now rewrite Hc.
  - change (rstrip (String c (String c' t')) = String c (String c' t')).
    cbn [rstrip]. cbn [rstrip] in IH. rewrite IH. reflexivity.
Qed.

(** What [rstrip] leaves begins as the string began, unless nothing is
    left. *)
Lemma rstrip_head (c : ascii) (t : string) :
  is_space c = false -> exists t', rstrip (String c t) = String c t'.
Proof.
  intros Hc. simpl. destruct (rstrip t) as [|c' t'].
  - rewrite Hc. now exists "".
  - now exists (String c' t').
Qed.

Lemma lstrip_cases (s : string) :
  lstrip s = "" \/ exists c t, lstrip s = String c t /\ is_space c = false.
Proof.
  induction s as [|c t IH]; simpl; [now left|].
  destruct (is_space c) eqn:Hc; [exact IH|]. right. now exists c, t.
Qed.

Lemma strip_idem (s : string) : strip (strip s) = strip s.
Proof.
  unfold strip. destruct (lstrip_cases s) as [->|(c & t & -> & Hc)].
  - reflexivity.
  - destruct (rstrip_head c t Hc) as [t' Ht']. rewrite Ht'.
    cbn [lstrip]. rewrite Hc. rewrite <- Ht'. apply rstrip_idem.
Qed.

(** X1. What [sanitize_filename] returns holds none of the characters it
    removes and has no blank at either end, and sanitizing it again
    changes nothing. *)
Theorem sanitize_filename_clean (filename : string) :
  all_chars (fun c => negb (is_forbidden c)) (sanitize_filename filename) = true
  /\ strip (sanitize_filename filename) = sanitize_filename filename
  /\ sanitize_filename (sanitize_filename filename)
     = sanitize_filename filename.
Proof.
  assert (Hclean :
            all_chars (fun c => negb (is_forbidden c))
              (sanitize_filename filename) = true).
  { unfold sanitize_filename, strip.
    apply all_chars_rstrip, all_chars_lstrip, all_chars_remove. }
  split; [exact Hclean|]. split.
  - unfold sanitize_filename. apply strip_idem.
  - unfold sanitize_filename at 1.
    rewrite (remove_chars_clean _ _ Hclean).
    unfold sanitize_filename. apply strip_idem.
Qed.

(** ** image_filename *)

Lemma split_char_nonempty (sep : ascii) (s : string) : split_char sep s <> [].
Proof.
  induction s as [|c t IH]; simpl; [discriminate|].
  destruct (split_char sep t) as [|w ws]; [contradiction|].
  destruct (Ascii.eqb c sep); discriminate.
Qed.

(** A string without the separator is one piece. *)
Lemma split_char_whole (sep : ascii) (a : string) :
  all_chars (is_not sep) a = true -> split_char sep a = [a].
Proof.
  induction a as [|c a IH]; simpl; [reflexivity|]. intros Ha.
  apply andb_true_iff in Ha as [Hc Ha]. rewrite (IH Ha).
  unfold is_not in Hc. apply negb_true_iff in Hc. now rewrite Hc.
Qed.

(** Up to the first separator is the first piece. *)
Lemma split_char_first (sep : ascii) (a b : string) :
  all_chars (is_not sep) a = true ->
  split_char sep (a +:+ String sep b) = a :: split_char sep b.
Proof.
  induction a as [|c a IH]; simpl; intros Ha.
  - destruct (split_char sep b) as [|w ws] eqn:Hb.
    + now destruct (split_char_nonempty sep b).
    + now rewrite Ascii.eqb_refl.
  - apply andb_true_iff in Ha as [Hc Ha]. rewrite (IH Ha).
    unfold is_not in Hc. apply negb_true_iff in Hc. now rewrite Hc.
Qed.

(** After the last separator is the last piece. *)
Lemma split_char_last (sep : ascii) (a b : string) :
  all_chars (is_not sep) b = true ->
  List.last (split_char sep (a +:+ String sep b)) "" = b.
Proof.
  intros Hb. induction a as [|c a IH]; simpl.
  - rewrite (split_char_whole sep b Hb). now rewrite Ascii.eqb_refl.
  - destruct (split_char sep (a +:+ String sep b)) as [|w ws] eqn:Hs.
    + now destruct (split_char_nonempty sep (a +:+ String sep b)).
    + destruct ws as [|w' ws'].
      * (* one piece only: impossible, the separator is in there *)
        exfalso. clear IH.
        assert (Hlen : forall x, (2 <= length (split_char sep (x +:+ String sep b)))%nat).
        { clear. intros x. induction x as [|d x IHx]; simpl.
          - destruct (split_char sep b) as [|w ws] eqn:Hb;
              [now destruct (split_char_nonempty sep b)|].
            rewrite Ascii.eqb_refl. simpl. lia.
          - destruct (split_char sep (x +:+ String sep b)) as [|w ws];
              [simpl in IHx; lia|].
            destruct (Ascii.eqb d sep); simpl in *; lia. }
        specialize (Hlen a). rewrite Hs in Hlen. simpl in Hlen. lia.
      * destruct (Ascii.eqb c sep); exact IH.
Qed.

(** X2. The public id of an image is the last path segment of its URL up
    to the first dot: for a URL [dir/name.ext] it is [name], whatever the
    extension, and for [dir/name] without a dot it is [name]. *)
Theorem image_filename_stem (dir name ext : string) :
  all_chars (is_not "/"%char) name = true ->
  all_chars (is_not "."%char) name = true ->
  all_chars (is_not "/"%char) ext = true ->
  image_filename (dir +:+ "/" +:+ name +:+ "." +:+ ext) = name
  /\ image_filename (dir +:+ "/" +:+ name) = name.
Proof.
  intros Hslash Hdot Hext. unfold image_filename. split.
  - change (dir +:+ "/" +:+ name +:+ "." +:+ ext)
      with (dir +:+ String "/"%char (name +:+ String "."%char ext)).
    rewrite split_char_last.
    + now rewrite split_char_first.
    + clear Hdot. induction name as [|c n IH]; simpl in *.
      * exact Hext.
      * apply andb_true_iff in Hslash as [Hc Hn]. now rewrite Hc, IH.
  - change (dir +:+ "/" +:+ name) with (dir +:+ String "/"%char name).
    rewrite split_char_last by exact Hslash.
    now rewrite split_char_whole.
Qed.

Lemma image_filename_stem_witness :
  image_filename "https://cdn.k/wp-content/img/solo/002/017.jpg" = "017"
  /\ image_filename "https://cdn.k/wp-content/img/solo/002/017" = "017".
Proof.
  apply (image_filename_stem "https://cdn.k/wp-content/img/solo/002" "017"
           "jpg"); reflexivity.
Defined.

(** ** The chapter number in a URL *)

Lemma span_digits_rest (s : string) : no_digit_ahead (snd (span_digits s)).
Proof.
  induction s as [|c t IH]; simpl; [exact I|].
  destruct (is_digit c) eqn:Hc.
  - destruct (span_digits t) as [d r]. exact IH.
  - simpl. exact Hc.
Qed.

(** [re_search] returns the match at the first position that has one. *)
Lemma re_search_leftmost {A} (m : string -> option A) (s : string) (r : A) :
  re_search m s = Some r ->
  exists pre post,
    s = pre +:+ post /\ m post = Some r
    /\ forall a b, pre = a +:+ b -> b <> "" -> m (b +:+ post) = None.
Proof.
  induction s as [|c t IH]; simpl.
  - destruct (m "") eqn:Hm; [|discriminate]. intros [= ->].
    exists "", "". repeat split; try assumption.
    intros a b Hab Hb. destruct a, b; simpl in Hab; congruence.
  - destruct (m (String c t)) eqn:Hm.
    + intros [= ->]. exists "", (String c t). repeat split; try assumption.
      intros a b Hab Hb. destruct a, b; simpl in Hab; congruence.
    + intros Hs. destruct (IH Hs) as (pre & post & -> & Hp & Hleft).
      exists (String c pre), post. repeat split; try assumption.
      intros a b Hab Hb. destruct a as [|x a]; simpl in Hab.
      * subst b. simpl. exact Hm.
      * injection Hab as _ Hab. now apply (Hleft a b).
Qed.

(** X3. The chapter number [scrape_chapter_images] reads off a URL is the
    whole run of digits that follows the first [chapter-] directly
    followed by a digit: the URL splits into what precedes, [chapter-],
    the digits and a rest that does not go on with a digit, and the
    pattern matches at no earlier position.  A URL has such a number
    exactly when it holds [chapter-] followed by a digit. *)
Theorem search_chapter_url_first_run (u : string) :
  (forall d, search_chapter_url u = Some d ->
     exists pre rest,
       u = pre +:+ "chapter-" +:+ d +:+ rest
       /\ all_digits d = true /\ d <> "" /\ no_digit_ahead rest
       /\ forall a b, pre = a +:+ b -> b <> "" ->
            match_lit_then "chapter-" match_digits
              (b +:+ "chapter-" +:+ d +:+ rest) = None)
  /\ (search_chapter_url u <> None <->
      exists pre c rest,
        u = pre +:+ "chapter-" +:+ String c rest /\ is_digit c = true).
Proof.
  split.
  - intros d Hs. unfold search_chapter_url in Hs.
    apply re_search_leftmost in Hs as (pre & post & -> & Hm & Hleft).
    unfold match_lit_then in Hm.
    destruct (strip_prefix "chapter-" post) as [r|] eqn:Hp; [|discriminate].
    apply strip_prefix_some in Hp as ->.
    pose proof (match_digits_some _ _ Hm) as [Hd Hne].
    unfold match_digits in Hm.
    pose proof (span_digits_app r) as Happ.
    pose proof (span_digits_rest r) as Hrest.
    destruct (span_digits r) as [n rest]. simpl in *.
    destruct n as [|c n]; [discriminate|]. injection Hm as <-.
    exists pre, rest. rewrite Happ. repeat split; try assumption.
  - unfold search_chapter_url. split.
    + destruct (re_search _ u) as [d|] eqn:Hs; [|congruence]. intros _.
      apply re_search_some in Hs as (pre & post & -> & Hm).
      unfold match_lit_then in Hm.
      destruct (strip_prefix "chapter-" post) as [r|] eqn:Hp; [|discriminate].
      apply strip_prefix_some in Hp as ->.
      unfold match_digits in Hm. destruct r as [|c r]; [discriminate|].
      simpl in Hm. destruct (is_digit c) eqn:Hc; [|discriminate].
      now exists pre, c, r.
    + intros (pre & c & rest & -> & Hc) Hnone.
      apply re_search_none in Hnone. unfold match_lit_then in Hnone.
      rewrite strip_prefix_app in Hnone. unfold match_digits in Hnone.
      simpl in Hnone. rewrite Hc in Hnone.
      destruct (span_digits rest). discriminate.
Qed.

Lemma search_chapter_url_first_run_witness :
  exists pre rest,
    "https://k/chapter/solo-chapter-02-5-bahasa/"
    = pre +:+ "chapter-" +:+ "02" +:+ rest
    /\ no_digit_ahead rest.
Proof.
  destruct (search_chapter_url_first_run
              "https://k/chapter/solo-chapter-02-5-bahasa/") as [Hrun _].
  destruct (Hrun "02" eq_refl) as (pre & rest & Hu & _ & _ & Hrest & _).
  now exists pre, rest.
Defined.

(** ** get_chapter_list: a link without href, ties, length *)

Lemma collect_chapters_raises (links : list link) (item : link) :
  In item links -> chapter_of_link item = None -> collect_chapters links = None.
Proof.
  induction links as [|i rest IH]; simpl; [intros []|].
  intros [->|Hin] Hc.
  - now rewrite Hc.
  - destruct (chapter_of_link i) as [[c|]|]; [|now apply IH|reflexivity].
    now rewrite (IH Hin Hc).
Qed.

(** X4. One link whose text holds a chapter number but which has no
    [href] empties the whole chapter list: [get_chapter_list] returns
    [[]], the other chapters of the page included. *)
Theorem get_chapter_list_missing_href (links : list link) (item : link) :
  In item links ->
  contains_chapter (chapter_text item) ->
  href item = None ->
  get_chapter_list links = [].
Proof.
  intros Hin Hc Hh. unfold get_chapter_list.
  rewrite (collect_chapters_raises links item Hin); [reflexivity|].
  unfold chapter_of_link. apply search_chapter_text_spec in Hc.
  destruct (search_chapter_text (chapter_text item)) as [g|]; [|congruence].
  rewrite Hh. now destruct (py_float g).
Qed.

Lemma get_chapter_list_missing_href_witness :
  get_chapter_list
    [Link "Chapter 1" (Some "c1"); Link "Chapter 2" None;
     Link "Chapter 3" (Some "c3")] = [].
Proof.
  apply (get_chapter_list_missing_href _ (Link "Chapter 2" None)).
  - right. left. reflexivity.
  - exists "", "2"%char, "". split; reflexivity.
  - reflexivity.
Defined.

Lemma float_eqb_le_trans (x a b : pyfloat) :
  float_eqb a x = true -> float_le a b = false -> float_eqb b x = false.
Proof.
  unfold float_eqb. intros Hax Hab.
  apply andb_true_iff in Hax as [Hax Hxa].
  destruct (float_le b x) eqn:Hbx; [|reflexivity].
  destruct (float_le x b) eqn:Hxb; [|reflexivity].
  rewrite (float_le_trans a x b Hax Hxb) in Hab. discriminate.
Qed.

Lemma insert_by_number_stable (x : pyfloat) (c : chapter) (l : list chapter) :
  List.filter (fun d => float_eqb (number d) x) (insert_by_number c l)
  = List.filter (fun d => float_eqb (number d) x) (c :: l).
Proof.
  induction l as [|d t IH]; [reflexivity|].
  cbn [insert_by_number].
  destruct (float_le (number c) (number d)) eqn:Hcd; [reflexivity|].
  cbn [List.filter] in *. rewrite IH.
  destruct (float_eqb (number c) x) eqn:Hcx; [|reflexivity].
  now rewrite (float_eqb_le_trans x (number c) (number d) Hcx Hcd).
Qed.

Lemma sorted_by_number_stable (x : pyfloat) (l : list chapter) :
  List.filter (fun d => float_eqb (number d) x) (sorted_by_number l)
  = List.filter (fun d => float_eqb (number d) x) l.
Proof.
  induction l as [|c t IH]; [reflexivity|].
  cbn [sorted_by_number]. rewrite insert_by_number_stable.
  cbn [List.filter]. now rewrite IH.
Qed.

Lemma matching_chapters_length (links : list link) :
  (length (matching_chapters links) <= length links)%nat.
Proof.
  induction links as [|i rest IH]; simpl; [lia|].
  destruct (chapter_of_link i) as [[c|]|]; simpl; lia.
Qed.

(** X5. [get_chapter_list] never returns more chapters than there are
    links, and chapters with the same number come out in the order of the
    page (the sort is stable): when no matching link lacks its [href],
    the chapters of a given number are, in order, those of the matching
    links. *)
Theorem get_chapter_list_stable (links : list link) :
  (length (get_chapter_list links) <= length links)%nat
  /\ ((forall item, In item links ->
         search_chapter_text (chapter_text item) <> None ->
         href item <> None) ->
      forall x,
        List.filter (fun d => float_eqb (number d) x) (get_chapter_list links)
        = List.filter (fun d => float_eqb (number d) x)
            (matching_chapters links)).
Proof.
  split.
  - unfold get_chapter_list.
    destruct (collect_chapters links) as [cs|] eqn:Hc; [|simpl; lia].
    rewrite (Permutation_length (sorted_by_number_perm cs)).
    rewrite (collect_chapters_matching _ _ Hc).
    apply matching_chapters_length.
  - intros Hh x. unfold get_chapter_list.
    rewrite (collect_chapters_total links Hh).
    apply sorted_by_number_stable.
Qed.

Lemma get_chapter_list_stable_witness :
  List.filter (fun d => float_eqb (number d) (PyFloat 2 0))
    (get_chapter_list
       [Link "Chapter 3" (Some "c3"); Link "Chapter 2.0" (Some "first");
        Link "Chapter 1" (Some "c1"); Link "Chapter 2" (Some "second")])
  = [Chapter (PyFloat 20 1) "first"; Chapter (PyFloat 2 0) "second"].
Proof.
  destruct (get_chapter_list_stable
              [Link "Chapter 3" (Some "c3"); Link "Chapter 2.0" (Some "first");
               Link "Chapter 1" (Some "c1"); Link "Chapter 2" (Some "second")])
    as [_ Hstable].
  rewrite Hstable; [reflexivity|].
  intros item [<-|[<-|[<-|[<-|[]]]]] _; discriminate.
Defined.

(** ** download_image: the delay, the back-off, the errors *)

Section DownloadMore.
Context {S : Type} `{AssetStore S}.
Variable net : nat -> string -> http_outcome.

Lemma download_loop_no_uniform (u comic_slug : string)
    (chapter : option string) (is_cover : bool) (retries : Z) :
  forall (fuel : nat) (attempt : Z) (w : world S),
    List.filter is_uniform
      (snd (download_loop net u comic_slug chapter is_cover retries fuel
              attempt w)) = [].
Proof.
  induction fuel as [|fuel IH]; intros attempt w; [reflexivity|].
  rewrite download_loop_step. cbv zeta.
  specialize (IH (attempt + 1)%Z (advance 1 w)).
  destruct (download_loop net u comic_slug chapter is_cover retries fuel
              (attempt + 1) (advance 1 w)) as [[res w2] t2].
  simpl in IH.
  destruct (net (clock w) u) as [r|].
  - destruct (status r =? 429)%Z.
    + destruct (retry_after r); simpl; [exact IH|reflexivity].
    + destruct (400 <=? status r)%Z.
      * destruct (attempt =? retries - 1)%Z; simpl; [reflexivity|exact IH].
      * destruct (upload_target u comic_slug chapter is_cover) as [[fo fi]|];
          [|reflexivity].
        now destruct (uploader_upload _ _ _ _) as [ur s'].
  - destruct (attempt =? retries - 1)%Z; simpl; [reflexivity|exact IH].
Qed.

Lemma download_image_run (u comic_slug : string) (chapter : option string)
    (is_cover : bool) (retries : nat) (w : world S) :
  download_image net u comic_slug chapter is_cover retries w
  = let '(res, w2, t2) :=
      download_loop net u comic_slug chapter is_cover (Z.of_nat retries)
        retries 0 w in
    (res, w2, EvSleepUniform 2 5 :: t2).
Proof.
  unfold download_image, rate_limited, bind, emit.
  now destruct (download_loop _ _ _ _ _ _ _ _ _) as [[res w2] t2].
Qed.

(** [k] client errors with turns to spare: the loop goes on after [k]
    back-off sleeps of [2 ^ attempt] seconds. *)
Lemma download_loop_errors (u comic_slug : string) (chapter : option string)
    (is_cover : bool) (retries : Z) (k : nat) :
  forall (fuel : nat) (attempt : Z) (w : world S),
    (k < fuel)%nat ->
    (attempt + Z.of_nat fuel = retries)%Z ->
    (forall i, (i < k)%nat -> fails_download (net (i + clock w) u) = true) ->
    download_loop net u comic_slug chapter is_cover retries fuel attempt w
    = let '(res, w2, t2) :=
        download_loop net u comic_slug chapter is_cover retries (fuel - k)
          (attempt + Z.of_nat k) (advance k w) in
      (res, w2, download_backoff u attempt k ++ t2).
Proof.
  induction k as [|k IH]; intros fuel attempt w Hk Hinv Hfail.
  - rewrite Nat.sub_0_r, Z.add_0_r.
    replace (advance 0 w) with w by now destruct w.
    now destruct (download_loop _ _ _ _ _ _ _ _ _) as [[res w2] t2].
  - destruct fuel as [|fuel]; [lia|].
    rewrite download_loop_step. cbv zeta.
    pose proof (Hfail 0%nat ltac:(lia)) as H0. simpl in H0.
    assert (Hnext :
              download_loop net u comic_slug chapter is_cover retries fuel
                (attempt + 1) (advance 1 w)
              = let '(res, w2, t2) :=
                  download_loop net u comic_slug chapter is_cover retries
                    (Datatypes.S fuel - Datatypes.S k)
                    (attempt + Z.of_nat (Datatypes.S k))
                    (advance (Datatypes.S k) w) in
                (res, w2, download_backoff u (attempt + 1) k ++ t2)).
    { rewrite (IH fuel (attempt + 1)%Z (advance 1 w)); [|lia|lia|].
      - rewrite advance_advance.
        replace (k + 1)%nat with (Datatypes.S k) by lia.
        replace (attempt + 1 + Z.of_nat k)%Z
          with (attempt + Z.of_nat (Datatypes.S k))%Z by lia.
        reflexivity.
      - intros i Hi. simpl.
        replace (i + Datatypes.S (clock w))%nat
          with (Datatypes.S i + clock w)%nat by lia.
        apply Hfail. lia. }
    rewrite Hnext.
    destruct (download_loop net u comic_slug chapter is_cover retries
                (Datatypes.S fuel - Datatypes.S k)
                (attempt + Z.of_nat (Datatypes.S k))
                (advance (Datatypes.S k) w)) as [[res w2] t2].
    destruct (Z.eqb_spec attempt (retries - 1)) as [|_]; [lia|].
    destruct (net (clock w) u) as [r|]; [|reflexivity].
    simpl in H0. apply andb_true_iff in H0 as [H400 H429].
    apply negb_true_iff in H429. rewrite H429, H400. reflexivity.
Qed.

(** A turn whose GET is answered below 400: the upload, and the URL or
    the empty string. *)
Lemma download_loop_served (u comic_slug : string) (chapter : option string)
    (is_cover : bool) (retries : Z) (fuel : nat) (attempt : Z) (w : world S)
    (r : response) :
  net (clock w) u = HttpResponse r ->
  (status r < 400)%Z ->
  download_loop net u comic_slug chapter is_cover retries (Datatypes.S fuel)
    attempt w
  = match upload_target u comic_slug chapter is_cover with
    | None => (Raise ValueError, advance 1 w, [EvSessionGet u])
    | Some (folder, filename) =>
        let '(ur, s') := uploader_upload (store w) (body r) folder filename in
        (Ok (Some (match ur with
                   | UploadDict secure_url => secure_url
                   | UploadError => ""
                   end)),
         World s' (1 + clock w),
         [EvSessionGet u; EvUpload folder filename])
    end.
Proof.
  intros Hnet Hst. rewrite download_loop_step. cbv zeta. rewrite Hnet.
  destruct (Z.eqb_spec (status r) 429) as [|_]; [lia|].
  destruct (Z.leb_spec 400 (status r)) as [|_]; [lia|]. reflexivity.
Qed.

(** The last turn ends in a client error: it is raised. *)
Lemma download_loop_last_error (u comic_slug : string)
    (chapter : option string) (is_cover : bool) (retries : Z) (fuel : nat)
    (w : world S) :
  fails_download (net (clock w) u) = true ->
  download_loop net u comic_slug chapter is_cover retries (Datatypes.S fuel)
    (retries - 1) w
  = (Raise ClientError, advance 1 w, [EvSessionGet u]).
Proof.
  intros Hf. rewrite download_loop_step. cbv zeta.
  rewrite Z.eqb_refl.
  destruct (net (clock w) u) as [r|]; [|reflexivity].
  simpl in Hf. apply andb_true_iff in Hf as [H400 H429].
  apply negb_true_iff in H429. now rewrite H429, H400.
Qed.
End DownloadMore.

(** X6. The random delay of [rate_limited] comes once per call of
    [download_image], as its first event, and not again before the
    retries inside the call. *)
Theorem download_image_one_delay :
  forall (S : Type) (A : AssetStore S) (net : nat -> string -> http_outcome)
         (u comic_slug : string) (chapter : option string) (is_cover : bool)
         (retries : nat) (w : world S),
  exists rest,
    snd (download_image net u comic_slug chapter is_cover retries w)
    = EvSleepUniform 2 5 :: rest
    /\ List.filter is_uniform rest = [].
Proof.
  intros S A net u comic_slug chapter is_cover retries w.
  rewrite download_image_run.
  pose proof (download_loop_no_uniform net u comic_slug chapter is_cover
                (Z.of_nat retries) retries 0 w) as Hno.
  destruct (download_loop _ _ _ _ _ _ _ _ _) as [[res w2] t2].
  now exists t2.
Qed.

(** X7. [download_image] backs off [2 ^ attempt] seconds after a client
    error (1 then 2 seconds): after [k < 3] failed GETs and one answered
    below 400 it uploads once and returns the secure URL, or the empty
    string when the upload fails; when the third GET fails too it raises
    the client error, having uploaded nothing and without a sleep after
    the last attempt. *)
Theorem download_image_backoff :
  forall (S : Type) (A : AssetStore S) (net : nat -> string -> http_outcome)
         (u comic_slug : string) (chapter : option string) (is_cover : bool)
         (w : world S),
    (forall (k : nat) (r : response) (folder filename : string),
        (k < 3)%nat ->
        (forall i, (i < k)%nat -> fails_download (net (i + clock w) u) = true) ->
        net (k + clock w) u = HttpResponse r ->
        (status r < 400)%Z ->
        upload_target u comic_slug chapter is_cover = Some (folder, filename) ->
        download_image net u comic_slug chapter is_cover 3 w
        = let '(ur, s') := uploader_upload (store w) (body r) folder filename in
          (Ok (Some (match ur with
                     | UploadDict secure_url => secure_url
                     | UploadError => ""
                     end)),
           World s' (Datatypes.S k + clock w),
           EvSleepUniform 2 5
           :: download_backoff u 0 k
              ++ [EvSessionGet u; EvUpload folder filename]))
    /\ ((forall i, (i < 3)%nat -> fails_download (net (i + clock w) u) = true) ->
        download_image net u comic_slug chapter is_cover 3 w
        = (Raise ClientError, advance 3 w,
           [EvSleepUniform 2 5;
            EvSessionGet u; EvSleep (2 ^ 0);
            EvSessionGet u; EvSleep (2 ^ 1);
            EvSessionGet u])).
Proof.
  intros S A net u comic_slug chapter is_cover w. split.
  - intros k r folder filename Hk Hfail Hnet Hst Ht.
    rewrite download_image_run. change (Z.of_nat 3) with 3%Z.
    rewrite (download_loop_errors net u comic_slug chapter is_cover 3 k 3 0 w
               Hk eq_refl Hfail).
    destruct (3 - k)%nat as [|fuel] eqn:Hfuel; [lia|].
    rewrite (download_loop_served net u comic_slug chapter is_cover 3 fuel
               (0 + Z.of_nat k) (advance k w) r Hnet Hst).
    rewrite Ht. cbn [store advance clock].
    destruct (uploader_upload (store w) (body r) folder filename) as [ur s'].
    reflexivity.
  - intros Hfail.
    rewrite download_image_run. change (Z.of_nat 3) with 3%Z.
    rewrite (download_loop_errors net u comic_slug chapter is_cover 3 2 3 0 w);
      [|lia|reflexivity|intros i Hi; apply Hfail; lia].
    change (3 - 2)%nat with 1%nat. change (0 + Z.of_nat 2)%Z with (3 - 1)%Z.
    rewrite download_loop_last_error; [|apply (Hfail 2%nat); lia].
    rewrite advance_advance. reflexivity.
Qed.

Lemma download_image_backoff_witness :
  download_image
    (fun n _ =>
       match n with
       | 0%nat => HttpFailure
       | 1%nat => HttpResponse (Response 503 ∅ "")
       | _ => HttpResponse (Response 200 ∅ "bytes")
       end)
    "https://i/001.jpg" "solo" (Some "2") false 3
    (World ([] : memory_store) 0)
  = (Ok (Some "https://res.cloudinary.com/demo/solo/chapter-2/001"),
     World ["solo/chapter-2/001"] 3,
     [EvSleepUniform 2 5;
      EvSessionGet "https://i/001.jpg"; EvSleep 1;
      EvSessionGet "https://i/001.jpg"; EvSleep 2;
      EvSessionGet "https://i/001.jpg"; EvUpload "solo/chapter-2" "001"])
  /\ download_image (fun _ _ => HttpFailure) "https://i/001.jpg" "solo"
       (Some "2") false 3 (World ([] : memory_store) 0)
     = (Raise ClientError, World [] 3,
        [EvSleepUniform 2 5;
         EvSessionGet "https://i/001.jpg"; EvSleep 1;
         EvSessionGet "https://i/001.jpg"; EvSleep 2;
         EvSessionGet "https://i/001.jpg"]).
Proof.
  split.
  - refine (proj1 (download_image_backoff memory_store memory_assets _
                     "https://i/001.jpg" "solo" (Some "2") false
                     (World ([] : memory_store) 0))
              2%nat (Response 200 ∅ "bytes") "solo/chapter-2" "001"
              _ _ eq_refl _ eq_refl).
    + lia.
    + intros [|[|i]] Hi; [reflexivity|reflexivity|lia].
    + reflexivity.
  - apply (proj2 (download_image_backoff memory_store memory_assets
                    (fun _ _ => HttpFailure)
                    "https://i/001.jpg" "solo" (Some "2") false
                    (World ([] : memory_store) 0))).
    intros i Hi. reflexivity.
Defined.



(** ** scrape_chapter_images, case by case *)

Section ScrapeMore.
Context {S : Type} `{AssetStore S}.
Variable net : nat -> string -> http_outcome.
Variable select_images : string -> list (option string).

(** The loop over the images, one image at a time. *)
Lemma download_chapter_images_step (img_url : string) (rest : list string)
    (comic_slug chapter_num : string) (w : world S) :
  download_chapter_images net (img_url :: rest) comic_slug chapter_num w
  = match download_image net img_url comic_slug (Some chapter_num) false 3 w with
    | (Ok cloudinary_url, w1, t1) =>
        match download_chapter_images net rest comic_slug chapter_num w1 with
        | (Ok urls, w2, t2) =>
            (Ok (match truthy_url cloudinary_url with
                 | Some cu => cu :: urls
                 | None => urls
                 end), w2, t1 ++ t2)
        | (Raise e, w2, t2) => (Raise e, w2, t1 ++ t2)
        end
    | (Raise e, w1, t1) => (Raise e, w1, t1)
    end.
Proof.
  cbn [download_chapter_images]. unfold bind at 1.
  destruct (download_image net img_url comic_slug (Some chapter_num) false 3 w)
    as [[[cu|e] w1] t1]; [|reflexivity].
  unfold bind at 1.
  destruct (download_chapter_images net rest comic_slug chapter_num w1)
    as [[[urls|e] w2] t2]; [|reflexivity].
  destruct (truthy_url cu); unfold ret; now rewrite app_nil_r.
Qed.

(** Every way [scrape_chapter_images] can go. *)
Lemma scrape_chapter_images_cases (u comic_slug : string) (w : world S) :
  scrape_chapter_images net select_images u comic_slug w
  = match search_chapter_url u with
    | None => (Ok [], w, [])
    | Some chapter_num =>
        let folder := chapter_folder comic_slug chapter_num in
        if has_resources (api_resources (store w) folder)
        then (Ok [], w, [EvResources folder])
        else
          match net (clock w) u with
          | HttpFailure =>
              (Ok [], advance 1 w, [EvResources folder; EvRequestsGet u])
          | HttpResponse r =>
              if ((400 <=? status r) && (status r <? 600))%Z
              then (Ok [], advance 1 w, [EvResources folder; EvRequestsGet u])
              else
                match image_sources (select_images (body r)) with
                | None =>
                    (Ok [], advance 1 w,
                     [EvResources folder; EvRequestsGet u])
                | Some images =>
                    match download_chapter_images net images comic_slug
                            chapter_num (advance 1 w) with
                    | (Ok urls, w2, t2) =>
                        (Ok urls, w2,
                         EvResources folder :: EvRequestsGet u :: t2)
                    | (Raise _, w2, t2) =>
                        (Ok [], w2,
                         EvResources folder :: EvRequestsGet u :: t2)
                    end
                end
          end
    end.
Proof.
  unfold scrape_chapter_images, try_except.
  destruct (search_chapter_url u) as [chapter_num|]; [|reflexivity].
  cbv zeta. unfold bind at 1. rewrite folder_exists_run.
  destruct (has_resources _); [reflexivity|].
  unfold bind at 1, fetch_data, bind at 1, requests_get.
  fold (advance 1 w).
  destruct (net (clock w) u) as [r|]; [|reflexivity].
  destruct ((400 <=? status r) && (status r <? 600))%Z; [reflexivity|].
  unfold ret at 1. cbn [app].
  destruct (image_sources (select_images (body r))) as [images|];
    [|reflexivity].
  destruct (download_chapter_images net images comic_slug chapter_num
              (advance 1 w)) as [[[urls|e] w2] t2]; cbn.
  - reflexivity.
  - now rewrite app_nil_r.
Qed.

(** The uploads of the download loop go where [upload_target] says. *)
Lemma download_loop_upload_events (u comic_slug : string)
    (chapter : option string) (is_cover : bool) (retries : Z) :
  forall (fuel : nat) (attempt : Z) (w : world S),
    Forall (fun e =>
              is_upload e = true ->
              exists folder filename,
                upload_target u comic_slug chapter is_cover
                = Some (folder, filename)
                /\ e = EvUpload folder filename)
      (snd (download_loop net u comic_slug chapter is_cover retries fuel
              attempt w)).
Proof.
  induction fuel as [|fuel IH]; intros attempt w; [constructor|].
  rewrite download_loop_step. cbv zeta.
  specialize (IH (attempt + 1)%Z (advance 1 w)).
  destruct (download_loop net u comic_slug chapter is_cover retries fuel
              (attempt + 1) (advance 1 w)) as [[res w2] t2].
  simpl in IH.
  assert (Hcont : forall t,
             Forall (fun e =>
                       is_upload e = true ->
                       exists folder filename,
                         upload_target u comic_slug chapter is_cover
                         = Some (folder, filename)
                         /\ e = EvUpload folder filename)
               (EvSessionGet u :: EvSleep t :: t2)).
  { intros t. repeat (constructor; [discriminate|]). exact IH. }
  assert (Hstop :
             Forall (fun e =>
                       is_upload e = true ->
                       exists folder filename,
                         upload_target u comic_slug chapter is_cover
                         = Some (folder, filename)
                         /\ e = EvUpload folder filename)
               [EvSessionGet u]).
  { repeat (constructor; [discriminate|]). constructor. }
  destruct (net (clock w) u) as [r|].
  - destruct (status r =? 429)%Z.
    + destruct (retry_after r); [apply Hcont|exact Hstop].
    + destruct (400 <=? status r)%Z.
      * destruct (attempt =? retries - 1)%Z; [exact Hstop|apply Hcont].
      * destruct (upload_target u comic_slug chapter is_cover)
          as [[fo fi]|] eqn:Ht; [|exact Hstop].
        destruct (uploader_upload _ _ _ _) as [ur s']. simpl.
        constructor; [discriminate|]. constructor; [|constructor].
        intros _. now exists fo, fi.
  - destruct (attempt =? retries - 1)%Z; [exact Hstop|apply Hcont].
Qed.

(** A property of the store that every upload keeps is kept by the
    download loop. *)
Lemma download_loop_store (P : S -> Prop) (u comic_slug : string)
    (chapter : option string) (is_cover : bool) (retries : Z) :
  (forall s data folder filename,
      P s -> P (snd (uploader_upload s data folder filename))) ->
  forall (fuel : nat) (attempt : Z) (w : world S),
    P (store w) ->
    P (store (snd (fst (download_loop net u comic_slug chapter is_cover
                          retries fuel attempt w)))).
Proof.
  intros Hkeep. induction fuel as [|fuel IH]; intros attempt w Hw;
    [exact Hw|].
  rewrite download_loop_step. cbv zeta.
  specialize (IH (attempt + 1)%Z (advance 1 w) Hw).
  destruct (download_loop net u comic_slug chapter is_cover retries fuel
              (attempt + 1) (advance 1 w)) as [[res w2] t2].
  simpl in IH.
  destruct (net (clock w) u) as [r|].
  - destruct (status r =? 429)%Z.
    + destruct (retry_after r); [exact IH|exact Hw].
    + destruct (400 <=? status r)%Z.
      * destruct (attempt =? retries - 1)%Z; [exact Hw|exact IH].
      * destruct (upload_target u comic_slug chapter is_cover)
          as [[fo fi]|]; [|exact Hw].
        specialize (Hkeep (store w) (body r) fo fi Hw).
        destruct (uploader_upload _ _ _ _) as [ur s']. exact Hkeep.
  - destruct (attempt =? retries - 1)%Z; [exact Hw|exact IH].
Qed.

(** What the loop over the images of a chapter does to the log, the
    result and the store. *)
Lemma download_chapter_images_facts (comic_slug : string) (c : ascii)
    (n : string) (images : list string) :
  forall (w : world S) res w' t,
    download_chapter_images net images comic_slug (String c n) w
    = (res, w', t) ->
    Forall (fun e =>
              is_upload e = true ->
              exists img,
                In img images
                /\ e = EvUpload (chapter_folder comic_slug (String c n))
                         (image_filename img)) t
    /\ (length (List.filter is_upload t) <= length images)%nat
    /\ (length (returned res) <= length (List.filter is_upload t))%nat
    /\ (forall P : S -> Prop,
          (forall s data folder filename,
              P s -> P (snd (uploader_upload s data folder filename))) ->
          P (store w) -> P (store w'))
    /\ (returned res <> [] ->
        (forall s data folder filename secure_url s',
            uploader_upload s data folder filename
            = (UploadDict secure_url, s') ->
            has_resources (api_resources s' folder) = true) ->
        (forall s data folder filename p,
            has_resources (api_resources s p) = true ->
            has_resources
              (api_resources (snd (uploader_upload s data folder filename)) p)
            = true) ->
        has_resources
          (api_resources (store w')
             (chapter_folder comic_slug (String c n))) = true).
Proof.
  induction images as [|img rest IH]; intros w res w' t.
  { simpl. unfold ret. intros [= <- <- <-].
    split; [constructor|]. split; [simpl; lia|]. split; [simpl; lia|].
    split; [auto|]. intros Hne. now destruct Hne. }
  rewrite download_chapter_images_step, download_image_run.
  change (Z.of_nat 3) with 3%Z.
  pose proof (download_loop_upload_events img comic_slug
                (Some (String c n)) false 3 3 0 w) as Hev.
  pose proof (fun P Hk => download_loop_store P img comic_slug
                (Some (String c n)) false 3 Hk 3 0 w) as Hst.
  destruct (download_loop net img comic_slug (Some (String c n)) false 3 3 0 w)
    as [[res1 w1] t1] eqn:Hl.
  apply download_loop_upload in Hl as [Hle Hsome].
  simpl in Hev, Hst.
  assert (Hev1 :
            Forall (fun e =>
                      is_upload e = true ->
                      exists img0,
                        In img0 (img :: rest)
                        /\ e = EvUpload
                                 (chapter_folder comic_slug (String c n))
                                 (image_filename img0))
              (EvSleepUniform 2 5 :: t1)).
  { constructor; [discriminate|].
    eapply Forall_impl; [exact Hev|]. intros e He Hup.
    destruct (He Hup) as (fo & fi & [= <- <-] & ->).
    exists img. split; [now left|reflexivity]. }
  destruct res1 as [cu|e].
  - specialize (IH w1).
    destruct (download_chapter_images net rest comic_slug (String c n) w1)
      as [[res2 w2] t2].
    destruct (IH res2 w2 t2 eq_refl) as (Hev2 & Hcnt2 & Hret2 & Hst2 & Hres2).
    assert (Hev12 :
              Forall (fun e =>
                        is_upload e = true ->
                        exists img0,
                          In img0 (img :: rest)
                          /\ e = EvUpload
                                   (chapter_folder comic_slug (String c n))
                                   (image_filename img0))
                ((EvSleepUniform 2 5 :: t1) ++ t2)).
    { apply Forall_app. split; [exact Hev1|].
      eapply Forall_impl; [exact Hev2|]. intros e He Hup.
      destruct (He Hup) as (img0 & Hin & ->). exists img0.
      split; [now right|reflexivity]. }
    assert (Hcount :
              length (List.filter is_upload (EvSleepUniform 2 5 :: t1 ++ t2))
              = (length (List.filter is_upload t1)
                 + length (List.filter is_upload t2))%nat).
    { cbn [List.filter is_upload].
      rewrite List.filter_app, List.length_app. reflexivity. }
    destruct res2 as [urls|e]; intros [= <- <- <-].
    + split; [exact Hev12|]. rewrite Hcount. split; [simpl; lia|].
      split; [|split].
      * simpl in Hret2 |- *.
        destruct cu as [[|c0 su]|]; simpl; try lia.
        destruct (Hsome c0 su eq_refl) as [Hone _]. lia.
      * intros P Hk Hw. apply (Hst2 P Hk). now apply Hst.
      * simpl. intros Hne Hl1 Hl2.
        destruct cu as [[|c0 su]|]; simpl in Hne;
          try (now apply Hres2).
        destruct (Hsome c0 su eq_refl)
          as [_ (s0 & data & fo & fi & [= <- <-] & Hup)].
        apply Hl1 in Hup.
        apply (Hst2 (fun s =>
                       has_resources
                         (api_resources s
                            (chapter_folder comic_slug (String c n)))
                       = true)); [|exact Hup].
        intros s d fo fi Hs. now apply Hl2.
    + split; [exact Hev12|]. rewrite Hcount. split; [simpl; lia|].
      split; [simpl; lia|]. split.
      * intros P Hk Hw. apply (Hst2 P Hk). now apply Hst.
      * intros Hne. now destruct Hne.
  - intros [= <- <- <-]. split; [exact Hev1|].
    split; [simpl; lia|]. split; [simpl; lia|]. split.
    + intros P Hk Hw. now apply Hst.
    + intros Hne. now destruct Hne.
Qed.
End ScrapeMore.

(** X9. [scrape_chapter_images] never raises: whatever the site and the
    asset host answer, it returns a list.  For a URL without [chapter-]
    and a digit it returns the empty list at once, with no existence
    check and no request. *)
Theorem scrape_chapter_images_never_raises :
  forall (S : Type) (A : AssetStore S) (net : nat -> string -> http_outcome)
         (select_images : string -> list (option string))
         (u comic_slug : string) (w : world S),
    (exists urls,
        fst (fst (scrape_chapter_images net select_images u comic_slug w))
        = Ok urls)
    /\ (search_chapter_url u = None ->
        scrape_chapter_images net select_images u comic_slug w
        = (Ok [], w, [])).
Proof.
  intros S A net select_images u comic_slug w.
  rewrite scrape_chapter_images_cases. split.
  - destruct (search_chapter_url u) as [n|]; [|now exists []].
    cbv zeta. destruct (has_resources _); [now exists []|].
    destruct (net (clock w) u) as [r|]; [|now exists []].
    destruct ((400 <=? status r) && (status r <? 600))%Z; [now exists []|].
    destruct (image_sources _) as [images|]; [|now exists []].
    destruct (download_chapter_images _ _ _ _ _) as [[[urls|e] w2] t2];
      eexists; reflexivity.
  - now intros ->.
Qed.

Lemma scrape_chapter_images_never_raises_witness :
  scrape_chapter_images (fun _ _ => HttpFailure) (fun _ => [])
    "https://k/solo/prologue/" "solo" (World ([] : memory_store) 0)
  = (Ok [], World [] 0, []).
Proof.
  apply (proj2 (scrape_chapter_images_never_raises memory_store memory_assets
                  (fun _ _ => HttpFailure) (fun _ => [])
                  "https://k/solo/prologue/" "solo"
                  (World ([] : memory_store) 0))).
  reflexivity.
Defined.

Lemma image_sources_missing (imgs : list (option string)) :
  In None imgs -> image_sources imgs = None.
Proof.
  induction imgs as [|[src|] rest IH]; simpl; [intros []| |reflexivity].
  intros [Hx|Hin]; [discriminate|]. now rewrite (IH Hin).
Qed.

(** X10. One [<img>] without [src] in the chapter page gives the chapter
    up before anything is downloaded: [scrape_chapter_images] returns the
    empty list after the existence check and the page fetch, the images
    that do have a [src] included. *)
Theorem scrape_chapter_images_missing_src :
  forall (S : Type) (A : AssetStore S) (net : nat -> string -> http_outcome)
         (select_images : string -> list (option string))
         (u comic_slug chapter_num : string) (w : world S) (r : response),
    search_chapter_url u = Some chapter_num ->
    has_resources
      (api_resources (store w) (chapter_folder comic_slug chapter_num))
    = false ->
    net (clock w) u = HttpResponse r ->
    fails_requests (HttpResponse r) = false ->
    In None (select_images (body r)) ->
    scrape_chapter_images net select_images u comic_slug w
    = (Ok [], advance 1 w,
       [EvResources (chapter_folder comic_slug chapter_num);
        EvRequestsGet u]).
Proof.
  intros S A net select_images u comic_slug chapter_num w r Hu Hp Hnet Hok
    Hin.
  rewrite scrape_chapter_images_cases, Hu. cbv zeta. rewrite Hp, Hnet.
  simpl in Hok. rewrite Hok.
  now rewrite (image_sources_missing _ Hin).
Qed.

Lemma scrape_chapter_images_missing_src_witness :
  scrape_chapter_images (fun _ _ => HttpResponse (Response 200 ∅ "<html>"))
    (fun _ => [Some "https://i/001.jpg"; None])
    "https://k/solo-chapter-2/" "solo" (World ([] : memory_store) 0)
  = (Ok [], World [] 1,
     [EvResources "solo/chapter-2"; EvRequestsGet "https://k/solo-chapter-2/"]).
Proof.
  apply (scrape_chapter_images_missing_src memory_store memory_assets _ _
           "https://k/solo-chapter-2/" "solo" "2"
           (World ([] : memory_store) 0) (Response 200 ∅ "<html>"));
    try reflexivity.
  right. left. reflexivity.
Defined.

(** X11. Every upload [scrape_chapter_images] makes goes into the folder
    [slug/chapter-N] of the chapter number read off the URL, and the list
    it returns has no more URLs than uploads were made. *)
Theorem scrape_chapter_images_uploads :
  forall (S : Type) (A : AssetStore S) (net : nat -> string -> http_outcome)
         (select_images : string -> list (option string))
         (u comic_slug chapter_num : string) (w : world S),
    search_chapter_url u = Some chapter_num ->
    Forall (fun e =>
              is_upload e = true ->
              exists filename,
                e = EvUpload (chapter_folder comic_slug chapter_num) filename)
      (snd (scrape_chapter_images net select_images u comic_slug w))
    /\ (length
          (returned
             (fst (fst (scrape_chapter_images net select_images u comic_slug
                          w))))
        <= length
             (List.filter is_upload
                (snd (scrape_chapter_images net select_images u comic_slug
                        w))))%nat.
Proof.
  intros S A net select_images u comic_slug chapter_num w Hu.
  rewrite scrape_chapter_images_cases, Hu. cbv zeta.
  apply search_chapter_url_digits in Hu as [_ Hne].
  destruct chapter_num as [|c n]; [congruence|].
  assert (Hnone : forall t : list event,
             List.filter is_upload t = [] ->
             Forall (fun e =>
                       is_upload e = true ->
                       exists filename,
                         e = EvUpload (chapter_folder comic_slug (String c n))
                               filename) t).
  { intros t Ht. apply Forall_forall. intros e He Hup.
    apply list_elem_of_In in He.
    assert (Hin : In e (List.filter is_upload t))
      by (apply filter_In; now split).
    rewrite Ht in Hin. destruct Hin. }
  destruct (has_resources _); [split; [now apply Hnone|simpl; lia]|].
  destruct (net (clock w) u) as [r|]; [|split; [now apply Hnone|simpl; lia]].
  destruct ((400 <=? status r) && (status r <? 600))%Z;
    [split; [now apply Hnone|simpl; lia]|].
  destruct (image_sources _) as [images|];
    [|split; [now apply Hnone|simpl; lia]].
  destruct (download_chapter_images net images comic_slug (String c n)
              (advance 1 w)) as [[res w2] t2] eqn:Hd.
  apply download_chapter_images_facts in Hd as (Hev & _ & Hret & _).
  assert (Hev' :
            Forall (fun e =>
                      is_upload e = true ->
                      exists filename,
                        e = EvUpload (chapter_folder comic_slug (String c n))
                              filename)
              (EvResources (chapter_folder comic_slug (String c n))
               :: EvRequestsGet u :: t2)).
  { constructor; [discriminate|]. constructor; [discriminate|].
    eapply Forall_impl; [exact Hev|]. intros e He Hup.
    destruct (He Hup) as (img & _ & ->). eexists. reflexivity. }
  destruct res as [urls|e]; (split; [exact Hev'|]); simpl in *; lia.
Qed.

Lemma scrape_chapter_images_uploads_witness :
  Forall (fun e =>
            is_upload e = true ->
            exists filename, e = EvUpload (chapter_folder "solo" "02") filename)
    (snd (scrape_chapter_images
            (fun _ _ => HttpResponse (Response 200 ∅ "<html>"))
            (fun _ => [Some "https://i/001.jpg"; Some "https://i/002.jpg"])
            "https://k/solo-chapter-02-5/" "solo"
            (World ([] : memory_store) 0))).
Proof.
  apply (scrape_chapter_images_uploads memory_store memory_assets _ _
           "https://k/solo-chapter-02-5/" "solo" "02"
           (World ([] : memory_store) 0) eq_refl).
Defined.

(** X12. Let the asset host be such that a successful upload into a
    folder makes the existence query for that folder report content, and
    that what a query reports stays reported after further uploads.  Then
    a chapter for which [scrape_chapter_images] returned at least one URL
    is skipped from then on, also when some of its images were not
    uploaded: a later call for a URL with the same chapter digits only
    makes the existence check and returns the empty list. *)
Theorem scrape_chapter_images_resume :
  forall (S : Type) (A : AssetStore S) (net : nat -> string -> http_outcome)
         (select_images : string -> list (option string))
         (u u' comic_slug chapter_num : string) (w w1 : world S)
         (cu : string) (urls : list string) (t1 : list event),
    (forall s data folder filename secure_url s',
        uploader_upload s data folder filename = (UploadDict secure_url, s') ->
        has_resources (api_resources s' folder) = true) ->
    (forall s data folder filename p,
        has_resources (api_resources s p) = true ->
        has_resources
          (api_resources (snd (uploader_upload s data folder filename)) p)
        = true) ->
    search_chapter_url u = Some chapter_num ->
    search_chapter_url u' = Some chapter_num ->
    scrape_chapter_images net select_images u comic_slug w
    = (Ok (cu :: urls), w1, t1) ->
    scrape_chapter_images net select_images u' comic_slug w1
    = (Ok [], w1, [EvResources (chapter_folder comic_slug chapter_num)]).
Proof.
  intros S A net select_images u u' comic_slug chapter_num w w1 cu urls t1
    Hl1 Hl2 Hu Hu' Hrun.
  apply scrape_chapter_images_present; [exact Hu'|].
  rewrite scrape_chapter_images_cases, Hu in Hrun. cbv zeta in Hrun.
  pose proof (search_chapter_url_digits _ _ Hu) as [_ Hne].
  destruct chapter_num as [|c n]; [congruence|].
  destruct (has_resources _); [discriminate|].
  destruct (net (clock w) u) as [r|]; [|discriminate].
  destruct ((400 <=? status r) && (status r <? 600))%Z; [discriminate|].
  destruct (image_sources _) as [images|]; [|discriminate].
  destruct (download_chapter_images net images comic_slug (String c n)
              (advance 1 w)) as [[res w2] t2] eqn:Hd.
  apply download_chapter_images_facts in Hd as (_ & _ & _ & _ & Hres).
  destruct res as [l|e]; [|discriminate].
  injection Hrun as -> -> _. apply Hres; [discriminate|exact Hl1|exact Hl2].
Qed.

Lemma scrape_chapter_images_resume_witness :
  scrape_chapter_images
    (fun n _ =>
       match n with
       | 2%nat | 3%nat | 4%nat => HttpResponse (Response 429 ∅ "")
       | _ => HttpResponse (Response 200 ∅ "<html>")
       end)
    (fun _ => [Some "https://i/001.jpg"; Some "https://i/002.jpg"])
    "https://k/solo-chapter-2-5/" "solo"
    (World (["solo/chapter-2/001"] : memory_store) 5)
  = (Ok [], World ["solo/chapter-2/001"] 5, [EvResources "solo/chapter-2"]).
Proof.
  refine (scrape_chapter_images_resume memory_store memory_assets
            (fun n _ =>
               match n with
               | 2%nat | 3%nat | 4%nat => HttpResponse (Response 429 ∅ "")
               | _ => HttpResponse (Response 200 ∅ "<html>")
               end)
            (fun _ => [Some "https://i/001.jpg"; Some "https://i/002.jpg"])
            "https://k/solo-chapter-2/" "https://k/solo-chapter-2-5/"
            "solo" "2" (World ([] : memory_store) 0) _
            "https://res.cloudinary.com/demo/solo/chapter-2/001" []
            [EvResources "solo/chapter-2";
             EvRequestsGet "https://k/solo-chapter-2/";
             EvSleepUniform 2 5; EvSessionGet "https://i/001.jpg";
             EvUpload "solo/chapter-2" "001";
             EvSleepUniform 2 5; EvSessionGet "https://i/002.jpg";
             EvSleep 60; EvSessionGet "https://i/002.jpg"; EvSleep 60;
             EvSessionGet "https://i/002.jpg"; EvSleep 60]
            _ _ eq_refl eq_refl eq_refl).
  - intros s data folder filename secure_url s' Hup.
    cbn in Hup. injection Hup as _ <-.
    cbn. unfold memory_resources. cbn [List.filter].
    assert (Hp : String.prefix folder (folder +:+ String "/"%char filename)
                 = true).
    { clear. induction folder as [|c f IH]; simpl.
      - reflexivity.
      - destruct (ascii_dec c c); [exact IH|congruence]. }
    now rewrite Hp.
  - intros s data folder filename p Hs. cbn in *.
    unfold memory_resources in *. cbn [List.filter].
    destruct (String.prefix p _); [reflexivity|].
    exact Hs.
Defined.

(** X13. An image whose three GETs all fail takes the chapter down with
    it: [scrape_chapter_images] returns the empty list although the image
    before it was downloaded and uploaded, and that upload stays on the
    asset host. *)
Theorem scrape_chapter_images_aborts :
  forall (S : Type) (A : AssetStore S) (net : nat -> string -> http_outcome)
         (select_images : string -> list (option string))
         (u comic_slug chapter_num img1 img2 : string) (rest : list string)
         (w : world S) (page r1 : response) (ur : upload_result) (s1 : S),
    search_chapter_url u = Some chapter_num ->
    has_resources
      (api_resources (store w) (chapter_folder comic_slug chapter_num))
    = false ->
    net (clock w) u = HttpResponse page ->
    fails_requests (HttpResponse page) = false ->
    image_sources (select_images (body page)) = Some (img1 :: img2 :: rest) ->
    net (1 + clock w)%nat img1 = HttpResponse r1 ->
    (status r1 < 400)%Z ->
    uploader_upload (store w) (body r1)
      (chapter_folder comic_slug chapter_num) (image_filename img1)
    = (ur, s1) ->
    (forall i, (i < 3)%nat ->
       fails_download (net (i + (2 + clock w))%nat img2) = true) ->
    scrape_chapter_images net select_images u comic_slug w
    = (Ok [], World s1 (5 + clock w),
       [EvResources (chapter_folder comic_slug chapter_num); EvRequestsGet u;
        EvSleepUniform 2 5; EvSessionGet img1;
        EvUpload (chapter_folder comic_slug chapter_num) (image_filename img1);
        EvSleepUniform 2 5; EvSessionGet img2; EvSleep 1;
        EvSessionGet img2; EvSleep 2; EvSessionGet img2]).
Proof.
  intros S A net select_images u comic_slug chapter_num img1 img2 rest w page
    r1 ur s1 Hu Hp Hnet Hok Himgs Hnet1 Hst1 Hup Hfail.
  rewrite scrape_chapter_images_cases, Hu. cbv zeta. rewrite Hp, Hnet.
  simpl in Hok. rewrite Hok, Himgs.
  apply search_chapter_url_digits in Hu as [_ Hne].
  destruct chapter_num as [|c n]; [congruence|].
  rewrite download_chapter_images_step, download_image_run.
  change (Z.of_nat 3) with 3%Z.
  rewrite (download_loop_served net img1 comic_slug (Some (String c n)) false
             3 2 0 (advance 1 w) r1 Hnet1 Hst1).
  cbn [upload_target]. fold (chapter_folder comic_slug (String c n)).
  cbn [advance store clock]. rewrite Hup.
  rewrite download_chapter_images_step, download_image_run.
  change (Z.of_nat 3) with 3%Z.
  rewrite (download_loop_errors net img2 comic_slug (Some (String c n)) false
             3 2 3 0); [|lia|reflexivity|].
  - change (3 - 2)%nat with 1%nat. change (0 + Z.of_nat 2)%Z with (3 - 1)%Z.
    rewrite download_loop_last_error.
    + destruct ur; reflexivity.
    + cbn [advance clock]. apply (Hfail 2%nat). lia.
  - intros i Hi. cbn [clock]. apply Hfail. lia.
Qed.

Lemma scrape_chapter_images_aborts_witness :
  scrape_chapter_images
    (fun n _ =>
       match n with
       | 0%nat | 1%nat => HttpResponse (Response 200 ∅ "<html>")
       | _ => HttpResponse (Response 404 ∅ "")
       end)
    (fun _ => [Some "https://i/001.jpg"; Some "https://i/002.jpg"])
    "https://k/solo-chapter-2/" "solo" (World ([] : memory_store) 0)
  = (Ok [], World ["solo/chapter-2/001"] 5,
     [EvResources "solo/chapter-2"; EvRequestsGet "https://k/solo-chapter-2/";
      EvSleepUniform 2 5; EvSessionGet "https://i/001.jpg";
      EvUpload "solo/chapter-2" "001";
      EvSleepUniform 2 5; EvSessionGet "https://i/002.jpg"; EvSleep 1;
      EvSessionGet "https://i/002.jpg"; EvSleep 2;
      EvSessionGet "https://i/002.jpg"]).
Proof.
  apply (scrape_chapter_images_aborts memory_store memory_assets _ _
           "https://k/solo-chapter-2/" "solo" "2" "https://i/001.jpg"
           "https://i/002.jpg" [] (World ([] : memory_store) 0)
           (Response 200 ∅ "<html>") (Response 200 ∅ "<html>")
           (UploadDict "https://res.cloudinary.com/demo/solo/chapter-2/001")
           ["solo/chapter-2/001"]);
    try reflexivity.
  intros i Hi. destruct i as [|[|[|i]]]; reflexivity.
Defined.

(** ** fetch_data_with_retry for any number of attempts *)

Lemma total_sleep_app (a b : list event) :
  total_sleep (a ++ b) = (total_sleep a + total_sleep b)%Z.
Proof.
  induction a as [|e a IH]; simpl; [reflexivity|].
  destruct e; rewrite IH; lia.
Qed.

Lemma total_sleep_backoff (u : string) (k : nat) :
  forall attempt : Z,
    (0 <= attempt)%Z ->
    total_sleep (backoff_events u attempt k)
    = (RETRY_DELAY * 2 ^ attempt * (2 ^ Z.of_nat k - 1))%Z.
Proof.
  induction k as [|k IH]; intros attempt Ha.
  - simpl. lia.
  - cbn [backoff_events total_sleep]. rewrite IH by lia.
    rewrite (Z.pow_add_r 2 attempt 1) by lia.
    rewrite Nat2Z.inj_succ, Z.pow_succ_r by lia.
    change (2 ^ 1)%Z with 2%Z. ring.
Qed.

(** X14. [fetch_data_with_retry] with [max_retries] attempts never issues
    more than [max_retries] GETs; with [max_retries = 0] it issues none
    and returns [None]; when every attempt fails it raises after exactly
    [max_retries] GETs, having slept [RETRY_DELAY * (2 ^ (max_retries - 1)
    - 1)] seconds in all (none after the last attempt). *)
Theorem fetch_data_with_retry_any_bound :
  forall (S : Type) (A : AssetStore S) (net : nat -> string -> http_outcome)
         (u : string) (max_retries : nat) (w : world S),
    (length (List.filter is_fetch
               (snd (fetch_data_with_retry net u max_retries w)))
     <= max_retries)%nat
    /\ fetch_data_with_retry net u 0 w = (Ok None, w, [])
    /\ (forall n,
          max_retries = Datatypes.S n ->
          (forall i, (i <= n)%nat -> fails (net (i + clock w) u) = true) ->
          fetch_data_with_retry net u max_retries w
          = (Raise ClientError, advance max_retries w,
             backoff_events u 0 n ++ [EvSessionGet u])
          /\ length (List.filter is_fetch
                       (snd (fetch_data_with_retry net u max_retries w)))
             = max_retries
          /\ total_sleep (snd (fetch_data_with_retry net u max_retries w))
             = (RETRY_DELAY * (2 ^ Z.of_nat n - 1))%Z).
Proof.
  intros S A net u max_retries w. split; [|split].
  - apply fetch_retry_loop_bound.
  - reflexivity.
  - intros n -> Hfail. unfold fetch_data_with_retry.
    rewrite (fetch_retry_loop_exhausted net u (Z.of_nat (Datatypes.S n)) n 0 w);
      [|lia|exact Hfail].
    split; [reflexivity|]. cbn [snd]. split.
    + rewrite List.filter_app, List.length_app. cbn.
      assert (Hb : forall a k,
                 length (List.filter is_fetch (backoff_events u a k)) = k).
      { intros a k. revert a. induction k as [|k IH]; intros a; simpl;
          [reflexivity|]. now rewrite IH. }
      rewrite Hb. lia.
    + rewrite total_sleep_app, total_sleep_backoff by lia.
      cbn [total_sleep]. change (2 ^ 0)%Z with 1%Z. lia.
Qed.

Lemma fetch_data_with_retry_any_bound_witness :
  fetch_data_with_retry (fun _ _ => HttpFailure) "https://k/" 5
    (World ([] : memory_store) 0)
  = (Raise ClientError, World [] 5,
     [EvSessionGet "https://k/"; EvSleep 2; EvSessionGet "https://k/";
      EvSleep 4; EvSessionGet "https://k/"; EvSleep 8;
      EvSessionGet "https://k/"; EvSleep 16; EvSessionGet "https://k/"])
  /\ total_sleep
       (snd (fetch_data_with_retry (fun _ _ => HttpFailure) "https://k/" 5
               (World ([] : memory_store) 0))) = 30%Z.
Proof.
  destruct (fetch_data_with_retry_any_bound memory_store memory_assets
              (fun _ _ => HttpFailure) "https://k/" 5
              (World ([] : memory_store) 0)) as (_ & _ & Hall).
  destruct (Hall 4%nat eq_refl (fun i _ => eq_refl)) as (Hrun & _ & Hsleep).
  split; [exact Hrun|exact Hsleep].
Defined.

(** ** save_comic_metadata: uniqueness, rollback, re-runs *)

Lemma next_id_fresh (db : list Comic.row) (c : Comic.row) :
  In c db -> (Comic.id c < next_id db)%nat.
Proof.
  unfold next_id. induction db as [|d rest IH]; simpl; [intros []|].
  intros [->|Hin]; [lia|]. specialize (IH Hin). lia.
Qed.

Lemma NoDup_snoc {A} (l : list A) (x : A) :
  NoDup l -> ~ In x l -> NoDup (l ++ [x]).
Proof.
  induction l as [|a l IH]; intros Hnd Hx; simpl.
  - constructor; [|constructor]. intros Hin. now apply list_elem_of_In in Hin.
  - apply NoDup_cons in Hnd as [Ha Hnd]. constructor.
    + rewrite list_elem_of_In in *. rewrite in_app_iff. intros [Hin|[->|[]]].
      * now apply Ha.
      * apply Hx. now left.
    + apply IH; [exact Hnd|]. intros Hin. apply Hx. now right.
Qed.

Lemma map_insert_same {A B} (f : A -> B) (l : list A) (i : nat) (x y : A) :
  l !! i = Some y -> f x = f y -> map f (<[i := x]> l) = map f l.
Proof.
  revert i. induction l as [|a l IH]; intros [|i]; simpl; try discriminate.
  - intros [= ->] ->. reflexivity.
  - intros Hi Hf. now rewrite (IH i Hi Hf).
Qed.

Lemma new_comic_fields (key : nat) (now : Z)
    (comic_meta : gmap string meta_value) (comic_slug : string)
    (c : Comic.row) :
  new_comic key now comic_meta comic_slug = Some c ->
  Comic.id c = key /\ Comic.slug c = comic_slug /\ Comic.updated_on c = now
  /\ forall k, In k required_keys -> comic_meta !! k <> None.
Proof.
  unfold new_comic, meta_str, meta_list, required_keys.
  destruct (comic_meta !! "title") as [[?|?]|] eqn:H1; try discriminate.
  destruct (comic_meta !! "author") as [[?|?]|] eqn:H2; try discriminate.
  destruct (comic_meta !! "type") as [[?|?]|] eqn:H3; try discriminate.
  destruct (comic_meta !! "status") as [[?|?]|] eqn:H4; try discriminate.
  destruct (comic_meta !! "release") as [[?|?]|] eqn:H5; try discriminate.
  destruct (comic_meta !! "genres") as [[?|?]|] eqn:H6; try discriminate.
  destruct (comic_meta !! "synopsis") as [[?|?]|] eqn:H7; try discriminate.
  destruct (comic_meta !! "rating") as [[?|?]|] eqn:H8; try discriminate.
  destruct (comic_meta !! "cover_image_url") as [[?|?]|] eqn:H9;
    try discriminate.
  cbn. intros [= <-]. repeat split.
  intros k Hk. simpl in Hk.
  repeat (destruct Hk as [<-|Hk]; [congruence|]). destruct Hk.
Qed.

(** X15. [save_comic_metadata] keeps the table well formed: if no two
    rows share a slug and no two share an id before the call, none do
    after it, and the table grows by at most one row and never shrinks. *)
Theorem save_comic_metadata_keeps_unique (now : Z) (commit_ok : bool)
    (comic_meta : gmap string meta_value) (comic_slug : string)
    (db : list Comic.row) :
  NoDup (map Comic.slug db) ->
  NoDup (map Comic.id db) ->
  NoDup (map Comic.slug
           (save_comic_metadata now commit_ok comic_meta comic_slug db))
  /\ NoDup (map Comic.id
              (save_comic_metadata now commit_ok comic_meta comic_slug db))
  /\ (length db
      <= length (save_comic_metadata now commit_ok comic_meta comic_slug db)
      <= Datatypes.S (length db))%nat.
Proof.
  intros Hslug Hid. unfold save_comic_metadata.
  destruct (first_by_slug comic_slug db) as [[i existing]|] eqn:Hfirst.
  - apply first_by_slug_some in Hfirst as [Hi _].
    destruct commit_ok; [|repeat split; auto with lia].
    rewrite !(map_insert_same _ db i _ existing Hi) by reflexivity.
    rewrite length_insert. repeat split; auto with lia.
  - destruct (new_comic (next_id db) now comic_meta comic_slug) as [c|] eqn:Hc;
      [|repeat split; auto with lia].
    destruct commit_ok; [|repeat split; auto with lia].
    apply new_comic_fields in Hc as (Hcid & Hcslug & _).
    rewrite !map_app, length_app. cbn [map length]. split; [|split; [|lia]].
    + apply NoDup_snoc; [exact Hslug|]. rewrite in_map_iff.
      intros (d & Hd & Hin).
      apply (first_by_slug_none _ _ Hfirst d Hin). congruence.
    + apply NoDup_snoc; [exact Hid|]. rewrite in_map_iff.
      intros (d & Hd & Hin).
      pose proof (next_id_fresh db d Hin). lia.
Qed.

Lemma save_comic_metadata_keeps_unique_witness :
  NoDup (map Comic.slug
           (save_comic_metadata 500 true solo_meta "solo" [other_row]))
  /\ NoDup (map Comic.id
              (save_comic_metadata 500 true solo_meta "solo" [other_row])).
Proof.
  destruct (save_comic_metadata_keeps_unique 500 true solo_meta "solo"
              [other_row]) as (Hs & Hi & _).
  - repeat constructor. intros Hin. apply list_elem_of_In in Hin.
    destruct Hin.
  - repeat constructor. intros Hin. apply list_elem_of_In in Hin.
    destruct Hin.
  - split; assumption.
Defined.

Lemma save_comic_metadata_missing (now : Z) (commit_ok : bool)
    (comic_meta : gmap string meta_value) (comic_slug : string)
    (db : list Comic.row) (k : string) :
  first_by_slug comic_slug db = None ->
  In k required_keys -> comic_meta !! k = None ->
  save_comic_metadata now commit_ok comic_meta comic_slug db = db.
Proof.
  intros Hnone Hk Hmiss. unfold save_comic_metadata. rewrite Hnone.
  destruct (new_comic (next_id db) now comic_meta comic_slug) as [c|] eqn:Hc;
    [|reflexivity].
  apply new_comic_fields in Hc as (_ & _ & _ & Hkeys).
  now destruct (Hkeys k Hk).
Qed.

(** X16. [save_comic_metadata] leaves the table exactly as it was when
    the commit fails, and when the slug is new and the dict lacks one of
    the nine fields of a row (the [KeyError] ends in the rollback). *)
Theorem save_comic_metadata_rollback (now : Z) (commit_ok : bool)
    (comic_meta : gmap string meta_value) (comic_slug : string)
    (db : list Comic.row) :
  (commit_ok = false ->
   save_comic_metadata now commit_ok comic_meta comic_slug db = db)
  /\ (first_by_slug comic_slug db = None ->
      forall k, In k required_keys -> comic_meta !! k = None ->
      save_comic_metadata now commit_ok comic_meta comic_slug db = db).
Proof.
  split.
  - intros ->. unfold save_comic_metadata.
    destruct (first_by_slug comic_slug db) as [[i e]|]; [reflexivity|].
    now destruct (new_comic _ _ _ _).
  - intros Hnone k Hk Hmiss.
    now apply (save_comic_metadata_missing now commit_ok comic_meta comic_slug
                 db k).
Qed.

Lemma save_comic_metadata_rollback_witness :
  save_comic_metadata 500 true (delete "cover_image_url" solo_meta) "solo"
    [other_row] = [other_row].
Proof.
  apply (proj2 (save_comic_metadata_rollback 500 true
                  (delete "cover_image_url" solo_meta) "solo" [other_row])
           eq_refl "cover_image_url").
  - unfold required_keys. simpl. tauto.
  - reflexivity.
Defined.

Lemma first_by_slug_snoc (comic_slug : string) (db : list Comic.row)
    (c : Comic.row) :
  first_by_slug comic_slug db = None ->
  Comic.slug c = comic_slug ->
  first_by_slug comic_slug (db ++ [c]) = Some (length db, c).
Proof.
  intros Hnone Hc. induction db as [|d rest IH]; simpl in *.
  - rewrite Hc, String.eqb_refl. reflexivity.
  - destruct (String.eqb (Comic.slug d) comic_slug); [discriminate|].
    destruct (first_by_slug comic_slug rest) as [[j r]|]; [discriminate|].
    now rewrite IH.
Qed.

(** X17. Saving a slug a second time never overwrites what the first save
    stored: after a first save that inserted the row, a second save for
    the same slug, whatever dict it is given, leaves that row with the
    fields of the first dict and only the time of the second call. *)
Theorem save_comic_metadata_twice (now1 now2 : Z)
    (meta1 meta2 : gmap string meta_value) (comic_slug : string)
    (db : list Comic.row) (c : Comic.row) :
  first_by_slug comic_slug db = None ->
  new_comic (next_id db) now1 meta1 comic_slug = Some c ->
  save_comic_metadata now2 true meta2 comic_slug
    (save_comic_metadata now1 true meta1 comic_slug db)
  = db ++ [Comic.touch now2 c].
Proof.
  intros Hnone Hc.
  unfold save_comic_metadata at 2. rewrite Hnone, Hc.
  pose proof (new_comic_fields _ _ _ _ _ Hc) as (_ & Hslug & _).
  unfold save_comic_metadata.
  rewrite (first_by_slug_snoc comic_slug db c Hnone Hslug).
  clear. induction db as [|d rest IH]; simpl; [reflexivity|].
  now rewrite IH.
Qed.

Lemma save_comic_metadata_twice_witness :
  save_comic_metadata 900 true (<["title" := MStr "Solo Leveling"]> solo_meta)
    "solo" (save_comic_metadata 500 true solo_meta "solo" [other_row])
  = [other_row; solo_row 900].
Proof.
  apply (save_comic_metadata_twice 500 900 solo_meta
           (<["title" := MStr "Solo Leveling"]> solo_meta) "solo" [other_row]
           (solo_row 500)); reflexivity.
Defined.

(** ** extract_comic_meta: the title *)




Lemma lower_app (a b : string) : lower (a +:+ b) = lower a +:+ lower b.
Proof. induction a as [|c a IH]; simpl; [reflexivity|]. now rewrite IH. Qed.














(** ** scrape_comic_meta *)

Section OrchestratorFacts.
Context {S : Type} `{AssetStore S}.
Variable net : nat -> string -> http_outcome.
Variable parse_comic : string -> comic_page.

(** Every way [scrape_comic_meta] can go. *)
Lemma scrape_comic_meta_cases (u title : string) (w : world S) :
  scrape_comic_meta net parse_comic u title w
  = match net (clock w) u with
    | HttpFailure => (Ok None, advance 1 w, [EvRequestsGet u])
    | HttpResponse r =>
        if ((400 <=? status r) && (status r <? 600))%Z
        then (Ok None, advance 1 w, [EvRequestsGet u])
        else
          match thumbnail (parse_comic (body r)) with
          | Some (Some cover_image_url) =>
              match handle_cover_image net cover_image_url title
                      (advance 1 w) with
              | (Ok cover, w2, t2) =>
                  (Ok (Some
                         (<["slug" := MStr title]>
                            (match cover with
                             | Some cu =>
                                 <["cover_image_url" := MStr cu]>
                                   (extract_comic_meta (parse_comic (body r)))
                             | None =>
                                 extract_comic_meta (parse_comic (body r))
                             end))),
                   w2, EvRequestsGet u :: t2)
              | (Raise _, w2, t2) => (Ok None, w2, EvRequestsGet u :: t2)
              end
          | _ => (Ok None, advance 1 w, [EvRequestsGet u])
          end
    end.
Proof.
  unfold scrape_comic_meta, try_except.
  unfold bind at 1, fetch_data, bind at 1, requests_get.
  fold (advance 1 w).
  destruct (net (clock w) u) as [r|]; [|reflexivity].
  destruct ((400 <=? status r) && (status r <? 600))%Z; [reflexivity|].
  unfold ret at 1. cbn [app].
  destruct (thumbnail (parse_comic (body r))) as [[cover|]|];
    [|reflexivity|reflexivity].
  unfold bind.
  destruct (handle_cover_image net cover title (advance 1 w))
    as [[[cu|e] w2] t2]; cbn.
  - destruct cu; now rewrite app_nil_r.
  - now rewrite app_nil_r.
Qed.

Lemma scrape_comic_meta_slug (u title : string) (w : world S)
    (comic_meta : gmap string meta_value) :
  fst (fst (scrape_comic_meta net parse_comic u title w))
  = Ok (Some comic_meta) ->
  comic_meta !! "slug" = Some (MStr title)
  /\ exists rest,
       snd (scrape_comic_meta net parse_comic u title w)
       = EvRequestsGet u :: rest.
Proof.
  rewrite scrape_comic_meta_cases.
  destruct (net (clock w) u) as [r|]; [|discriminate].
  destruct ((400 <=? status r) && (status r <? 600))%Z; [discriminate|].
  destruct (thumbnail _) as [[cover|]|]; try discriminate.
  destruct (handle_cover_image _ _ _ _) as [[[cu|e] w2] t2];
    [|discriminate].
  cbn. intros [= <-]. split; [apply lookup_insert_eq|now exists t2].
Qed.

Lemma extract_comic_meta_no_cover (soup : comic_page) :
  extract_comic_meta soup !! "cover_image_url" = None
  /\ extract_comic_meta soup !! "slug" = None.
Proof.
  unfold extract_comic_meta. destruct (genre_els soup); split; reflexivity.
Qed.
End OrchestratorFacts.

(** X19. [scrape_comic_meta] never raises.  It fetches the comic page
    with one GET and no retry, and returns [None] when that GET fails or
    the page has no cover [<img>] with a [src]; a dict it returns always
    holds the slug it was called with. *)
Theorem scrape_comic_meta_outcomes :
  forall (S : Type) (A : AssetStore S) (net : nat -> string -> http_outcome)
         (parse_comic : string -> comic_page) (u title : string)
         (w : world S),
    (exists r, fst (fst (scrape_comic_meta net parse_comic u title w)) = Ok r)
    /\ (fails_requests (net (clock w) u) = true ->
        scrape_comic_meta net parse_comic u title w
        = (Ok None, advance 1 w, [EvRequestsGet u]))
    /\ (forall r,
          net (clock w) u = HttpResponse r ->
          (thumbnail (parse_comic (body r)) = None
           \/ thumbnail (parse_comic (body r)) = Some None) ->
          scrape_comic_meta net parse_comic u title w
          = (Ok None, advance 1 w, [EvRequestsGet u]))
    /\ (forall comic_meta,
          fst (fst (scrape_comic_meta net parse_comic u title w))
          = Ok (Some comic_meta) ->
          comic_meta !! "slug" = Some (MStr title)).
Proof.
  intros S A net parse_comic u title w.
  rewrite scrape_comic_meta_cases. split; [|split; [|split]].
  - destruct (net (clock w) u) as [r|]; [|eexists; reflexivity].
    destruct ((400 <=? status r) && (status r <? 600))%Z;
      [eexists; reflexivity|].
    destruct (thumbnail _) as [[cover|]|]; try (eexists; reflexivity).
    destruct (handle_cover_image _ _ _ _) as [[[cu|e] w2] t2];
      eexists; reflexivity.
  - intros Hf. destruct (net (clock w) u) as [r|]; [|reflexivity].
    simpl in Hf. now rewrite Hf.
  - intros r -> Hthumb.
    destruct ((400 <=? status r) && (status r <? 600))%Z; [reflexivity|].
    now destruct Hthumb as [-> | ->].
  - intros comic_meta.
    destruct (net (clock w) u) as [r|]; [|discriminate].
    destruct ((400 <=? status r) && (status r <? 600))%Z; [discriminate|].
    destruct (thumbnail _) as [[cover|]|]; try discriminate.
    destruct (handle_cover_image _ _ _ _) as [[[cu|e] w2] t2];
      [|discriminate].
    cbn. intros [= <-]. apply lookup_insert_eq.
Qed.

Lemma scrape_comic_meta_outcomes_witness :
  scrape_comic_meta fails_once
    (fun _ => ComicPage None None None None None (Some []) None None
                (Some (Some "https://k/cover.jpg")) [])
    "https://k/komik/solo/" "solo" (World ([] : memory_store) 0)
  = (Ok None, World [] 1, [EvRequestsGet "https://k/komik/solo/"]).
Proof.
  destruct (scrape_comic_meta_outcomes memory_store memory_assets fails_once
              (fun _ => ComicPage None None None None None (Some []) None None
                          (Some (Some "https://k/cover.jpg")) [])
              "https://k/komik/solo/" "solo" (World ([] : memory_store) 0))
    as (_ & Hfail & _).
  apply Hfail. reflexivity.
Defined.

(** X20. When the cover is already on the asset host,
    [scrape_comic_meta] returns a dict without [cover_image_url], and
    [save_comic_metadata] with that dict cannot insert the comic: for a
    slug that is not in the table yet the table stays as it was, even
    though the commit would go through. *)
Theorem scrape_comic_meta_cover_present :
  forall (S : Type) (A : AssetStore S) (net : nat -> string -> http_outcome)
         (parse_comic : string -> comic_page) (u title cover : string)
         (w : world S) (r : response) (now : Z) (commit_ok : bool)
         (db : list Comic.row),
    net (clock w) u = HttpResponse r ->
    fails_requests (HttpResponse r) = false ->
    thumbnail (parse_comic (body r)) = Some (Some cover) ->
    has_resources (api_resources (store w) (title +:+ "/" +:+ "cover")) = true ->
    first_by_slug title db = None ->
    exists comic_meta,
      scrape_comic_meta net parse_comic u title w
      = (Ok (Some comic_meta), advance 1 w,
         [EvRequestsGet u; EvResources (title +:+ "/" +:+ "cover")])
      /\ comic_meta !! "cover_image_url" = None
      /\ save_comic_metadata now commit_ok comic_meta title db = db.
Proof.
  intros S A net parse_comic u title cover w r now commit_ok db Hnet Hok
    Hthumb Hpresent Hnone.
  rewrite scrape_comic_meta_cases, Hnet. simpl in Hok. rewrite Hok, Hthumb.
  unfold handle_cover_image, bind at 1. rewrite file_exists_run.
  cbn [advance store]. rewrite Hpresent.
  eexists. split; [reflexivity|].
  assert (Hmiss :
            (<["slug" := MStr title]>
               (extract_comic_meta (parse_comic (body r))))
            !! "cover_image_url" = None).
  { rewrite lookup_insert_ne by discriminate.
    apply extract_comic_meta_no_cover. }
  split; [exact Hmiss|].
  apply (save_comic_metadata_missing now commit_ok _ title db
           "cover_image_url" Hnone); [|exact Hmiss].
  unfold required_keys. simpl. tauto.
Qed.

Lemma scrape_comic_meta_cover_present_witness :
  exists comic_meta,
    scrape_comic_meta serves_cover
      (fun _ => ComicPage (Some "Solo") (Some "Author: Chugong")
                  (Some "Manhwa") (Some "Status: Ongoing") (Some "2018")
                  (Some ["Action"]) (Some "Hunters.") (Some "Rating 9.1")
                  (Some (Some "https://k/cover.jpg")) [])
      "https://k/komik/solo/" "solo" (World (["solo/cover"] : memory_store) 0)
    = (Ok (Some comic_meta), World ["solo/cover"] 1,
       [EvRequestsGet "https://k/komik/solo/"; EvResources "solo/cover"])
    /\ comic_meta !! "cover_image_url" = None
    /\ save_comic_metadata 500 true comic_meta "solo" [other_row]
       = [other_row].
Proof.
  apply (scrape_comic_meta_cover_present memory_store memory_assets
           serves_cover _ "https://k/komik/solo/" "solo" "https://k/cover.jpg"
           (World (["solo/cover"] : memory_store) 0)
           (Response 200 ∅ "cover bytes") 500 true [other_row]);
    reflexivity.
Defined.

(** ** main *)

Section MainFacts.
Context {S : Type} `{AssetStore S}.
Variable net : nat -> string -> http_outcome.
Variable parse_comic : string -> comic_page.

(** Every way [main] can go, up to the dispatch. *)
Lemma main_cases (now : Z) (commit_ok : bool) (comic_url title : string)
    (answer : start_input) (db : list Comic.row) (w : world S) :
  main net parse_comic now commit_ok comic_url title answer db w
  = match fetch_data_with_retry net comic_url MAX_RETRIES w with
    | (Ok (Some data), w1, t1) =>
        match scrape_comic_meta net parse_comic comic_url title w1 with
        | (Ok (Some comic_meta), w2, t2) =>
            if negb (printable comic_meta) then (Ok (db, []), w2, t1 ++ t2)
            else
              match get_chapter_list (chapter_links (parse_comic data)) with
              | [] => (Ok (db, []), w2, t1 ++ t2)
              | c :: cs =>
                  match answer with
                  | BadStart => (Ok (db, []), w2, t1 ++ t2)
                  | _ =>
                      match chapters_to_scrape title (start_of answer)
                              (c :: cs) w2 with
                      | (Ok to_scrape, w3, t3) =>
                          (Ok (save_comic_metadata now commit_ok comic_meta
                                 title db, to_scrape),
                           w3, t1 ++ t2 ++ t3)
                      | (Raise _, w3, t3) =>
                          (Ok (db, []), w3, t1 ++ t2 ++ t3)
                      end
                  end
              end
        | (_, w2, t2) => (Ok (db, []), w2, t1 ++ t2)
        end
    | (_, w1, t1) => (Ok (db, []), w1, t1)
    end.
Proof.
  unfold main, try_except.
  cbv beta iota zeta delta [bind].
  destruct (fetch_data_with_retry net comic_url MAX_RETRIES w)
    as [[[[data|]|e] w1] t1];
    cbv beta iota zeta delta [ret raise]; rewrite ?app_nil_r;
    try reflexivity.
  destruct (scrape_comic_meta net parse_comic comic_url title w1)
    as [[[[comic_meta|]|e] w2] t2];
    cbv beta iota zeta; rewrite ?app_nil_r; try reflexivity.
  destruct (printable comic_meta);
    cbv beta iota zeta delta [negb]; rewrite ?app_nil_r; try reflexivity.
  destruct (get_chapter_list (chapter_links (parse_comic data))) as [|c cs];
    cbv beta iota zeta; rewrite ?app_nil_r; try reflexivity.
  destruct answer as [|x|]; cbv beta iota zeta delta [start_of];
    rewrite ?app_nil_r; try reflexivity.
  - destruct (chapters_to_scrape title None (c :: cs) w2)
      as [[[l|e] w3] t3]; cbv beta iota zeta; rewrite ?app_nil_r;
      reflexivity.
  - destruct (chapters_to_scrape title (Some x) (c :: cs) w2)
      as [[[l|e] w3] t3]; cbv beta iota zeta; rewrite ?app_nil_r;
      reflexivity.
Qed.
End MainFacts.

(** A page that [fetch_data_with_retry] returns was asked for. *)
Lemma fetch_retry_loop_asked {S} `{AssetStore S}
    (net : nat -> string -> http_outcome) (u : string) (max_retries : Z) :
  forall (fuel : nat) (attempt : Z) (w : world S) data w1 t1,
    fetch_retry_loop net u max_retries fuel attempt w
    = (Ok (Some data), w1, t1) ->
    In (EvSessionGet u) t1.
Proof.
  induction fuel as [|fuel IH]; intros attempt w data w1 t1.
  { simpl. unfold ret. intros [=]. }
  rewrite fetch_retry_loop_step.
  destruct (fails (net (clock w) u)).
  - destruct (attempt =? max_retries - 1)%Z; [intros [=]|].
    specialize (IH (attempt + 1)%Z (advance 1 w)).
    destruct (fetch_retry_loop net u max_retries fuel (attempt + 1)
                (advance 1 w)) as [[r' w2] t2].
    intros [= -> -> <-]. now left.
  - destruct (net (clock w) u); intros [= <- <- <-]. now left.
Qed.

(** What the second filter of [main] keeps is among what it was given,
    in the same order. *)
Lemma not_downloaded_keeps {S} `{AssetStore S} (title : string)
    (chapters : list chapter) :
  forall (w : world S) kept w' t,
    not_downloaded title chapters w = (Ok kept, w', t) ->
    (forall c, In c kept -> In c chapters)
    /\ (StronglySorted number_le chapters -> StronglySorted number_le kept).
Proof.
  induction chapters as [|ch rest IH]; intros w kept w' t.
  { simpl. unfold ret. intros [= <- <- <-]. split; [tauto|auto]. }
  cbn [not_downloaded]. unfold bind at 1. rewrite folder_exists_run.
  unfold bind at 1. specialize (IH w).
  destruct (not_downloaded title rest w) as [[[kept'|e] w2] t2];
    [|intros [=]].
  destruct (IH kept' w2 t2 eq_refl) as [Hin Hsorted].
  unfold ret. destruct (has_resources _); intros [= <- <- <-].
  - split.
    + intros c Hc. right. now apply Hin.
    + intros Hs. apply StronglySorted_inv in Hs as [Hs _]. now apply Hsorted.
  - split.
    + intros c [->|Hc]; [now left|right; now apply Hin].
    + intros Hs. apply StronglySorted_inv in Hs as [Hs Hall].
      constructor; [now apply Hsorted|].
      apply Forall_forall. intros c Hc. apply list_elem_of_In in Hc.
      rewrite Forall_forall in Hall. apply Hall.
      apply list_elem_of_In. now apply Hin.
Qed.

Lemma from_start_sorted (start : option pyfloat) (chapters : list chapter) :
  StronglySorted number_le chapters ->
  StronglySorted number_le (from_start start chapters).
Proof.
  unfold from_start. induction 1 as [|c l Hs IH Hall]; simpl; [constructor|].
  destruct (keeps_from start c); [|exact IH].
  constructor; [exact IH|].
  apply Forall_forall. intros d Hd. apply list_elem_of_In in Hd.
  apply filter_In in Hd as [Hd _].
  rewrite Forall_forall in Hall. apply Hall. now apply list_elem_of_In.
Qed.

Lemma get_chapter_list_sorted (links : list link) :
  StronglySorted number_le (get_chapter_list links).
Proof.
  unfold get_chapter_list. destruct (collect_chapters links).
  - apply sorted_by_number_sorted.
  - constructor.
Qed.

(** X21. [main] never raises.  When the comic page cannot be fetched in
    three attempts the run ends there: two back-off sleeps, no metadata
    scrape, the table untouched and no chapter dispatched. *)
Theorem main_landing_page_fails :
  forall (S : Type) (A : AssetStore S) (net : nat -> string -> http_outcome)
         (parse_comic : string -> comic_page) (now : Z) (commit_ok : bool)
         (comic_url title : string) (answer : start_input)
         (db : list Comic.row) (w : world S),
    (exists db' to_scrape,
        fst (fst (main net parse_comic now commit_ok comic_url title answer
                    db w)) = Ok (db', to_scrape))
    /\ ((forall i, (i < 3)%nat -> fails (net (i + clock w) comic_url) = true) ->
        main net parse_comic now commit_ok comic_url title answer db w
        = (Ok (db, []), advance 3 w,
           [EvSessionGet comic_url; EvSleep 2; EvSessionGet comic_url;
            EvSleep 4; EvSessionGet comic_url])).
Proof.
  intros S A net parse_comic now commit_ok comic_url title answer db w.
  rewrite main_cases. split.
  - destruct (fetch_data_with_retry net comic_url MAX_RETRIES w)
      as [[[[data|]|e] w1] t1]; try (eexists; eexists; reflexivity).
    destruct (scrape_comic_meta net parse_comic comic_url title w1)
      as [[[[comic_meta|]|e] w2] t2]; try (eexists; eexists; reflexivity).
    destruct (negb (printable comic_meta));
      [eexists; eexists; reflexivity|].
    destruct (get_chapter_list _) as [|c cs];
      [eexists; eexists; reflexivity|].
    destruct answer; try (eexists; eexists; reflexivity);
      destruct (chapters_to_scrape _ _ _ _) as [[[l|e] w3] t3];
      eexists; eexists; reflexivity.
  - intros Hfail. unfold fetch_data_with_retry, MAX_RETRIES.
    change (Z.of_nat 3) with 3%Z.
    rewrite (fetch_retry_loop_exhausted net comic_url 3 2 0 w);
      [reflexivity|lia|].
    intros i Hi. apply Hfail. lia.
Qed.

Lemma main_landing_page_fails_witness :
  main (fun _ _ => HttpFailure)
    (fun _ => ComicPage None None None None None None None None None [])
    500 true "https://k/komik/solo/" "solo" NoStart [other_row]
    (World ([] : memory_store) 0)
  = (Ok ([other_row], []), World [] 3,
     [EvSessionGet "https://k/komik/solo/"; EvSleep 2;
      EvSessionGet "https://k/komik/solo/"; EvSleep 4;
      EvSessionGet "https://k/komik/solo/"]).
Proof.
  apply (proj2 (main_landing_page_fails memory_store memory_assets
                  (fun _ _ => HttpFailure)
                  (fun _ => ComicPage None None None None None None None None
                              None [])
                  500 true "https://k/komik/solo/" "solo" NoStart [other_row]
                  (World ([] : memory_store) 0))).
  intros i Hi. reflexivity.
Defined.

(** X22. [main] saves the metadata before it dispatches anything and
    only after the starting chapter was read: with an answer that is not
    a number the table is left as it was and no chapter is dispatched,
    and whenever chapters are dispatched the table is the result of one
    [save_comic_metadata] for the title, with a dict that holds the
    slug. *)
Theorem main_saves_before_dispatch :
  forall (S : Type) (A : AssetStore S) (net : nat -> string -> http_outcome)
         (parse_comic : string -> comic_page) (now : Z) (commit_ok : bool)
         (comic_url title : string) (answer : start_input)
         (db : list Comic.row) (w : world S),
    (answer = BadStart ->
     fst (fst (main net parse_comic now commit_ok comic_url title answer db w))
     = Ok (db, []))
    /\ (dispatched
          (fst (fst (main net parse_comic now commit_ok comic_url title answer
                       db w))) <> [] ->
        exists comic_meta,
          comic_meta !! "slug" = Some (MStr title)
          /\ table_after db
               (fst (fst (main net parse_comic now commit_ok comic_url title
                            answer db w)))
             = save_comic_metadata now commit_ok comic_meta title db).
Proof.
  intros S A net parse_comic now commit_ok comic_url title answer db w.
  rewrite main_cases.
  destruct (fetch_data_with_retry net comic_url MAX_RETRIES w)
    as [[[[data|]|e] w1] t1];
    try (split; [reflexivity|intros Hd; now destruct Hd]).
  pose proof (fun m => scrape_comic_meta_slug net parse_comic comic_url title
                         w1 m) as Hslug.
  destruct (scrape_comic_meta net parse_comic comic_url title w1)
    as [[[[comic_meta|]|e] w2] t2];
    try (split; [reflexivity|intros Hd; now destruct Hd]).
  destruct (Hslug comic_meta eq_refl) as [Hs _]. clear Hslug.
  rename Hs into Hslug.
  destruct (negb (printable comic_meta));
    [split; [reflexivity|intros Hd; now destruct Hd]|].
  destruct (get_chapter_list _) as [|c cs];
    [split; [reflexivity|intros Hd; now destruct Hd]|].
  destruct answer as [|x|].
  - destruct (chapters_to_scrape _ _ _ _) as [[[l|e] w3] t3].
    + split; [discriminate|]. intros _. now exists comic_meta.
    + split; [discriminate|]. intros Hd. now destruct Hd.
  - destruct (chapters_to_scrape _ _ _ _) as [[[l|e] w3] t3].
    + split; [discriminate|]. intros _. now exists comic_meta.
    + split; [discriminate|]. intros Hd. now destruct Hd.
  - split; [reflexivity|]. intros Hd. now destruct Hd.
Qed.

Lemma main_saves_before_dispatch_witness :
  fst (fst (main serves_all (fun _ => solo_page) 500 true
              "https://k/komik/solo/" "solo" BadStart [other_row]
              (World ([] : memory_store) 0)))
  = Ok ([other_row], []).
Proof.
  apply (proj1 (main_saves_before_dispatch memory_store memory_assets
                  serves_all (fun _ => solo_page) 500 true
                  "https://k/komik/solo/" "solo" BadStart [other_row]
                  (World ([] : memory_store) 0))).
  reflexivity.
Defined.

(** X23. A failing commit does not stop the run: with and without a
    successful commit [main] makes the same requests, leaves the asset
    host in the same state and dispatches the same chapters; only the
    table differs, and it is unchanged when the commit fails. *)
Theorem main_commit_independent :
  forall (S : Type) (A : AssetStore S) (net : nat -> string -> http_outcome)
         (parse_comic : string -> comic_page) (now : Z)
         (comic_url title : string) (answer : start_input)
         (db : list Comic.row) (w : world S),
    snd (main net parse_comic now false comic_url title answer db w)
    = snd (main net parse_comic now true comic_url title answer db w)
    /\ snd (fst (main net parse_comic now false comic_url title answer db w))
       = snd (fst (main net parse_comic now true comic_url title answer db w))
    /\ dispatched
         (fst (fst (main net parse_comic now false comic_url title answer db
                      w)))
       = dispatched
           (fst (fst (main net parse_comic now true comic_url title answer db
                        w)))
    /\ table_after db
         (fst (fst (main net parse_comic now false comic_url title answer db
                      w))) = db.
Proof.
  intros S A net parse_comic now comic_url title answer db w.
  rewrite !main_cases.
  destruct (fetch_data_with_retry net comic_url MAX_RETRIES w)
    as [[[[data|]|e] w1] t1]; try (repeat split; reflexivity).
  destruct (scrape_comic_meta net parse_comic comic_url title w1)
    as [[[[comic_meta|]|e] w2] t2]; try (repeat split; reflexivity).
  destruct (negb (printable comic_meta)); [repeat split; reflexivity|].
  destruct (get_chapter_list _) as [|c cs]; [repeat split; reflexivity|].
  assert (Hno : save_comic_metadata now false comic_meta title db = db).
  { unfold save_comic_metadata.
    destruct (first_by_slug title db) as [[i e]|]; [reflexivity|].
    now destruct (new_comic _ _ _ _). }
  destruct answer as [|x|]; try (repeat split; reflexivity);
    destruct (chapters_to_scrape _ _ _ _) as [[[l|e] w3] t3];
    repeat split; try reflexivity; exact Hno.
Qed.

(** X24. A run of [main] that dispatches chapters has asked for the comic
    page at least twice: once through [fetch_data_with_retry], for the
    chapter list, and once more through [fetch_data] inside
    [scrape_comic_meta], for the metadata. *)
Theorem main_fetches_page_twice :
  forall (S : Type) (A : AssetStore S) (net : nat -> string -> http_outcome)
         (parse_comic : string -> comic_page) (now : Z) (commit_ok : bool)
         (comic_url title : string) (answer : start_input)
         (db : list Comic.row) (w : world S),
    dispatched
      (fst (fst (main net parse_comic now commit_ok comic_url title answer db
                   w))) <> [] ->
    In (EvSessionGet comic_url)
      (snd (main net parse_comic now commit_ok comic_url title answer db w))
    /\ In (EvRequestsGet comic_url)
         (snd (main net parse_comic now commit_ok comic_url title answer db
                 w)).
Proof.
  intros S A net parse_comic now commit_ok comic_url title answer db w.
  rewrite main_cases.
  pose proof (fun d w1 t1 =>
                fetch_retry_loop_asked net comic_url (Z.of_nat MAX_RETRIES)
                  MAX_RETRIES 0 w d w1 t1) as Hasked.
  fold (fetch_data_with_retry net comic_url MAX_RETRIES w) in Hasked.
  destruct (fetch_data_with_retry net comic_url MAX_RETRIES w)
    as [[[[data|]|e] w1] t1]; try (intros Hd; now destruct Hd).
  specialize (Hasked data w1 t1 eq_refl).
  pose proof (fun m => scrape_comic_meta_slug net parse_comic comic_url title
                         w1 m) as Hmeta.
  destruct (scrape_comic_meta net parse_comic comic_url title w1)
    as [[[[comic_meta|]|e] w2] t2]; try (intros Hd; now destruct Hd).
  destruct (Hmeta comic_meta eq_refl) as [_ [rest Hrest]].
  simpl in Hrest. subst t2.
  destruct (negb (printable comic_meta)); [intros Hd; now destruct Hd|].
  destruct (get_chapter_list _) as [|c cs]; [intros Hd; now destruct Hd|].
  destruct answer as [|x|]; try (intros Hd; now destruct Hd);
    destruct (chapters_to_scrape _ _ _ _) as [[[l|e] w3] t3];
    try (intros Hd; now destruct Hd);
    intros _; cbn [snd]; rewrite !in_app_iff; split;
    [now left|right; left; now left|now left|right; left; now left].
Qed.

Lemma main_fetches_page_twice_witness :
  In (EvSessionGet "https://k/komik/solo/")
    (snd (main serves_all (fun _ => solo_page) 500 true
            "https://k/komik/solo/" "solo" (Start (PyFloat 2 0)) [other_row]
            (World ([] : memory_store) 0)))
  /\ In (EvRequestsGet "https://k/komik/solo/")
       (snd (main serves_all (fun _ => solo_page) 500 true
               "https://k/komik/solo/" "solo" (Start (PyFloat 2 0))
               [other_row] (World ([] : memory_store) 0))).
Proof.
  apply (main_fetches_page_twice memory_store memory_assets serves_all
           (fun _ => solo_page) 500 true "https://k/komik/solo/" "solo"
           (Start (PyFloat 2 0)) [other_row] (World ([] : memory_store) 0)).
  vm_compute. discriminate.
Defined.

(** X25. The chapters [main] dispatches are chapters of the page it
    fetched first, in ascending order of their numbers, and with a start
    value given each of them has a number at least that value. *)
Theorem main_dispatch_sorted :
  forall (S : Type) (A : AssetStore S) (net : nat -> string -> http_outcome)
         (parse_comic : string -> comic_page) (now : Z) (commit_ok : bool)
         (comic_url title : string) (answer : start_input)
         (db : list Comic.row) (w : world S),
    StronglySorted number_le
      (dispatched
         (fst (fst (main net parse_comic now commit_ok comic_url title answer
                      db w))))
    /\ (forall x c,
          answer = Start x ->
          In c (dispatched
                  (fst (fst (main net parse_comic now commit_ok comic_url title
                               answer db w)))) ->
          float_ge (number c) x = true)
    /\ (forall c,
          In c (dispatched
                  (fst (fst (main net parse_comic now commit_ok comic_url title
                               answer db w)))) ->
          exists data w1 t1,
            fetch_data_with_retry net comic_url MAX_RETRIES w
            = (Ok (Some data), w1, t1)
            /\ In c (get_chapter_list (chapter_links (parse_comic data)))).
Proof.
  intros S A net parse_comic now commit_ok comic_url title answer db w.
  rewrite main_cases.
  destruct (fetch_data_with_retry net comic_url MAX_RETRIES w)
    as [[[[data|]|e] w1] t1];
    try (split; [constructor|split; [intros x c _ []|intros c []]]).
  destruct (scrape_comic_meta net parse_comic comic_url title w1)
    as [[[[comic_meta|]|e] w2] t2];
    try (split; [constructor|split; [intros x c _ []|intros c []]]).
  destruct (negb (printable comic_meta));
    [split; [constructor|split; [intros x c _ []|intros c []]]|].
  pose proof (get_chapter_list_sorted (chapter_links (parse_comic data)))
    as Hsorted.
  pose proof (get_chapter_list_nonneg (chapter_links (parse_comic data)))
    as Hnonneg.
  destruct (get_chapter_list (chapter_links (parse_comic data)))
    as [|c0 cs] eqn:Hlist;
    [split; [constructor|split; [intros x c _ []|intros c []]]|].
  assert (Hgen : forall start,
             match chapters_to_scrape title start (c0 :: cs) w2 with
             | (Ok l, _, _) =>
                 StronglySorted number_le l
                 /\ (forall c, In c l ->
                       In c (c0 :: cs) /\ keeps_from start c = true)
             | _ => True
             end).
  { intros start. unfold chapters_to_scrape.
    destruct (not_downloaded title (from_start start (c0 :: cs)) w2)
      as [[[l|e] w3] t3] eqn:Hnd; [|exact I].
    apply not_downloaded_keeps in Hnd as [Hin Hs]. split.
    - apply Hs. now apply from_start_sorted.
    - intros c Hc. apply Hin in Hc. unfold from_start in Hc.
      apply (proj1 (filter_In _ _ _)) in Hc. exact Hc. }
  destruct answer as [|x|].
  - specialize (Hgen None). cbn [start_of].
    destruct (chapters_to_scrape title None (c0 :: cs) w2)
      as [[[l|e] w3] t3];
      [|split; [constructor|split; [intros x c _ []|intros c []]]].
    destruct Hgen as [Hs Hin]. split; [exact Hs|]. split; [discriminate|].
    intros c Hc. exists data, w1, t1. split; [reflexivity|].
    rewrite Hlist. exact (proj1 (Hin c Hc)).
  - specialize (Hgen (Some x)). cbn [start_of].
    destruct (chapters_to_scrape title (Some x) (c0 :: cs) w2)
      as [[[l|e] w3] t3];
      [|split; [constructor|split; [intros y c _ []|intros c []]]].
    destruct Hgen as [Hs Hin]. split; [exact Hs|]. split.
    + intros y c [= <-] Hc. destruct (Hin c Hc) as [Hc0 Hkeep].
      cbn [keeps_from] in Hkeep. cbn [dispatched] in Hc.
      apply orb_true_iff in Hkeep as [Hzero|Hge]; [|exact Hge].
      unfold float_truthy in Hzero.
      rewrite negb_involutive in Hzero. apply Z.eqb_eq in Hzero.
      unfold float_ge, float_le. apply Z.leb_le. rewrite Hzero.
      pose proof (Hnonneg c Hc0). pose proof (pow10_pos (scale x)). nia.
    + intros c Hc. exists data, w1, t1. split; [reflexivity|].
      rewrite Hlist. exact (proj1 (Hin c Hc)).
  - split; [constructor|split; [intros x c _ []|intros c []]].
Qed.

Lemma main_dispatch_sorted_witness :
  dispatched
    (fst (fst (main serves_all (fun _ => solo_page) 500 true
                 "https://k/komik/solo/" "solo" (Start (PyFloat 2 0))
                 [other_row] (World ([] : memory_store) 0))))
  = [Chapter (PyFloat 2 0) "https://k/solo-chapter-2/";
     Chapter (PyFloat 3 0) "https://k/solo-chapter-3/"]
  /\ float_ge (PyFloat 3 0) (PyFloat 2 0) = true.
Proof.
  split; [reflexivity|].
  apply (proj1 (proj2 (main_dispatch_sorted memory_store memory_assets
                         serves_all (fun _ => solo_page) 500 true
                         "https://k/komik/solo/" "solo" (Start (PyFloat 2 0))
                         [other_row] (World ([] : memory_store) 0)))
           (PyFloat 2 0) (Chapter (PyFloat 3 0) "https://k/solo-chapter-3/")
           eq_refl).
  right. left. reflexivity.
Defined.

(** ** The admission gate: progress *)

Lemma sched_inv_reachable (runs : list (list event * bool)) (s : sched) :
  rtc sched_step (dispatch runs) s -> sched_inv s.
Proof.
  revert s. apply rtc_ind_r.
  - apply sched_inv_dispatch.
  - intros y z _ Hstep IH. eapply sched_inv_step; eassumption.
Qed.

(** A task inside its block can always take its next step. *)
Lemma inside_block_steps (s : sched) (i : nat) (prog : list action) :
  tasks s !! i = Some prog -> inside_block prog ->
  exists s', step_task i s = Some s'.
Proof.
  intros Hi Hins. unfold step_task. rewrite Hi.
  destruct prog as [|a rest].
  - destruct Hins as ([|a acts] & Heq & _); discriminate.
  - apply inside_block_cons in Hins as [Hne _].
    destruct a; [congruence|eexists; reflexivity..].
Qed.

(** X26. The gate cannot deadlock: in every state the tasks of [main]
    can reach, as long as some task has steps left, some task can take a
    step (a waiting task when the counter is positive, a task inside its
    block otherwise). *)
Theorem semaphore_no_deadlock (runs : list (list event * bool)) (s : sched)
    (i : nat) (a : action) (rest : list action) :
  rtc sched_step (dispatch runs) s ->
  tasks s !! i = Some (a :: rest) ->
  exists s', sched_step s s'.
Proof.
  intros Hreach Hi.
  destruct (sched_inv_reachable runs s Hreach) as (Hsem & Htasks & Hhold).
  destruct (Htasks i _ Hi) as [[Hout [Hnil|(p & b & Hfresh)]]|[Hin Hins]].
  - discriminate.
  - destruct (sem_value s) as [|v] eqn:Hv.
    + (* counter at zero: all three slots are held, a holder moves *)
      assert (Hpos : 0 < size (holders s))
        by (unfold MAX_CONCURRENT_DOWNLOADS in Hsem; lia).
      apply size_pos_elem_of in Hpos as [j Hj].
      destruct (Hhold j Hj) as [prog Hprog].
      destruct (Htasks j prog Hprog) as [[Hout' _]|[_ Hins]];
        [contradiction|].
      destruct (inside_block_steps s j prog Hprog Hins) as [s' Hs'].
      exists s', j. exact Hs'.
    + destruct (download_with_progress_inside p b) as (rest' & Heq & _).
      rewrite Heq in Hfresh. injection Hfresh as -> ->.
      eexists. exists i. unfold step_task. rewrite Hi, Hv. reflexivity.
  - destruct (inside_block_steps s i _ Hi Hins) as [s' Hs'].
    exists s', i. exact Hs'.
Qed.

Lemma semaphore_no_deadlock_witness :
  exists s', sched_step (run_schedule [0; 1; 2; 3] (dispatch five_runs)) s'.
Proof.
  apply (semaphore_no_deadlock five_runs
           (run_schedule [0; 1; 2; 3] (dispatch five_runs)) 3 Acquire
           (map Act [EvResources "solo/chapter-1"; EvRequestsGet "https://k/c1"]
            ++ [ProgressUpdate; Release])
           (run_schedule_reachable [0; 1; 2; 3] (dispatch five_runs))).
  reflexivity.
Defined.

(** X27. Every slot comes back: in a reachable state in which all tasks
    have run to their end, whether their blocks completed or failed, no
    task is inside a block and the counter is back at three. *)
Theorem semaphore_all_released (runs : list (list event * bool)) (s : sched) :
  rtc sched_step (dispatch runs) s ->
  (forall i prog, tasks s !! i = Some prog -> prog = []) ->
  holders s = ∅ /\ sem_value s = MAX_CONCURRENT_DOWNLOADS.
Proof.
  intros Hreach Hdone.
  destruct (sched_inv_reachable runs s Hreach) as (Hsem & Htasks & Hhold).
  assert (Hempty : holders s = ∅).
  { apply set_eq. intros j. split; [|intros Hj; now apply not_elem_of_empty in Hj].
    intros Hj. exfalso. destruct (Hhold j Hj) as [prog Hprog].
    destruct (Htasks j prog Hprog) as [[Hout _]|[_ Hins]]; [contradiction|].
    rewrite (Hdone j prog Hprog) in Hins.
    destruct Hins as ([|a acts] & Heq & _); discriminate. }
  split; [exact Hempty|]. rewrite Hempty, size_empty in Hsem. lia.
Qed.

Lemma semaphore_all_released_witness :
  sem_value
    (run_schedule [0; 0; 0; 0; 1; 1; 1]
       (dispatch [([EvResources "solo/chapter-1"], true);
                  ([EvResources "solo/chapter-2"], false)]))
  = MAX_CONCURRENT_DOWNLOADS.
Proof.
  apply (semaphore_all_released
           [([EvResources "solo/chapter-1"], true);
            ([EvResources "solo/chapter-2"], false)]
           (run_schedule [0; 0; 0; 0; 1; 1; 1]
              (dispatch [([EvResources "solo/chapter-1"], true);
                         ([EvResources "solo/chapter-2"], false)]))).
  - apply run_schedule_reachable.
  - intros [|[|i]] prog Hi; vm_compute in Hi; congruence.
Defined.
